(** * stremio-imdb-top-picks: the request handler and its helpers

    A shallow embedding of the two revisions of the add-on's serverless
    handler, [src/api/index.js] (manifest version 2.0.0, one fixed catalog
    file) and [src/unnamed/part_000] (manifest version 2.4.0, genre extras),
    with the properties of the credential codec, the upstream fetch, the
    title mapper and the route dispatcher.

    Conventions.
    - A JavaScript string is the list of its UTF-16 code units, each a [Z]
      in [0, 65536).  [js "..."] turns an ASCII literal into such a list.
    - A [Buffer] is the list of its bytes, each a [Z] in [0, 256).
    - The functions of the platform that the code calls ([Buffer.from],
      [Buffer.prototype.toString], [String.prototype.split], ...) are
      written out as the platform documents them; everything else is
      translated from the two source files.
    - A handler takes the method and the path name of the request (what
      [new URL(req.url, ...)] gives) and the endpoint's behaviour, and gives
      the response together with the list of the calls it made.  JSON bodies
      are kept as values, before [JSON.stringify]; [console.error] is left
      out. *)

From Stdlib Require Import String Ascii.
From Stdlib Require Import ZArith List Bool Lia.
From Stdlib Require Import Sorting.Sorted.
From Stdlib Require DecimalString.
From Equations Require Import Equations.
Import ListNotations.

Local Open Scope Z_scope.

(* ===================================================================== *)
(** ** JavaScript strings                                                 *)
(* ===================================================================== *)

Definition jsstring := list Z.

Definition js (s : string) : jsstring :=
  map (fun a => Z.of_nat (nat_of_ascii a)) (list_ascii_of_string s).

Definition code_unit (c : Z) : Prop := 0 <= c < 65536.
Definition js_string (s : jsstring) : Prop := Forall code_unit s.

Definition str_eqb (a b : jsstring) : bool :=
  if list_eq_dec Z.eq_dec a b then true else false.

(** Truthiness of a string: only the empty string is falsy. *)
Definition truthy (s : jsstring) : bool :=
  match s with [] => false | _ => true end.

(** [s.startsWith(p)] *)
Fixpoint startsWith (p s : jsstring) : bool :=
  match p, s with
  | [], _ => true
  | _ :: _, [] => false
  | a :: p', b :: s' => (a =? b) && startsWith p' s'
  end.

(** [s.includes(c)] for a one-character needle. *)
Definition includes_char (c : Z) (s : jsstring) : bool :=
  existsb (Z.eqb c) s.

(** [s.replace(/c/g, d)] for a one-character pattern and replacement. *)
Definition replace_all (c d : Z) (s : jsstring) : jsstring :=
  map (fun x => if x =? c then d else x) s.

Definition ch_plus : Z := 43.
Definition ch_minus : Z := 45.
Definition ch_slash : Z := 47.
Definition ch_eq : Z := 61.
Definition ch_underscore : Z := 95.
Definition ch_comma : Z := 44.
Definition ch_dot : Z := 46.

(** [s.replace(/=+$/, '')]: the match starts at the leftmost position from
    which only '=' follow up to the end of the string. *)
Fixpoint strip_padding (s : jsstring) : jsstring :=
  match s with
  | [] => []
  | c :: r => if forallb (Z.eqb ch_eq) (c :: r) then [] else c :: strip_padding r
  end.

(* ===================================================================== *)
(** ** Buffers: UTF-8 and base64 as Node implements them                  *)
(* ===================================================================== *)

Definition byte (b : Z) : Prop := 0 <= b < 256.

Module Utf16.

Definition is_high (c : Z) : bool := (0xD800 <=? c) && (c <=? 0xDBFF).
Definition is_low (c : Z) : bool := (0xDC00 <=? c) && (c <=? 0xDFFF).

Definition replacement : Z := 0xFFFD.

(** The code points of a string.  A surrogate that is not part of a pair
    becomes U+FFFD, as in [Buffer.from(s, 'utf8')]. *)
Fixpoint scalars (s : jsstring) : list Z :=
  match s with
  | [] => []
  | c :: rest =>
      if is_high c then
        match rest with
        | lo :: rest' =>
            if is_low lo
            then (0x10000 + (c - 0xD800) * 0x400 + (lo - 0xDC00)) :: scalars rest'
            else replacement :: scalars rest
        | [] => [replacement]
        end
      else if is_low c then replacement :: scalars rest
      else c :: scalars rest
  end.

Definition units_of_scalar (p : Z) : jsstring :=
  if p <? 0x10000 then [p]
  else [0xD800 + (p - 0x10000) / 0x400; 0xDC00 + (p - 0x10000) mod 0x400].

Definition of_scalars (ps : list Z) : jsstring := flat_map units_of_scalar ps.

(** No surrogate stands alone. *)
Fixpoint well_formed (s : jsstring) : bool :=
  match s with
  | [] => true
  | c :: rest =>
      if is_high c then
        match rest with
        | lo :: rest' => is_low lo && well_formed rest'
        | [] => false
        end
      else negb (is_low c) && well_formed rest
  end.

End Utf16.

Module Utf8.

Definition encode_scalar (p : Z) : list Z :=
  if p <? 0x80 then [p]
  else if p <? 0x800 then [0xC0 + p / 64; 0x80 + p mod 64]
  else if p <? 0x10000 then
    [0xE0 + p / 4096; 0x80 + (p / 64) mod 64; 0x80 + p mod 64]
  else
    [0xF0 + p / 262144; 0x80 + (p / 4096) mod 64;
     0x80 + (p / 64) mod 64; 0x80 + p mod 64].

(** [Buffer.from(s, 'utf8')] *)
Definition encode (s : jsstring) : list Z :=
  flat_map encode_scalar (Utf16.scalars s).

(** The decoder's state between two bytes: either no sequence is open, or
    [need] continuation bytes are still expected, the next one within
    [lower, upper], with [acc] the bits read so far. *)
Inductive state :=
| Idle
| Pending (acc need lower upper : Z).

(** A byte met when no sequence is open. *)
Definition start (b : Z) : state * list Z :=
  if b <=? 0x7F then (Idle, [b])
  else if (0xC2 <=? b) && (b <=? 0xDF) then (Pending (b - 0xC0) 1 0x80 0xBF, [])
  else if (0xE0 <=? b) && (b <=? 0xEF) then
    (Pending (b - 0xE0) 2 (if b =? 0xE0 then 0xA0 else 0x80)
                          (if b =? 0xED then 0x9F else 0xBF), [])
  else if (0xF0 <=? b) && (b <=? 0xF4) then
    (Pending (b - 0xF0) 3 (if b =? 0xF0 then 0x90 else 0x80)
                          (if b =? 0xF4 then 0x8F else 0xBF), [])
  else (Idle, [Utf16.replacement]).

(** One byte of input: the new state and the code points given out.  A
    byte that cannot continue the open sequence closes it with U+FFFD
    and is then read again as the start of a sequence. *)
Definition step (st : state) (b : Z) : state * list Z :=
  match st with
  | Idle => start b
  | Pending acc need lower upper =>
      if (lower <=? b) && (b <=? upper) then
        let acc' := acc * 64 + (b - 0x80) in
        if need =? 1 then (Idle, [acc'])
        else (Pending acc' (need - 1) 0x80 0xBF, [])
      else
        let '(st', out) := start b in (st', Utf16.replacement :: out)
  end.

Fixpoint run (st : state) (bs : list Z) : list Z :=
  match bs with
  | [] => match st with Idle => [] | Pending _ _ _ _ => [Utf16.replacement] end
  | b :: bs' => let '(st', out) := step st b in out ++ run st' bs'
  end.

(** [buf.toString('utf8')]: malformed input is replaced, never refused. *)
Definition decode (bs : list Z) : jsstring :=
  Utf16.of_scalars (run Idle bs).

End Utf8.

Module Base64.

(** The character of a six-bit value in the standard alphabet. *)
Definition char_of (n : Z) : Z :=
  if n <? 26 then 65 + n
  else if n <? 52 then 97 + (n - 26)
  else if n <? 62 then 48 + (n - 52)
  else if n =? 62 then ch_plus
  else ch_slash.

(** The six-bit value of a character; the decoder takes the URL-safe
    alphabet as well as the standard one. *)
Definition value_of (c : Z) : option Z :=
  if (65 <=? c) && (c <=? 90) then Some (c - 65)
  else if (97 <=? c) && (c <=? 122) then Some (c - 97 + 26)
  else if (48 <=? c) && (c <=? 57) then Some (c - 48 + 52)
  else if (c =? ch_plus) || (c =? ch_minus) then Some 62
  else if (c =? ch_slash) || (c =? ch_underscore) then Some 63
  else None.

Fixpoint sextets_of_bytes (bs : list Z) : list Z :=
  match bs with
  | [] => []
  | [a] => [a / 4; (a mod 4) * 16]
  | [a; b] => [a / 4; (a mod 4) * 16 + b / 16; (b mod 16) * 4]
  | a :: b :: c :: rest =>
      a / 4 :: (a mod 4) * 16 + b / 16 :: (b mod 16) * 4 + c / 64 :: c mod 64
        :: sextets_of_bytes rest
  end.

Definition padding_of (n : nat) : nat :=
  match Nat.modulo n 3 with
  | 1%nat => 2%nat
  | 2%nat => 1%nat
  | _ => 0%nat
  end.

(** [buf.toString('base64')] *)
Definition encode (bs : list Z) : jsstring :=
  map char_of (sextets_of_bytes bs) ++ repeat ch_eq (padding_of (length bs)).

Fixpoint bytes_of_sextets (l : list Z) : list Z :=
  match l with
  | a :: b :: c :: d :: rest =>
      (a * 4 + b / 16) mod 256 :: (b * 16 + c / 4) mod 256 :: (c * 64 + d) mod 256
        :: bytes_of_sextets rest
  | [a; b; c] => [(a * 4 + b / 16) mod 256; (b * 16 + c / 4) mod 256]
  | [a; b] => [(a * 4 + b / 16) mod 256]
  | _ => []
  end.

(** The input up to its first '='. *)
Fixpoint until_padding (s : jsstring) : jsstring :=
  match s with
  | [] => []
  | c :: r => if c =? ch_eq then [] else c :: until_padding r
  end.

Fixpoint values (s : jsstring) : list Z :=
  match s with
  | [] => []
  | c :: r => match value_of c with
              | Some v => v :: values r
              | None => values r
              end
  end.

(** [Buffer.from(s, 'base64')]: characters outside the alphabets are
    skipped, decoding stops at the first '=', and an incomplete last
    group gives the bytes it fully determines. *)
Definition decode (s : jsstring) : list Z :=
  bytes_of_sextets (values (until_padding s)).

End Base64.

(* ===================================================================== *)
(** ** The credential codec [b64url]                                      *)
(* ===================================================================== *)

(** How many '=' a string of length [n] lacks to reach a multiple of four. *)
Definition missing (n : nat) : nat := Nat.modulo (4 - Nat.modulo n 4) 4.

#[local] Opaque missing Nat.modulo.

(** The loop [while (b.length % 4) b += '='] of [b64url.decode]; it ends
    because each turn brings the length closer to a multiple of four. *)
Equations? pad (b : jsstring) : jsstring
  by wf (missing (length b)) lt :=
  pad b with Nat.eq_dec (Nat.modulo (length b) 4) 0 => {
    | left _ := b;
    | right _ := pad (b ++ [ch_eq]) }.
Proof.
  rewrite length_app. cbn [length].
  with_strategy transparent [missing] unfold missing.
  set (k := length b) in *.
  pose proof (Nat.mod_upper_bound k 4 ltac:(lia)).
  pose proof (Nat.div_mod_eq k 4).
  pose proof (Nat.div_mod_eq (k + 1) 4).
  pose proof (Nat.mod_upper_bound (k + 1) 4 ltac:(lia)).
  pose proof (Nat.div_mod_eq (4 - (k + 1) mod 4) 4).
  pose proof (Nat.mod_upper_bound (4 - (k + 1) mod 4) 4 ltac:(lia)).
  pose proof (Nat.div_mod_eq (4 - k mod 4) 4).
  pose proof (Nat.mod_upper_bound (4 - k mod 4) 4 ltac:(lia)).
  lia.
Qed.

#[local] Transparent missing Nat.modulo.

Module b64url.

Definition encode (s : jsstring) : jsstring :=
  strip_padding
    (replace_all ch_slash ch_underscore
       (replace_all ch_plus ch_minus (Base64.encode (Utf8.encode s)))).

Definition decode (b : jsstring) : jsstring :=
  let b := replace_all ch_underscore ch_slash (replace_all ch_minus ch_plus b) in
  let b := pad b in
  Utf8.decode (Base64.decode b).

End b64url.

(* ===================================================================== *)
(** ** More of the string and array library                               *)
(* ===================================================================== *)

(** [s.split(sep)] for a one-character separator. *)
Fixpoint split (sep : Z) (s : jsstring) : list jsstring :=
  match s with
  | [] => [[]]
  | c :: r =>
      if c =? sep then [] :: split sep r
      else match split sep r with
           | x :: xs => (c :: x) :: xs
           | [] => [[c]]
           end
  end.

(** [l.join(sep)] *)
Fixpoint join (sep : jsstring) (l : list jsstring) : jsstring :=
  match l with
  | [] => []
  | [x] => x
  | x :: r => x ++ sep ++ join sep r
  end.

(** [x || ''] and [x || []] for a value that is a string (an array) or
    undefined. *)
Definition or_empty (x : option jsstring) : jsstring :=
  match x with Some s => s | None => [] end.
Definition or_nil {A} (x : option (list A)) : list A :=
  match x with Some l => l | None => [] end.

(** Optional chaining [o?.f]. *)
Definition chain {A B} (o : option A) (f : A -> option B) : option B :=
  match o with Some a => f a | None => None end.
Notation "o ?. f" := (chain o f) (at level 50, left associativity).

(** [s.replace(/\.json$/, '')] *)
Definition strip_json (s : jsstring) : jsstring :=
  let n := (length s - 5)%nat in
  if (5 <=? length s)%nat && str_eqb (skipn n s) (js ".json")
  then firstn n s else s.

Definition is_digit (c : Z) : bool := (48 <=? c) && (c <=? 57).

(** [/^tt\d+$/.test(s)] *)
Definition is_tt_id (s : jsstring) : bool :=
  match s with
  | a :: b :: d :: ds => (a =? 116) && (b =? 116) && forallb is_digit (d :: ds)
  | _ => false
  end.

(** The letters of the two patterns are ASCII, and under the [i] flag
    (without [u]) an ASCII letter matches its two cases only. *)
Definition ascii_lower (c : Z) : Z :=
  if (65 <=? c) && (c <=? 90) then c + 32 else c.

Fixpoint matches_here (pat s : jsstring) : bool :=
  match pat, s with
  | [], _ => true
  | _ :: _, [] => false
  | p :: pat', c :: s' => (ascii_lower c =? p) && matches_here pat' s'
  end.

(** [s.match(/pat/i)] is not null, for a pattern of lower-case letters. *)
Fixpoint match_i (pat s : jsstring) : bool :=
  matches_here pat s ||
  match s with
  | [] => false
  | _ :: s' => match_i pat s'
  end.

(** The order of [Array.prototype.sort] without a comparator: strings by
    their code units. *)
Fixpoint str_ltb (a b : jsstring) : bool :=
  match a, b with
  | [], [] => false
  | [], _ :: _ => true
  | _ :: _, [] => false
  | x :: a', y :: b' => (x <? y) || ((x =? y) && str_ltb a' b')
  end.

Fixpoint insert (x : jsstring) (l : list jsstring) : list jsstring :=
  match l with
  | [] => [x]
  | y :: r => if str_ltb y x then y :: insert x r else x :: y :: r
  end.

(** [l.sort()] on an array of strings. *)
Definition sort (l : list jsstring) : list jsstring := fold_right insert [] l.

(** [set.add(x)] on a [Set] kept in insertion order. *)
Definition Set_add (x : jsstring) (set : list jsstring) : list jsstring :=
  if existsb (str_eqb x) set then set else set ++ [x].

(** An object used as a map from strings to strings: the latest binding of
    a key comes first. *)
Definition object := list (jsstring * jsstring).

(** [o[k] = v] on an object made by [{}], for a string [v].  The key
    [__proto__] is the accessor of [Object.prototype], whose setter ignores
    a value that is not an object: no property is recorded. *)
Definition set_property (k v : jsstring) (o : object) : object :=
  if str_eqb k (js "__proto__") then o else (k, v) :: o.

Fixpoint get_property (k : jsstring) (o : object) : option jsstring :=
  match o with
  | [] => None
  | (k', v) :: r => if str_eqb k k' then Some v else get_property k r
  end.

(** The decimal text of an integer, as string concatenation gives it. *)
Definition decimal (n : Z) : jsstring :=
  js (DecimalString.NilZero.string_of_int (Z.to_int n)).

(* ===================================================================== *)
(** ** Data                                                               *)
(* ===================================================================== *)

(** A JSON number that the code only passes on, kept as its literal. *)
Definition number := jsstring.

(** The upstream GraphQL payload.  Every field that the code reads through
    [?.] or guards with [||] may be missing ([None] stands for an absent,
    undefined or null value). *)
Module Gql.
Record Text := { text : option jsstring }.
Record GenreEntry := { genre : option Text }.
Record TitleGenres := { genres : option (list GenreEntry) }.
Record TitleType := { titleType_id : option jsstring }.
Record Image := { url : option jsstring }.
Record ReleaseYear := { year : option number }.
Record RatingsSummary := { aggregateRating : option number }.
Record Title := {
  id : option jsstring;
  titleType : option TitleType;
  titleText : option Text;
  originalTitleText : option Text;
  primaryImage : option Image;
  releaseYear : option ReleaseYear;
  titleGenres : option TitleGenres;
  ratingsSummary : option RatingsSummary }.
Record Node := { title : option Title }.
Record Edge := { node : option Node }.
Record Recommendations := { edges : option (list Edge) }.
Record Data := { titleRecommendations : option Recommendations }.
Record Error := { message : option jsstring }.
Record Payload := { data : option Data; errors : option (list Error) }.
End Gql.

(** A catalog item.  [genres] is [None] when the object has no such
    property. *)
Module Meta.
Record t := {
  id : jsstring;
  type : jsstring;
  name : jsstring;
  poster : jsstring;
  year : option number;
  genres : option (list jsstring);
  posterShape : jsstring;
  imdbRating : option number }.
End Meta.

Module Manifest.
Record Extra := {
  extra_name : jsstring;
  isRequired : bool;
  options : list jsstring }.
Record Catalog := {
  catalog_id : jsstring;
  catalog_type : jsstring;
  catalog_name : jsstring;
  extra : option (list Extra) }.
Record t := {
  id : jsstring;
  version : jsstring;
  name : jsstring;
  description : jsstring;
  types : list jsstring;
  catalogs : list Catalog;
  resources : list jsstring;
  configurable : bool }.
End Manifest.

(** The placeholder object of the meta route; [type] is undefined when the
    path has no such segment. *)
Record StubMeta := {
  stub_id : jsstring;
  stub_type : option jsstring;
  stub_name : jsstring;
  stub_poster : jsstring }.

(* ===================================================================== *)
(** ** Exceptions, outbound calls and responses                           *)
(* ===================================================================== *)

(** What is thrown: an [Error] made by the program with its message, or a
    [TypeError] of the engine for reading property [reading] of an
    undefined or null value. *)
Inductive exn :=
| Error (message : jsstring)
| TypeError (reading : jsstring).

(** [e.message]; the wording of the engine's own messages is left open. *)
Inductive message :=
| Said (s : jsstring)
| ByEngine (reading : jsstring).

Definition message_of (e : exn) : message :=
  match e with
  | Error m => Said m
  | TypeError r => ByEngine r
  end.

Inductive outcome (A : Type) :=
| Returned (a : A)
| Thrown (e : exn).
Arguments Returned {A} a.
Arguments Thrown {A} e.

(** The [Cookie] header of every POST sent to the GraphQL endpoint so far,
    oldest first. *)
Definition calls := list jsstring.

(** A computation that may post to the endpoint and may throw. *)
Definition M (A : Type) : Type := calls -> outcome A * calls.

Definition ret {A} (a : A) : M A := fun t => (Returned a, t).
Definition throw {A} (e : exn) : M A := fun t => (Thrown e, t).
Definition bind {A B} (m : M A) (k : A -> M B) : M B :=
  fun t => match m t with
           | (Returned a, t') => k a t'
           | (Thrown e, t') => (Thrown e, t')
           end.
Definition try_catch {A} (m : M A) (h : exn -> M A) : M A :=
  fun t => match m t with
           | (Returned a, t') => (Returned a, t')
           | (Thrown e, t') => h e t'
           end.
Definition lift {A} (o : outcome A) : M A := fun t => (o, t).

Notation "x <- m ;; k" := (bind m (fun x => k))
  (at level 61, m at next level, right associativity).

(** How [axios.post] settles: with the parsed body of a 2xx answer, or
    rejected with an error that may carry the status of the answer
    ([e.response?.status]) and a message. *)
Inductive settled :=
| Resolved (data : option Gql.Payload)
| Rejected (status : option Z) (msg : option jsstring).

(** The endpoint as the program sees it: how a POST with a given [Cookie]
    header settles. *)
Definition endpoint := jsstring -> settled.

Definition axios_post (net : endpoint) (cookie : jsstring) : calls -> settled * calls :=
  fun t => (net cookie, t ++ [cookie]).

Inductive json :=
| ErrorObject (error : message)
| MetasObject (metas : list Meta.t)
| MetaObject (meta : StubMeta)
| ManifestObject (manifest : Manifest.t).

Inductive content :=
| PAGE
| Str (s : jsstring)
| Obj (o : json).

(** What [res.end] was given. *)
Inductive sent :=
| Nothing
| Verbatim (c : content)
| Stringified (c : content).

Record response := {
  statusCode : Z;
  headers : list (jsstring * jsstring);
  body : sent }.

Record request := {
  method : jsstring;
  pathname : jsstring }.

(** [send(res, body, type, code)] *)
Definition send (b : content) (type : jsstring) (code : Z) : response :=
  {| statusCode := code;
     headers := [(js "Content-Type", type); (js "Access-Control-Allow-Origin", js "*")];
     body := if startsWith (js "application/json") type
             then Stringified b else Verbatim b |}.

Definition preflight : response :=
  {| statusCode := 204;
     headers := [(js "Access-Control-Allow-Origin", js "*");
                 (js "Access-Control-Allow-Methods", js "GET,OPTIONS");
                 (js "Access-Control-Allow-Headers", js "Content-Type")];
     body := Nothing |}.

Definition application_json := js "application/json".

(** The en dash of the messages and names, U+2013. *)
Definition en_dash : jsstring := [8211].

Definition missing_cookie : jsstring :=
  js "Missing IMDb cookie " ++ en_dash ++ js " generate URL via root page.".

(** The first lines of both handlers: the credential segment [hash] and
    the route [tail] of a path. *)
Definition segments (pathname : jsstring) : list jsstring :=
  filter truthy (split ch_slash pathname).

Definition hash_of (pathname : jsstring) : jsstring :=
  match segments pathname with
  | s0 :: _ => if truthy s0 && negb (includes_char ch_dot s0) then s0 else []
  | [] => []
  end.

Definition tail_of (pathname : jsstring) : jsstring :=
  if truthy (hash_of pathname)
  then js "/" ++ join (js "/") (tl (segments pathname))
  else pathname.

(** [hash ? b64url.decode(hash) : ''] *)
Definition cookie_of (hash : jsstring) : jsstring :=
  if truthy hash then b64url.decode hash else [].

(** The failure of [fetchImdbData] and of [scrape] on a rejected POST. *)
Definition request_failed (status : option Z) (msg : option jsstring) : exn :=
  Error (js "Request to IMDb GraphQL failed: "
         ++ match status with
            | Some n => if n =? 0 then [] else decimal n
            | None => []
            end
         ++ js " " ++ or_empty msg).

Definition login_required : jsstring := js "Login required or cookie expired.".

(** The failure of both on an answer that has errors and no edges. *)
Definition upstream_errors (errors : list Gql.Error) : exn :=
  let msg := join (js ", ") (map (fun e => or_empty (Gql.message e)) errors) in
  if match_i (js "auth") msg || match_i (js "login") msg
  then Error login_required
  else Error (js "IMDb GraphQL error: " ++ msg).

(** [response?.data?.data?.titleRecommendations?.edges] *)
Definition edges_of (data : option Gql.Payload) : option (list Gql.Edge) :=
  data ?. Gql.data ?. Gql.titleRecommendations ?. Gql.edges.

(** The meta route, the same in both revisions. *)
Definition meta_route (tail : jsstring) : response :=
  let parts := split ch_slash tail in
  let type := nth_error parts 2 in
  let file := nth_error parts 3 in
  let imdbId := strip_json (or_empty file) in
  if negb (is_tt_id imdbId)
  then send (Obj (ErrorObject (Said (js "Bad IMDb id")))) application_json 400
  else
    let meta :=
      {| stub_id := imdbId;
         stub_type := type;
         stub_name := js "IMDb title " ++ imdbId;
         stub_poster := js "https://img.omdbapi.com/?i=" ++ imdbId
                        ++ js "&apikey=YOUR_OMDB_API_KEY" |} in
    send (Obj (MetaObject meta)) application_json 200.

Definition series_or_movie (t : Gql.Title) : jsstring :=
  let id := Gql.titleType t ?. Gql.titleType_id in
  if match id with
     | Some i => str_eqb i (js "tvSeries") || str_eqb i (js "tvMiniSeries")
     | None => false
     end
  then js "series" else js "movie".

(** [a || b || 'IMDb title'] on two strings that may be missing. *)
Definition title_name (t : Gql.Title) : jsstring :=
  let a := or_empty (Gql.titleText t ?. Gql.text) in
  let b := or_empty (Gql.originalTitleText t ?. Gql.text) in
  if truthy a then a else if truthy b then b else js "IMDb title".

(** [m.type === type] where [type] may be undefined. *)
Definition has_type (type : option jsstring) (m : Meta.t) : bool :=
  match type with
  | Some ty => str_eqb (Meta.type m) ty
  | None => false
  end.

(** [l.map(f).filter(Boolean)] for an [f] that gives an object or null. *)
Definition compact {A} (l : list (option A)) : list A :=
  flat_map (fun o => match o with Some a => [a] | None => [] end) l.

(** [l.map(f)] for an [f] that may throw: the first exception ends it. *)
Fixpoint map_outcome {A B} (f : A -> outcome B) (l : list A) : outcome (list B) :=
  match l with
  | [] => Returned []
  | a :: r =>
      match f a with
      | Thrown e => Thrown e
      | Returned b =>
          match map_outcome f r with
          | Thrown e => Thrown e
          | Returned bs => Returned (b :: bs)
          end
      end
  end.

(* ===================================================================== *)
(** ** Revision 2.0.0: [src/api/index.js]                                 *)
(* ===================================================================== *)

Module V20.

Definition MANIFEST : Manifest.t :=
  {| Manifest.id := js "community.imdb-top-picks";
     Manifest.version := js "2.0.0";
     Manifest.name := js "IMDb Top Picks";
     Manifest.description := js "Personalized IMDb " ++ [34] ++ js "Top Picks"
                             ++ [34] ++ js " for your account.";
     Manifest.types := [js "movie"; js "series"];
     Manifest.catalogs :=
       [ {| Manifest.catalog_id := js "imdb-top-picks";
            Manifest.catalog_type := js "movie";
            Manifest.catalog_name := js "IMDB Top Picks " ++ en_dash ++ js " Movies";
            Manifest.extra := None |};
         {| Manifest.catalog_id := js "imdb-top-picks";
            Manifest.catalog_type := js "series";
            Manifest.catalog_name := js "IMDB Top Picks " ++ en_dash ++ js " Series";
            Manifest.extra := None |} ];
     Manifest.resources := [js "catalog"; js "meta"];
     Manifest.configurable := false |}.

(** The function given to [edges.map] in [scrape]. *)
Definition to_meta (edge : Gql.Edge) : option Meta.t :=
  match Gql.node edge ?. Gql.title with
  | None => None
  | Some t =>
      if negb (truthy (or_empty (Gql.id t))) then None
      else Some
        {| Meta.id := or_empty (Gql.id t);
           Meta.type := series_or_movie t;
           Meta.name := title_name t;
           Meta.poster := or_empty (Gql.primaryImage t ?. Gql.url);
           Meta.year := Gql.releaseYear t ?. Gql.year;
           Meta.genres := None;
           Meta.posterShape := js "poster";
           Meta.imdbRating := Gql.ratingsSummary t ?. Gql.aggregateRating |}
  end.

Definition scrape (net : endpoint) (cookie : jsstring) : M (list Meta.t) :=
  fun t =>
    match axios_post net cookie t with
    | (Rejected status msg, t') => (Thrown (request_failed status msg), t')
    | (Resolved data, t') =>
        let edges := or_nil (edges_of data) in
        match edges, data ?. Gql.errors with
        | [], Some errors => (Thrown (upstream_errors errors), t')
        | [], None =>
            (Thrown (Error (js "No Top Picks found for this account.")), t')
        | _ :: _, _ => (Returned (compact (map to_meta edges)), t')
        end
    end.

Definition handler (net : endpoint) (req : request) : M response :=
  if str_eqb (method req) (js "OPTIONS") then ret preflight
  else
    let hash := hash_of (pathname req) in
    let tail := tail_of (pathname req) in
    if str_eqb tail (js "/") || str_eqb tail (js "/index.html")
    then ret (send PAGE (js "text/html") 200)
    else if str_eqb tail (js "/manifest.json") then
      let cookie := cookie_of hash in
      ret (send
             (Obj (ManifestObject
                (if truthy cookie
                 then {| Manifest.id := Manifest.id MANIFEST ++ js "." ++ hash;
                         Manifest.version := Manifest.version MANIFEST;
                         Manifest.name := Manifest.name MANIFEST;
                         Manifest.description := Manifest.description MANIFEST;
                         Manifest.types := Manifest.types MANIFEST;
                         Manifest.catalogs := Manifest.catalogs MANIFEST;
                         Manifest.resources := Manifest.resources MANIFEST;
                         Manifest.configurable := Manifest.configurable MANIFEST |}
                 else MANIFEST)))
             application_json 200)
    else if startsWith (js "/catalog/") tail then
      let parts := split ch_slash tail in
      let type := nth_error parts 2 in
      let file := nth_error parts 3 in
      if negb (match file with
               | Some f => str_eqb f (js "imdb-top-picks.json")
               | None => false
               end)
      then ret (send (Obj (ErrorObject (Said (js "Unknown catalog"))))
                  application_json 404)
      else
        let cookie := cookie_of hash in
        if negb (truthy cookie)
        then ret (send (Obj (ErrorObject (Said missing_cookie))) application_json 400)
        else
          try_catch
            (all <- scrape net cookie ;;
             let metas := filter (has_type type) all in
             ret (send (Obj (MetasObject metas)) application_json 200))
            (fun e =>
               ret (send (Obj (ErrorObject (message_of e))) application_json 503))
    else if startsWith (js "/meta/") tail then ret (meta_route tail)
    else ret (send (Str (js "Not found")) (js "text/plain") 404).

End V20.

(* ===================================================================== *)
(** ** Revision 2.4.0: [src/unnamed/part_000]                             *)
(* ===================================================================== *)

Module V24.

Definition extractGenresFromData (data : option Gql.Payload) : list jsstring :=
  let edges := or_nil (edges_of data) in
  let genresSet :=
    fold_left
      (fun set edge =>
         let genresArr :=
           or_nil (Gql.node edge ?. Gql.title ?. Gql.titleGenres ?. Gql.genres) in
         fold_left
           (fun set g =>
              let text := or_empty (Gql.genre g ?. Gql.text) in
              if truthy text then Set_add text set else set)
           genresArr set)
      edges [] in
  sort genresSet.

(** [g => g.genre.text]: reading [text] of a missing [genre] throws. *)
Definition genre_text (g : Gql.GenreEntry) : outcome (option jsstring) :=
  match Gql.genre g with
  | None => Thrown (TypeError (js "text"))
  | Some tx => Returned (Gql.text tx)
  end.

Definition buildMeta (edge : Gql.Edge) : outcome (option Meta.t) :=
  match Gql.node edge ?. Gql.title with
  | None => Returned None
  | Some t =>
      if negb (truthy (or_empty (Gql.id t))) then Returned None
      else
        match map_outcome genre_text (or_nil (Gql.titleGenres t ?. Gql.genres)) with
        | Thrown e => Thrown e
        | Returned texts =>
            let genres := filter truthy (map or_empty texts) in
            Returned (Some
              {| Meta.id := or_empty (Gql.id t);
                 Meta.type := series_or_movie t;
                 Meta.name := title_name t;
                 Meta.poster := or_empty (Gql.primaryImage t ?. Gql.url);
                 Meta.year := Gql.releaseYear t ?. Gql.year;
                 Meta.genres := Some genres;
                 Meta.posterShape := js "poster";
                 Meta.imdbRating := Gql.ratingsSummary t ?. Gql.aggregateRating |})
        end
  end.

Definition parseExtrasFromPath (path : jsstring) : object :=
  let parts := split ch_slash path in
  let extrasStr := or_empty (nth_error parts 4) in
  let extrasStr := strip_json extrasStr in
  if truthy extrasStr && includes_char ch_eq extrasStr then
    fold_left
      (fun extras pair =>
         match split ch_eq pair with
         | k :: v :: _ =>
             if truthy k && truthy v then set_property k v extras else extras
         | _ => extras
         end)
      (split ch_comma extrasStr) []
  else [].

Definition genre_extra (options : list jsstring) : Manifest.Extra :=
  {| Manifest.extra_name := js "genre";
     Manifest.isRequired := false;
     Manifest.options := options |}.

Definition BASE_MANIFEST : Manifest.t :=
  {| Manifest.id := js "community.imdb-top-picks";
     Manifest.version := js "2.4.0";
     Manifest.name := js "IMDb Top Picks";
     Manifest.description := js "Personalized IMDb " ++ [34] ++ js "Top Picks"
                             ++ [34] ++ js " for your account.";
     Manifest.types := [js "movie"; js "series"];
     Manifest.catalogs :=
       [ {| Manifest.catalog_id := js "imdb-top-picks";
            Manifest.catalog_type := js "movie";
            Manifest.catalog_name := js "IMDB Top Picks " ++ en_dash ++ js " Movies";
            Manifest.extra := Some [genre_extra []] |};
         {| Manifest.catalog_id := js "imdb-top-picks";
            Manifest.catalog_type := js "series";
            Manifest.catalog_name := js "IMDB Top Picks " ++ en_dash ++ js " Series";
            Manifest.extra := Some [genre_extra []] |} ];
     Manifest.resources := [js "catalog"; js "meta"];
     Manifest.configurable := false |}.

Definition fetchImdbData (net : endpoint) (cookie : jsstring)
  : M (option Gql.Payload) :=
  fun t =>
    match axios_post net cookie t with
    | (Rejected status msg, t') => (Thrown (request_failed status msg), t')
    | (Resolved data, t') =>
        match or_nil (edges_of data), data ?. Gql.errors with
        | [], Some errors => (Thrown (upstream_errors errors), t')
        | _, _ => (Returned data, t')
        end
    end.

(** [cat.extra[0].options = genres] *)
Definition inject_options (genres : list jsstring) (cat : Manifest.Catalog)
  : outcome Manifest.Catalog :=
  match Manifest.extra cat with
  | None => Thrown (TypeError (js "0"))
  | Some [] => Thrown (TypeError (js "options"))
  | Some (e :: es) =>
      Returned
        {| Manifest.catalog_id := Manifest.catalog_id cat;
           Manifest.catalog_type := Manifest.catalog_type cat;
           Manifest.catalog_name := Manifest.catalog_name cat;
           Manifest.extra :=
             Some ({| Manifest.extra_name := Manifest.extra_name e;
                      Manifest.isRequired := Manifest.isRequired e;
                      Manifest.options := genres |} :: es) |}
  end.

(** [imdbData.data.titleRecommendations.edges || []] *)
Definition edges_or_throw (imdbData : option Gql.Payload)
  : outcome (list Gql.Edge) :=
  match imdbData with
  | None => Thrown (TypeError (js "data"))
  | Some p =>
      match Gql.data p with
      | None => Thrown (TypeError (js "titleRecommendations"))
      | Some d =>
          match Gql.titleRecommendations d with
          | None => Thrown (TypeError (js "edges"))
          | Some r => Returned (or_nil (Gql.edges r))
          end
      end
  end.

Section Handler.

(** [String.prototype.toLowerCase], whose case tables are the
    platform's. *)
Variable toLowerCase : jsstring -> jsstring.
Variable net : endpoint.

(** The test of the genre filter on one item. *)
Definition has_genre (reqGenre : jsstring) (m : Meta.t) : bool :=
  match Meta.genres m with
  | Some gs => existsb (fun g => str_eqb (toLowerCase g) reqGenre) gs
  | None => false
  end.

Definition handler (req : request) : M response :=
  if str_eqb (method req) (js "OPTIONS") then ret preflight
  else
    let hash := hash_of (pathname req) in
    let tail := tail_of (pathname req) in
    if str_eqb tail (js "/") || str_eqb tail (js "/index.html")
    then ret (send PAGE (js "text/html") 200)
    else if str_eqb tail (js "/manifest.json") then
      let cookie := cookie_of hash in
      genres <-
        (if truthy cookie then
           try_catch
             (imdbData <- fetchImdbData net cookie ;;
              ret (extractGenresFromData imdbData))
             (fun _ => ret [])
         else ret []) ;;
      cats <- lift (map_outcome (inject_options genres)
                      (Manifest.catalogs BASE_MANIFEST)) ;;
      let manifest :=
        {| Manifest.id := if truthy cookie
                          then Manifest.id BASE_MANIFEST ++ js "." ++ hash
                          else Manifest.id BASE_MANIFEST;
           Manifest.version := Manifest.version BASE_MANIFEST;
           Manifest.name := Manifest.name BASE_MANIFEST;
           Manifest.description := Manifest.description BASE_MANIFEST;
           Manifest.types := Manifest.types BASE_MANIFEST;
           Manifest.catalogs := cats;
           Manifest.resources := Manifest.resources BASE_MANIFEST;
           Manifest.configurable := Manifest.configurable BASE_MANIFEST |} in
      ret (send (Obj (ManifestObject manifest)) application_json 200)
    else if startsWith (js "/catalog/") tail then
      let parts := split ch_slash tail in
      let type := nth_error parts 2 in
      match nth_error parts 3 with
      | None => throw (TypeError (js "startsWith"))
      | Some id =>
          if negb (startsWith (js "imdb-top-picks") id)
          then ret (send (Obj (ErrorObject (Said (js "Unknown catalog"))))
                      application_json 404)
          else
            let extras := parseExtrasFromPath tail in
            let cookie := cookie_of hash in
            if negb (truthy cookie)
            then ret (send (Obj (ErrorObject (Said missing_cookie)))
                        application_json 400)
            else
              try_catch
                (imdbData <- fetchImdbData net cookie ;;
                 edges <- lift (edges_or_throw imdbData) ;;
                 built <- lift (map_outcome buildMeta edges) ;;
                 let metas := filter (has_type type) (compact built) in
                 let metas :=
                   match get_property (js "genre") extras with
                   | Some genre =>
                       if truthy genre
                       then filter (has_genre (toLowerCase genre)) metas
                       else metas
                   | None => metas
                   end in
                 ret (send (Obj (MetasObject metas)) application_json 200))
                (fun e =>
                   ret (send (Obj (ErrorObject (message_of e)))
                          application_json 503))
      end
    else if startsWith (js "/meta/") tail then ret (meta_route tail)
    else ret (send (Str (js "Not found")) (js "text/plain") 404).

End Handler.

End V24.

(** [toLowerCase] on strings of ASCII characters, for the examples. *)
Definition ascii_toLowerCase (s : jsstring) : jsstring := map ascii_lower s.

(* ===================================================================== *)
(** * Properties                                                          *)
(* ===================================================================== *)

(** ** The credential codec                                               *)

Example encode_ab : b64url.encode (js "ab?>") = js "YWI_Pg".
Proof. reflexivity. Qed.

Example decode_ab : b64url.decode (js "YWI_Pg") = js "ab?>".
Proof. reflexivity. Qed.

Ltac split_ifs :=
  repeat match goal with
    | |- context [if ?b then _ else _] => destruct b eqn:?
    | H : context [if ?b then _ else _] |- _ => destruct b eqn:?
    end.

Ltac bool_to_Z :=
  repeat match goal with
    | H : andb _ _ = true |- _ => apply andb_true_iff in H; destruct H
    | H : andb _ _ = false |- _ => apply andb_false_iff in H
    | H : orb _ _ = true |- _ => apply orb_true_iff in H
    | H : orb _ _ = false |- _ => apply orb_false_iff in H; destruct H
    | H : (_ <? _) = true |- _ => apply Z.ltb_lt in H
    | H : (_ <? _) = false |- _ => apply Z.ltb_ge in H
    | H : (_ <=? _) = true |- _ => apply Z.leb_le in H
    | H : (_ <=? _) = false |- _ => apply Z.leb_gt in H
    | H : (_ =? _) = true |- _ => apply Z.eqb_eq in H
    | H : (_ =? _) = false |- _ => apply Z.eqb_neq in H
    end.

Section List_schemes.
Variable A : Type.
Variable P : list A -> Prop.

Lemma list_ind2 :
  P [] -> (forall a, P [a]) ->
  (forall a b l, P l -> P (b :: l) -> P (a :: b :: l)) ->
  forall l, P l.
Proof.
  intros H0 H1 H2 l.
  enough (P l /\ forall a, P (a :: l)) by tauto.
  induction l as [|b l [IH1 IH2]]; split; auto.
Qed.

Lemma list_ind3 :
  P [] -> (forall a, P [a]) -> (forall a b, P [a; b]) ->
  (forall a b c l, P l -> P (a :: b :: c :: l)) ->
  forall l, P l.
Proof.
  intros H0 H1 H2 H3 l.
  enough (P l /\ (forall a, P (a :: l)) /\ forall a b, P (a :: b :: l)) by tauto.
  induction l as [|c l (IH1 & IH2 & IH3)]; repeat split; auto.
Qed.
End List_schemes.

Module Base64_facts.
Import Base64.

Definition sextet (n : Z) : Prop := 0 <= n < 64.

Lemma value_of_char_of n : sextet n -> value_of (char_of n) = Some n.
Proof.
  unfold sextet, value_of, char_of, ch_plus, ch_minus, ch_slash, ch_underscore.
  intros Hn. split_ifs; bool_to_Z; try (f_equal; lia); try lia.
Qed.

Lemma char_of_not_padding n : sextet n -> (char_of n =? ch_eq) = false.
Proof.
  unfold sextet, char_of, ch_plus, ch_slash, ch_eq.
  intros Hn. apply Z.eqb_neq. split_ifs; bool_to_Z; lia.
Qed.

Lemma sextets_in_range bs :
  Forall byte bs -> Forall sextet (sextets_of_bytes bs).
Proof.
  unfold byte, sextet.
  induction bs using list_ind3; intros Hb; cbn [sextets_of_bytes];
    repeat match goal with
      | H : Forall _ (_ :: _) |- _ => inversion H; subst; clear H
      end;
    repeat constructor; auto;
    Z.div_mod_to_equations; lia.
Qed.

Lemma bytes_of_sextets_of_bytes bs :
  Forall byte bs -> bytes_of_sextets (sextets_of_bytes bs) = bs.
Proof.
  unfold byte.
  induction bs using list_ind3; intros Hb;
    cbn [sextets_of_bytes bytes_of_sextets];
    repeat match goal with
      | H : Forall _ (_ :: _) |- _ => inversion H; subst; clear H
      end;
    repeat f_equal; auto;
    Z.div_mod_to_equations; lia.
Qed.

Lemma values_chars ss : Forall sextet ss -> values (map char_of ss) = ss.
Proof.
  induction 1 as [|n ss Hn _ IH]; cbn; [reflexivity|].
  rewrite value_of_char_of, IH by assumption. reflexivity.
Qed.

Lemma until_padding_app s k :
  forallb (fun c => negb (c =? ch_eq)) s = true ->
  until_padding (s ++ repeat ch_eq k) = s.
Proof.
  induction s as [|c s IH]; cbn [app until_padding forallb].
  - destruct k; reflexivity.
  - intros H. apply andb_true_iff in H. destruct H as [Hc Hs].
    apply negb_true_iff in Hc. rewrite Hc, IH by assumption. reflexivity.
Qed.

End Base64_facts.

Module Pad_facts.

Lemma missing_le n : (missing n <= 3)%nat.
Proof.
  unfold missing.
  pose proof (Nat.mod_upper_bound (4 - Nat.modulo n 4) 4 ltac:(lia)). lia.
Qed.

Lemma missing_0 n : Nat.modulo n 4 = 0%nat -> missing n = 0%nat.
Proof. unfold missing. intros ->. reflexivity. Qed.

Lemma missing_S n :
  Nat.modulo n 4 <> 0%nat -> missing n = S (missing (n + 1)).
Proof.
  unfold missing. intros H.
  pose proof (Nat.mod_upper_bound n 4 ltac:(lia)).
  pose proof (Nat.div_mod_eq n 4).
  pose proof (Nat.div_mod_eq (n + 1) 4).
  pose proof (Nat.mod_upper_bound (n + 1) 4 ltac:(lia)).
  pose proof (Nat.div_mod_eq (4 - (n + 1) mod 4) 4).
  pose proof (Nat.mod_upper_bound (4 - (n + 1) mod 4) 4 ltac:(lia)).
  pose proof (Nat.div_mod_eq (4 - n mod 4) 4).
  pose proof (Nat.mod_upper_bound (4 - n mod 4) 4 ltac:(lia)).
  lia.
Qed.

Lemma missing_fills n : Nat.modulo (n + missing n) 4 = 0%nat.
Proof.
  unfold missing.
  pose proof (Nat.mod_upper_bound n 4 ltac:(lia)).
  pose proof (Nat.div_mod_eq n 4).
  pose proof (Nat.div_mod_eq (4 - n mod 4) 4).
  pose proof (Nat.mod_upper_bound (4 - n mod 4) 4 ltac:(lia)).
  pose proof (Nat.div_mod_eq (n + (4 - n mod 4) mod 4) 4).
  pose proof (Nat.mod_upper_bound (n + (4 - n mod 4) mod 4) 4 ltac:(lia)).
  lia.
Qed.

(** The loop appends exactly the missing '=' characters. *)
Lemma pad_appends b : pad b = b ++ repeat ch_eq (missing (length b)).
Proof.
  funelim (pad b).
  - rewrite missing_0 by assumption. cbn. now rewrite app_nil_r.
  - match goal with IH : pad _ = _ ++ _ |- _ => rewrite IH end.
    rewrite length_app. cbn [length].
    rewrite (missing_S (length b)) by assumption.
    rewrite <- app_assoc. reflexivity.
Qed.

End Pad_facts.

Module Utf_facts.

(** A Unicode scalar value: a code point that is not a surrogate. *)
Definition scalar (p : Z) : Prop :=
  0 <= p < 0x110000 /\ ~ (0xD800 <= p <= 0xDFFF).

Ltac arith := Z.div_mod_to_equations; lia.

Lemma start_ascii b : 0 <= b <= 0x7F -> Utf8.start b = (Utf8.Idle, [b]).
Proof.
  intros H. unfold Utf8.start.
  destruct (b <=? 0x7F) eqn:E; [reflexivity|]. apply Z.leb_gt in E. lia.
Qed.

Lemma start_lead2 b :
  0xC2 <= b <= 0xDF ->
  Utf8.start b = (Utf8.Pending (b - 0xC0) 1 0x80 0xBF, []).
Proof.
  intros H. unfold Utf8.start.
  destruct (b <=? 0x7F) eqn:E; [apply Z.leb_le in E; lia|].
  replace ((0xC2 <=? b) && (b <=? 0xDF)) with true; [reflexivity|].
  symmetry. apply andb_true_iff. split; apply Z.leb_le; lia.
Qed.

Lemma start_lead3 b :
  0xE0 <= b <= 0xEF ->
  Utf8.start b =
    (Utf8.Pending (b - 0xE0) 2 (if b =? 0xE0 then 0xA0 else 0x80)
                               (if b =? 0xED then 0x9F else 0xBF), []).
Proof.
  intros H. unfold Utf8.start.
  destruct (b <=? 0x7F) eqn:E; [apply Z.leb_le in E; lia|].
  replace ((0xC2 <=? b) && (b <=? 0xDF)) with false.
  2:{ symmetry. apply andb_false_iff. right. apply Z.leb_gt. lia. }
  replace ((0xE0 <=? b) && (b <=? 0xEF)) with true; [reflexivity|].
  symmetry. apply andb_true_iff. split; apply Z.leb_le; lia.
Qed.

Lemma start_lead4 b :
  0xF0 <= b <= 0xF4 ->
  Utf8.start b =
    (Utf8.Pending (b - 0xF0) 3 (if b =? 0xF0 then 0x90 else 0x80)
                               (if b =? 0xF4 then 0x8F else 0xBF), []).
Proof.
  intros H. unfold Utf8.start.
  destruct (b <=? 0x7F) eqn:E; [apply Z.leb_le in E; lia|].
  replace ((0xC2 <=? b) && (b <=? 0xDF)) with false.
  2:{ symmetry. apply andb_false_iff. right. apply Z.leb_gt. lia. }
  replace ((0xE0 <=? b) && (b <=? 0xEF)) with false.
  2:{ symmetry. apply andb_false_iff. right. apply Z.leb_gt. lia. }
  replace ((0xF0 <=? b) && (b <=? 0xF4)) with true; [reflexivity|].
  symmetry. apply andb_true_iff. split; apply Z.leb_le; lia.
Qed.

Lemma step_last acc lower upper b :
  lower <= b <= upper ->
  Utf8.step (Utf8.Pending acc 1 lower upper) b
  = (Utf8.Idle, [acc * 64 + (b - 0x80)]).
Proof.
  intros H. cbn [Utf8.step].
  replace ((lower <=? b) && (b <=? upper)) with true; [reflexivity|].
  symmetry. apply andb_true_iff. split; apply Z.leb_le; lia.
Qed.

Lemma step_more acc need lower upper b :
  lower <= b <= upper -> need <> 1 ->
  Utf8.step (Utf8.Pending acc need lower upper) b
  = (Utf8.Pending (acc * 64 + (b - 0x80)) (need - 1) 0x80 0xBF, []).
Proof.
  intros H Hn. cbn [Utf8.step].
  replace ((lower <=? b) && (b <=? upper)) with true.
  2:{ symmetry. apply andb_true_iff. split; apply Z.leb_le; lia. }
  destruct (need =? 1) eqn:E; [apply Z.eqb_eq in E; lia | reflexivity].
Qed.

(** The decoder reads back the encoding of a scalar value. *)
Lemma run_encode_scalar p bs :
  scalar p ->
  Utf8.run Utf8.Idle (Utf8.encode_scalar p ++ bs) = p :: Utf8.run Utf8.Idle bs.
Proof.
  intros [Hr Hs]. unfold Utf8.encode_scalar.
  destruct (p <? 0x80) eqn:E1; [|destruct (p <? 0x800) eqn:E2;
    [|destruct (p <? 0x10000) eqn:E3]]; bool_to_Z;
    cbn [app Utf8.run]; cbn [Utf8.step].
  - rewrite start_ascii by lia. reflexivity.
  - rewrite start_lead2 by arith.
    rewrite step_last by arith.
    cbn [app]. f_equal. arith.
  - rewrite start_lead3 by arith.
    rewrite step_more; [|split_ifs; bool_to_Z; arith| lia].
    rewrite step_last by arith.
    cbn [app]. f_equal. arith.
  - rewrite start_lead4 by arith.
    rewrite step_more; [|split_ifs; bool_to_Z; arith| lia].
    rewrite step_more; [|arith| lia].
    rewrite step_last by arith.
    cbn [app]. f_equal. arith.
Qed.

Lemma run_encode ps :
  Forall scalar ps ->
  Utf8.run Utf8.Idle (flat_map Utf8.encode_scalar ps) = ps.
Proof.
  induction 1 as [|p ps Hp _ IH]; cbn [flat_map]; [reflexivity|].
  rewrite run_encode_scalar, IH by assumption. reflexivity.
Qed.

Lemma encode_scalar_bytes p :
  0 <= p < 0x110000 -> Forall byte (Utf8.encode_scalar p).
Proof.
  intros Hp. unfold Utf8.encode_scalar, byte.
  split_ifs; bool_to_Z; repeat constructor; arith.
Qed.

Lemma scalars_cons2 a b s :
  Utf16.scalars (a :: b :: s) =
    if Utf16.is_high a then
      if Utf16.is_low b
      then (0x10000 + (a - 0xD800) * 0x400 + (b - 0xDC00)) :: Utf16.scalars s
      else Utf16.replacement :: Utf16.scalars (b :: s)
    else if Utf16.is_low a then Utf16.replacement :: Utf16.scalars (b :: s)
    else a :: Utf16.scalars (b :: s).
Proof. reflexivity. Qed.

Lemma well_formed_cons2 a b s :
  Utf16.well_formed (a :: b :: s) =
    if Utf16.is_high a then Utf16.is_low b && Utf16.well_formed s
    else negb (Utf16.is_low a) && Utf16.well_formed (b :: s).
Proof. reflexivity. Qed.

Lemma scalars_range s :
  js_string s -> Forall (fun p => 0 <= p < 0x110000) (Utf16.scalars s).
Proof.
  unfold js_string, code_unit.
  induction s as [| | a b s IH1 IH2] using list_ind2; intros Hs.
  - constructor.
  - inversion Hs; subst. cbn. unfold Utf16.replacement.
    split_ifs; repeat constructor; lia.
  - inversion Hs as [|? ? Ha Hs']; subst.
    inversion Hs' as [|? ? Hb Hs'']; subst.
    specialize (IH1 Hs''). specialize (IH2 Hs').
    rewrite scalars_cons2. unfold Utf16.replacement.
    destruct (Utf16.is_high a) eqn:Ea.
    + destruct (Utf16.is_low b) eqn:Eb.
      * constructor; [|assumption].
        unfold Utf16.is_high, Utf16.is_low in *. bool_to_Z. lia.
      * constructor; [lia | assumption].
    + destruct (Utf16.is_low a); (constructor; [lia | assumption]).
Qed.

Lemma encode_bytes s : js_string s -> Forall byte (Utf8.encode s).
Proof.
  intros Hs. unfold Utf8.encode.
  pose proof (scalars_range s Hs) as H.
  induction H as [|p ps Hp _ IH]; cbn [flat_map]; [constructor|].
  apply Forall_app. split; [now apply encode_scalar_bytes | assumption].
Qed.

(** A well-formed string is the UTF-16 form of its scalar values. *)
Lemma scalars_well_formed s :
  js_string s -> Utf16.well_formed s = true ->
  Forall scalar (Utf16.scalars s) /\ Utf16.of_scalars (Utf16.scalars s) = s.
Proof.
  unfold js_string, code_unit, scalar.
  induction s as [| | a b s IH1 IH2] using list_ind2; intros Hs Hw.
  - split; [constructor | reflexivity].
  - inversion Hs; subst. cbn in *.
    destruct (Utf16.is_high a) eqn:Ea; [discriminate|].
    destruct (Utf16.is_low a) eqn:Eb; [discriminate|].
    unfold Utf16.is_high, Utf16.is_low in *.
    split.
    + repeat constructor; bool_to_Z; lia.
    + cbn. unfold Utf16.units_of_scalar.
      destruct (a <? 0x10000) eqn:E; [reflexivity | bool_to_Z; lia].
  - inversion Hs as [|? ? Ha Hs']; subst.
    inversion Hs' as [|? ? Hb Hs'']; subst.
    rewrite scalars_cons2. rewrite well_formed_cons2 in Hw.
    destruct (Utf16.is_high a) eqn:Ea.
    + apply andb_true_iff in Hw. destruct Hw as [Eb Hw]. rewrite Eb.
      destruct (IH1 Hs'' Hw) as [F E].
      unfold Utf16.is_high, Utf16.is_low in *. bool_to_Z.
      split.
      * constructor; [lia | assumption].
      * unfold Utf16.of_scalars in *. cbn [flat_map]. rewrite E.
        unfold Utf16.units_of_scalar.
        destruct (_ <? 0x10000) eqn:E'; [bool_to_Z; lia|].
        cbn [app]. f_equal; [arith | f_equal; arith].
    + apply andb_true_iff in Hw. destruct Hw as [Ea' Hw].
      apply negb_true_iff in Ea'. rewrite Ea'.
      destruct (IH2 Hs' Hw) as [F E].
      unfold Utf16.is_high, Utf16.is_low in *. bool_to_Z.
      split.
      * constructor; [lia | assumption].
      * unfold Utf16.of_scalars in *. cbn [flat_map]. rewrite E.
        unfold Utf16.units_of_scalar.
        destruct (a <? 0x10000) eqn:E'; [reflexivity | bool_to_Z; lia].
Qed.

(** UTF-8 round trip on well-formed strings. *)
Lemma decode_encode s :
  js_string s -> Utf16.well_formed s = true ->
  Utf8.decode (Utf8.encode s) = s.
Proof.
  intros Hs Hw. destruct (scalars_well_formed s Hs Hw) as [F E].
  unfold Utf8.decode, Utf8.encode. rewrite run_encode by assumption.
  exact E.
Qed.

End Utf_facts.

Module b64url_facts.
Import Base64_facts.

(** The two substitutions of [b64url.encode] and of [b64url.decode]. *)
Definition to_url (s : jsstring) : jsstring :=
  replace_all ch_slash ch_underscore (replace_all ch_plus ch_minus s).
Definition to_std (s : jsstring) : jsstring :=
  replace_all ch_underscore ch_slash (replace_all ch_minus ch_plus s).

Definition no_padding (s : jsstring) : bool :=
  forallb (fun c => negb (c =? ch_eq)) s.

Lemma to_url_app s t : to_url (s ++ t) = to_url s ++ to_url t.
Proof. unfold to_url, replace_all. now rewrite !map_app. Qed.

Lemma to_url_padding k : to_url (repeat ch_eq k) = repeat ch_eq k.
Proof.
  unfold to_url, replace_all. induction k as [|k IH]; cbn in *; [reflexivity|].
  now rewrite IH.
Qed.

Lemma to_std_to_url_chars ss :
  Forall sextet ss -> to_std (to_url (map Base64.char_of ss)) = map Base64.char_of ss.
Proof.
  unfold to_std, to_url, replace_all. rewrite !map_map.
  induction 1 as [|n ss Hn _ IH]; cbn [map]; [reflexivity|].
  rewrite IH. f_equal.
  unfold sextet, Base64.char_of, ch_plus, ch_minus, ch_slash, ch_underscore in *.
  split_ifs; bool_to_Z; lia.
Qed.

Lemma to_url_chars_no_padding ss :
  Forall sextet ss -> no_padding (to_url (map Base64.char_of ss)) = true.
Proof.
  unfold no_padding, to_url, replace_all. rewrite !map_map.
  induction 1 as [|n ss Hn _ IH]; cbn [map forallb]; [reflexivity|].
  rewrite IH, andb_true_r. apply negb_true_iff, Z.eqb_neq.
  unfold sextet, Base64.char_of, ch_plus, ch_minus, ch_slash, ch_underscore, ch_eq in *.
  split_ifs; bool_to_Z; lia.
Qed.

Lemma chars_no_padding ss :
  Forall sextet ss -> no_padding (map Base64.char_of ss) = true.
Proof.
  unfold no_padding.
  induction 1 as [|n ss Hn _ IH]; cbn [map forallb]; [reflexivity|].
  rewrite IH, andb_true_r, char_of_not_padding by assumption. reflexivity.
Qed.

Lemma all_padding k : forallb (Z.eqb ch_eq) (repeat ch_eq k) = true.
Proof. induction k; cbn in *; auto. Qed.

Lemma strip_padding_app s k :
  no_padding s = true -> strip_padding (s ++ repeat ch_eq k) = s.
Proof.
  unfold no_padding.
  induction s as [|c s IH]; intros H.
  - cbn [app]. destruct k as [|k]; [reflexivity|].
    change (repeat ch_eq (S k)) with (ch_eq :: repeat ch_eq k).
    cbn [strip_padding].
    change (forallb (Z.eqb ch_eq) (ch_eq :: repeat ch_eq k))
      with (forallb (Z.eqb ch_eq) (repeat ch_eq (S k))).
    now rewrite all_padding.
  - cbn [forallb] in H. apply andb_true_iff in H. destruct H as [Hc Hs].
    apply negb_true_iff in Hc. rewrite Z.eqb_sym in Hc.
    cbn [app strip_padding forallb]. rewrite Hc. cbn [andb].
    now rewrite IH.
Qed.

(** The characters of a credential segment: letters, digits, '-', '_'. *)
Definition url_safe (c : Z) : Prop :=
  65 <= c <= 90 \/ 97 <= c <= 122 \/ 48 <= c <= 57 \/ c = ch_minus \/ c = ch_underscore.

Lemma to_url_chars_safe ss :
  Forall sextet ss -> Forall url_safe (to_url (map Base64.char_of ss)).
Proof.
  unfold to_url, replace_all. rewrite !map_map.
  induction 1 as [|n ss Hn _ IH]; cbn [map]; constructor; [|assumption].
  unfold url_safe, sextet, Base64.char_of, ch_plus, ch_minus, ch_slash,
    ch_underscore in *.
  split_ifs; bool_to_Z; lia.
Qed.

(** [encode] gives the base64 text of the UTF-8 bytes in the URL-safe
    alphabet and without padding: no '+', '/', '=' or '.' is left. *)
Lemma encode_url_safe x :
  js_string x ->
  b64url.encode x
  = to_url (map Base64.char_of (Base64.sextets_of_bytes (Utf8.encode x)))
  /\ Forall url_safe (b64url.encode x).
Proof.
  intros Hx.
  pose proof (sextets_in_range _ (Utf_facts.encode_bytes x Hx)) as Hs.
  assert (E : b64url.encode x
              = to_url (map Base64.char_of (Base64.sextets_of_bytes (Utf8.encode x)))).
  { unfold b64url.encode, Base64.encode.
    fold (to_url (map Base64.char_of (Base64.sextets_of_bytes (Utf8.encode x))
                  ++ repeat ch_eq (Base64.padding_of (length (Utf8.encode x))))).
    rewrite to_url_app, to_url_padding.
    now apply strip_padding_app, to_url_chars_no_padding. }
  split; [exact E|]. rewrite E. now apply to_url_chars_safe.
Qed.

(** What [encode] does to the bytes is undone by [decode]. *)
Lemma decode_bytes bs :
  Forall byte bs ->
  Base64.decode (pad (to_std (strip_padding (to_url (Base64.encode bs))))) = bs.
Proof.
  intros Hb. pose proof (sextets_in_range bs Hb) as Hs.
  unfold Base64.encode.
  rewrite to_url_app, to_url_padding.
  rewrite strip_padding_app by now apply to_url_chars_no_padding.
  rewrite to_std_to_url_chars by assumption.
  rewrite Pad_facts.pad_appends.
  unfold Base64.decode.
  rewrite until_padding_app by now apply chars_no_padding.
  rewrite values_chars by assumption.
  now apply bytes_of_sextets_of_bytes.
Qed.

(** The codec is the identity on every well-formed string. *)
Lemma decode_encode_well_formed x :
  js_string x -> Utf16.well_formed x = true ->
  b64url.decode (b64url.encode x) = x.
Proof.
  intros Hx Hw. unfold b64url.decode, b64url.encode.
  fold (to_url (Base64.encode (Utf8.encode x))).
  fold (to_std (strip_padding (to_url (Base64.encode (Utf8.encode x))))).
  cbv zeta.
  rewrite decode_bytes by now apply Utf_facts.encode_bytes.
  now apply Utf_facts.decode_encode.
Qed.

(** The value of a [Cookie] header as Node hands it to the program: one
    code unit per byte of the header line, none of them NUL. *)
Definition cookie_header_value (x : jsstring) : Prop :=
  Forall (fun c => 1 <= c <= 255) x.

Lemma cookie_header_value_well_formed x :
  cookie_header_value x -> js_string x /\ Utf16.well_formed x = true.
Proof.
  unfold cookie_header_value, js_string, code_unit.
  induction 1 as [|c x Hc _ [IH1 IH2]]; [split; [constructor | reflexivity]|].
  split; [constructor; [lia | assumption]|].
  cbn [Utf16.well_formed].
  replace (Utf16.is_high c) with false.
  2:{ symmetry. unfold Utf16.is_high. apply andb_false_iff. left.
      apply Z.leb_gt. lia. }
  replace (Utf16.is_low c) with false.
  2:{ symmetry. unfold Utf16.is_low. apply andb_false_iff. left.
      apply Z.leb_gt. lia. }
  exact IH2.
Qed.

(** The substitutions of the codec, character by character: '+' and '/'
    of the standard alphabet against '-' and '_'. *)
Definition url_char (c : Z) : Z := if c =? 43 then 45 else if c =? 47 then 95 else c.
Definition std_char (c : Z) : Z := if c =? 45 then 43 else if c =? 95 then 47 else c.

Lemma to_url_map s : to_url s = map url_char s.
Proof.
  unfold to_url, replace_all. rewrite map_map. apply map_ext. intros c.
  unfold url_char, ch_plus, ch_minus, ch_slash, ch_underscore.
  split_ifs; bool_to_Z; lia.
Qed.

Lemma to_std_map s : to_std s = map std_char s.
Proof.
  unfold to_std, replace_all. rewrite map_map. apply map_ext. intros c.
  unfold std_char, ch_plus, ch_minus, ch_slash, ch_underscore.
  split_ifs; bool_to_Z; lia.
Qed.

Lemma padding_of_le n : (Base64.padding_of n <= 2)%nat.
Proof.
  unfold Base64.padding_of. destruct (Nat.modulo n 3) as [|[|[|m]]]; lia.
Qed.

Lemma missing_add4 m : missing (4 + m) = missing m.
Proof.
  unfold missing. replace (4 + m)%nat with (m + 1 * 4)%nat by lia.
  now rewrite Nat.Div0.mod_add.
Qed.

Lemma padding_of_add3 n : Base64.padding_of (3 + n) = Base64.padding_of n.
Proof.
  unfold Base64.padding_of. replace (3 + n)%nat with (n + 1 * 3)%nat by lia.
  now rewrite Nat.Div0.mod_add.
Qed.

(** The padding that [Base64.encode] writes is what the text lacks to a
    multiple of four characters. *)
Lemma missing_is_padding bs :
  missing (length (map Base64.char_of (Base64.sextets_of_bytes bs)))
  = Base64.padding_of (length bs).
Proof.
  rewrite length_map.
  induction bs as [| | |a b c bs IH] using list_ind3; try reflexivity.
  change (length (Base64.sextets_of_bytes (a :: b :: c :: bs)))
    with (4 + length (Base64.sextets_of_bytes bs))%nat.
  change (length (a :: b :: c :: bs)) with (3 + length bs)%nat.
  now rewrite missing_add4, padding_of_add3.
Qed.

(** C1. The credential codec round-trips every string that can be the
    value of an HTTP [Cookie] header (bytes other than NUL, one code unit
    each).  With the base64 text of the UTF-8 bytes of [x] written as a
    body without '=' followed by at most two '=': [b64url.encode x] is the
    body with '+' turned into '-' and '/' into '_' and the '=' taken off, so
    that none of '+', '/' and '=' is left in it; [b64url.decode] turns '-'
    and '_' back, which gives the body, its loop puts the same '=' back,
    which gives the base64 text, and decoding that text gives exactly [x]:
    [b64url.decode (b64url.encode x) = x]. *)
Theorem b64url_roundtrip (x : jsstring) :
  cookie_header_value x ->
  exists body k,
    Base64.encode (Utf8.encode x) = body ++ repeat 61 k
    /\ (k <= 2)%nat
    /\ Forall (fun c => c <> 61) body
    /\ b64url.encode x = map url_char body
    /\ Forall (fun c => c <> 43 /\ c <> 47 /\ c <> 61) (b64url.encode x)
    /\ map std_char (b64url.encode x) = body
    /\ pad (map std_char (b64url.encode x)) = body ++ repeat 61 k
    /\ b64url.decode (b64url.encode x)
       = Utf8.decode (Base64.decode (body ++ repeat 61 k))
    /\ b64url.decode (b64url.encode x) = x.
Proof.
  intros Hx. destruct (cookie_header_value_well_formed x Hx) as [Hs Hw].
  pose proof (sextets_in_range _ (Utf_facts.encode_bytes x Hs)) as Hsx.
  destruct (encode_url_safe x Hs) as [Eenc Hsafe].
  set (body := map Base64.char_of (Base64.sextets_of_bytes (Utf8.encode x))) in *.
  set (k := Base64.padding_of (length (Utf8.encode x))).
  assert (Hstd : map std_char (b64url.encode x) = body).
  { rewrite <- to_std_map, Eenc. now apply to_std_to_url_chars. }
  assert (Hpad : pad (map std_char (b64url.encode x)) = body ++ repeat 61 k).
  { rewrite Hstd, Pad_facts.pad_appends. unfold body, k.
    now rewrite missing_is_padding. }
  assert (Hdec : b64url.decode (b64url.encode x)
                 = Utf8.decode (Base64.decode (body ++ repeat 61 k))).
  { rewrite <- Hpad, <- to_std_map. reflexivity. }
  exists body, k. repeat split.
  - apply padding_of_le.
  - pose proof (chars_no_padding _ Hsx) as Hn. fold body in Hn.
    unfold no_padding in Hn. rewrite forallb_forall in Hn.
    apply Forall_forall. intros c Hc E. specialize (Hn c Hc). subst c.
    discriminate.
  - rewrite Eenc. apply to_url_map.
  - revert Hsafe. apply Forall_impl. intros c.
    unfold url_safe, ch_minus, ch_underscore. lia.
  - exact Hstd.
  - exact Hpad.
  - exact Hdec.
  - now apply decode_encode_well_formed.
Qed.

Lemma b64url_roundtrip_witness :
  cookie_header_value (js "session-id=139-42; uu=a+b/c?>~")
  /\ b64url.encode (js "session-id=139-42; uu=a+b/c?>~")
     = js "c2Vzc2lvbi1pZD0xMzktNDI7IHV1PWErYi9jPz5-"
  /\ b64url.encode (js "ab?>") = js "YWI_Pg"
  /\ exists body k,
       Base64.encode (Utf8.encode (js "ab?>")) = body ++ repeat 61 k
       /\ b64url.encode (js "ab?>") = map url_char body
       /\ b64url.decode (b64url.encode (js "ab?>")) = js "ab?>".
Proof.
  assert (H : cookie_header_value (js "session-id=139-42; uu=a+b/c?>~")).
  { unfold cookie_header_value. cbn. repeat constructor; lia. }
  assert (H' : cookie_header_value (js "ab?>")).
  { unfold cookie_header_value. cbn. repeat constructor; lia. }
  split; [exact H|]. split; [reflexivity|]. split; [reflexivity|].
  destruct (b64url_roundtrip _ H') as (body & k & E1 & _ & _ & E2 & _ & _ & _ & _ & E3).
  exists body, k. repeat split; assumption.
Defined.

End b64url_facts.

(* ===================================================================== *)
(** ** The monad and the routes                                           *)
(* ===================================================================== *)

(** A computation that gives a value whatever calls came before. *)
Definition returns {A} (m : M A) : Prop :=
  forall t, exists a t', m t = (Returned a, t').

Lemma returns_ret {A} (a : A) : returns (ret a).
Proof. intros t. exists a, t. reflexivity. Qed.

Lemma returns_bind {A B} (m : M A) (k : A -> M B) :
  returns m -> (forall a, returns (k a)) -> returns (m <- m ;; k m).
Proof.
  intros Hm Hk t. destruct (Hm t) as (a & t' & E).
  destruct (Hk a t') as (b & t'' & E').
  exists b, t''. unfold bind. now rewrite E.
Qed.

Lemma returns_try_catch {A} (m : M A) (h : exn -> M A) :
  (forall e, returns (h e)) -> returns (try_catch m h).
Proof.
  intros Hh t. unfold try_catch.
  destruct (m t) as [[a|e] t']; [now exists a, t' | apply Hh].
Qed.

Create HintDb returns.
#[local] Hint Resolve returns_ret returns_try_catch : returns.

Lemma str_eqb_eq a b : str_eqb a b = true <-> a = b.
Proof. unfold str_eqb. destruct (list_eq_dec Z.eq_dec a b); split; congruence. Qed.

Lemma str_eqb_refl a : str_eqb a a = true.
Proof. now apply str_eqb_eq. Qed.

Lemma startsWith_app p s : startsWith p s = true <-> exists r, s = p ++ r.
Proof.
  revert s. induction p as [|a p IH]; intros s; cbn.
  - split; [intros _; now exists s | reflexivity].
  - destruct s as [|b s]; [split; [discriminate | intros [r E]; discriminate]|].
    rewrite andb_true_iff, Z.eqb_eq, IH. split.
    + intros [-> [r ->]]. now exists r.
    + intros [r E]. injection E as -> ->. split; [reflexivity | now exists r].
Qed.

Lemma split_nonempty sep s : split sep s <> [].
Proof.
  destruct s as [|c r]; cbn; [discriminate|].
  destruct (c =? sep); [discriminate|]. destruct (split sep r); discriminate.
Qed.

(** A word without the separator, followed by the separator, is the first
    piece. *)
Lemma split_word sep w r :
  includes_char sep w = false ->
  split sep (w ++ sep :: r) = w :: split sep r.
Proof.
  unfold includes_char. induction w as [|c w IH]; cbn [app existsb split].
  - intros _. now rewrite Z.eqb_refl.
  - intros H. apply orb_false_iff in H. destruct H as [Hc Hw].
    rewrite Z.eqb_sym in Hc. rewrite Hc, IH by assumption. reflexivity.
Qed.

Lemma split_last sep w :
  includes_char sep w = false -> split sep w = [w].
Proof.
  unfold includes_char. induction w as [|c w IH]; cbn [existsb split].
  - reflexivity.
  - intros H. apply orb_false_iff in H. destruct H as [Hc Hw].
    rewrite Z.eqb_sym in Hc. rewrite Hc, IH by assumption. reflexivity.
Qed.

(** A path that opens with [/catalog/] has [catalog] for its credential
    segment: without a credential the route is never a catalog route. *)
Lemma catalog_taken_for_hash p :
  startsWith (js "/catalog/") p = true -> hash_of p = js "catalog".
Proof.
  intros H. apply startsWith_app in H. destruct H as [r ->].
  unfold hash_of, segments.
  change (js "/catalog/" ++ r) with ([] ++ ch_slash :: js "catalog" ++ ch_slash :: r).
  rewrite split_word by reflexivity.
  rewrite split_word by reflexivity.
  reflexivity.
Qed.

Lemma no_catalog_route_without_hash p :
  hash_of p = [] -> startsWith (js "/catalog/") (tail_of p) = false.
Proof.
  intros H. unfold tail_of. rewrite H. cbn [truthy].
  destruct (startsWith (js "/catalog/") p) eqn:E; [|reflexivity].
  apply catalog_taken_for_hash in E. rewrite E in H. discriminate.
Qed.

Module Safety.
Import b64url_facts.

Lemma inject_base genres :
  exists cats,
    map_outcome (V24.inject_options genres) (Manifest.catalogs V24.BASE_MANIFEST)
    = Returned cats.
Proof. eexists. reflexivity. Qed.

Lemma V20_handler_returns net req : returns (V20.handler net req).
Proof.
  unfold V20.handler.
  repeat match goal with
    | |- returns (if ?b then _ else _) => destruct b
    end; auto with returns.
Qed.

Lemma V24_handler_returns lc net req :
  returns (V24.handler lc net req)
  \/ (forall t, V24.handler lc net req t = (Thrown (TypeError (js "startsWith")), t))
     /\ startsWith (js "/catalog/") (tail_of (pathname req)) = true
     /\ nth_error (split ch_slash (tail_of (pathname req))) 3 = None.
Proof.
  unfold V24.handler.
  destruct (str_eqb (method req) (js "OPTIONS")); [left; auto with returns|].
  destruct (_ || _); [left; auto with returns|].
  destruct (str_eqb _ (js "/manifest.json")).
  { left. apply returns_bind.
    - destruct (truthy _); auto with returns.
    - intros genres. destruct (inject_base genres) as [cats E].
      rewrite E. intros t. do 2 eexists. reflexivity. }
  destruct (startsWith (js "/catalog/") (tail_of (pathname req))) eqn:Ec.
  { destruct (nth_error _ 3) as [id|] eqn:Eid.
    - left.
      repeat match goal with
        | |- returns (if ?b then _ else _) => destruct b
        end; auto with returns.
    - right. repeat split; reflexivity. }
  left. destruct (startsWith (js "/meta/") _); auto with returns.
Qed.

(** C9. [b64url.decode] ends on every input: its loop appends at most
    three '=' (as many as the length lacks to a multiple of four), and the
    lenient decoders then give a string.  No credential segment makes a
    handler throw: the handler of revision 2.0.0 always responds, and the
    only exception that leaves the handler of revision 2.4.0 is the
    [TypeError] of a catalog path without a catalog id. *)
Theorem decode_total (b : jsstring) :
  (exists k, (k <= 3)%nat
     /\ pad (to_std b) = to_std b ++ repeat ch_eq k
     /\ Nat.modulo (length (pad (to_std b))) 4 = 0%nat
     /\ b64url.decode b
        = Utf8.decode (Base64.decode (to_std b ++ repeat ch_eq k)))
  /\ (forall net req, returns (V20.handler net req))
  /\ (forall lc net req,
        returns (V24.handler lc net req)
        \/ (forall t, V24.handler lc net req t
                      = (Thrown (TypeError (js "startsWith")), t))
           /\ nth_error (split ch_slash (tail_of (pathname req))) 3 = None).
Proof.
  split; [|split].
  - exists (missing (length (to_std b))).
    rewrite Pad_facts.pad_appends.
    repeat split.
    + apply Pad_facts.missing_le.
    + rewrite length_app, repeat_length. apply Pad_facts.missing_fills.
    + unfold b64url.decode. cbv zeta. fold (to_std b).
      now rewrite Pad_facts.pad_appends.
  - apply V20_handler_returns.
  - intros lc net req.
    destruct (V24_handler_returns lc net req) as [H|(H & _ & H')]; auto.
Qed.

End Safety.

(* ===================================================================== *)
(** ** Routes without a credential or without a catalog id                *)
(* ===================================================================== *)

Lemma catalog_tail_routes tail :
  startsWith (js "/catalog/") tail = true ->
  str_eqb tail (js "/") || str_eqb tail (js "/index.html") = false
  /\ str_eqb tail (js "/manifest.json") = false.
Proof.
  intros H. apply startsWith_app in H. destruct H as [r ->].
  split; reflexivity.
Qed.

Definition GET (path : string) : request :=
  {| method := js "GET"; pathname := js path |}.

Definition unknown_catalog : response :=
  send (Obj (ErrorObject (Said (js "Unknown catalog")))) application_json 404.

Definition not_found : response :=
  send (Str (js "Not found")) (js "text/plain") 404.

Module Routes.

(** C3. A catalog path without a credential segment,
    [/catalog/movie/imdb-top-picks.json], is not answered 400: both
    handlers take [catalog] for the credential, find no route for the
    tail [/movie/imdb-top-picks.json], and answer 404 "Not found" as plain
    text, without a call to the endpoint. *)
Theorem catalog_without_credential (lc : jsstring -> jsstring) (net : endpoint) :
  hash_of (js "/catalog/movie/imdb-top-picks.json") = js "catalog"
  /\ tail_of (js "/catalog/movie/imdb-top-picks.json")
     = js "/movie/imdb-top-picks.json"
  /\ V24.handler lc net (GET "/catalog/movie/imdb-top-picks.json") []
     = (Returned not_found, [])
  /\ V20.handler net (GET "/catalog/movie/imdb-top-picks.json") []
     = (Returned not_found, []).
Proof. repeat split; reflexivity. Qed.

(** The answer 400 for a missing cookie is given when the credential
    segment is there and decodes to the empty string. *)
Example catalog_with_empty_cookie lc net :
  cookie_of (js "a") = []
  /\ V24.handler lc net (GET "/a/catalog/movie/imdb-top-picks.json") []
     = (Returned (send (Obj (ErrorObject (Said missing_cookie)))
                    application_json 400), []).
Proof. split; reflexivity. Qed.

(** Whatever the credential, a catalog tail without a fourth piece makes
    the handler of revision 2.4.0 throw and the one of revision 2.0.0 answer
    404. *)
Lemma no_catalog_id lc net req t :
  str_eqb (method req) (js "OPTIONS") = false ->
  startsWith (js "/catalog/") (tail_of (pathname req)) = true ->
  nth_error (split ch_slash (tail_of (pathname req))) 3 = None ->
  V24.handler lc net req t = (Thrown (TypeError (js "startsWith")), t)
  /\ V20.handler net req t = (Returned unknown_catalog, t).
Proof.
  intros Hm Ht Hid.
  destruct (catalog_tail_routes _ Ht) as (H1 & H2).
  unfold V24.handler, V20.handler. rewrite Hm, H1, H2, Ht, Hid.
  split; reflexivity.
Qed.

(** C10. On the path [/YQ/catalog/movie], whose tail [/catalog/movie] has
    no catalog id, the handler of revision 2.4.0 gives no response: it
    throws the [TypeError] of [id.startsWith] on an undefined [id].  The
    handler of revision 2.0.0 answers 404 "Unknown catalog" there. *)
Theorem catalog_without_id (lc : jsstring -> jsstring) (net : endpoint) :
  tail_of (js "/YQ/catalog/movie") = js "/catalog/movie"
  /\ nth_error (split ch_slash (js "/catalog/movie")) 3 = None
  /\ V24.handler lc net (GET "/YQ/catalog/movie") []
     = (Thrown (TypeError (js "startsWith")), [])
  /\ V20.handler net (GET "/YQ/catalog/movie") []
     = (Returned unknown_catalog, []).
Proof. repeat split; reflexivity. Qed.

End Routes.

(* ===================================================================== *)
(** ** The meta route                                                     *)
(* ===================================================================== *)

Module Meta_route.

(** "tt" followed by one or more digits. *)
Definition tt_digits (s : jsstring) : Prop :=
  exists ds, ds <> [] /\ Forall (fun c => 48 <= c <= 57) ds /\ s = js "tt" ++ ds.

Lemma all_digits ds :
  forallb is_digit ds = true <-> Forall (fun c => 48 <= c <= 57) ds.
Proof.
  rewrite forallb_forall, Forall_forall. unfold is_digit.
  split; intros H c Hc; specialize (H c Hc).
  - apply andb_true_iff in H. destruct H as [H1 H2].
    apply Z.leb_le in H1. apply Z.leb_le in H2. lia.
  - apply andb_true_iff. split; apply Z.leb_le; lia.
Qed.

Lemma is_tt_id_spec s : is_tt_id s = true <-> tt_digits s.
Proof.
  unfold tt_digits. split.
  - intros H. destruct s as [|a [|b [|d ds]]]; try discriminate.
    cbn [is_tt_id] in H. apply andb_true_iff in H. destruct H as [H Hd].
    apply andb_true_iff in H. destruct H as [Ha Hb].
    apply Z.eqb_eq in Ha. apply Z.eqb_eq in Hb. subst a b.
    exists (d :: ds). repeat split; [discriminate | now apply all_digits].
  - intros (ds & Hne & Hd & ->). destruct ds as [|d ds]; [congruence|].
    change (js "tt" ++ d :: ds) with (116 :: 116 :: d :: ds).
    cbn [is_tt_id]. rewrite !Z.eqb_refl. now apply all_digits.
Qed.

(** The suffix [.json] is what [strip_json] removes. *)
Lemma strip_json_app s : strip_json (s ++ js ".json") = s.
Proof.
  unfold strip_json. rewrite length_app.
  change (length (js ".json")) with 5%nat.
  replace (length s + 5 - 5)%nat with (length s) by lia.
  replace (5 <=? length s + 5)%nat with true
    by (symmetry; apply Nat.leb_le; lia).
  rewrite skipn_app, Nat.sub_diag, skipn_all. cbn [app skipn andb].
  rewrite str_eqb_refl.
  rewrite firstn_app, Nat.sub_diag, firstn_all. cbn [firstn].
  now rewrite app_nil_r.
Qed.

Definition placeholder (type : option jsstring) (imdbId : jsstring) : StubMeta :=
  {| stub_id := imdbId;
     stub_type := type;
     stub_name := js "IMDb title " ++ imdbId;
     stub_poster := js "https://img.omdbapi.com/?i=" ++ imdbId
                    ++ js "&apikey=YOUR_OMDB_API_KEY" |}.

Definition bad_id : response :=
  send (Obj (ErrorObject (Said (js "Bad IMDb id")))) application_json 400.


Lemma not_options req :
  method req <> js "OPTIONS" -> str_eqb (method req) (js "OPTIONS") = false.
Proof.
  intros H. destruct (str_eqb _ _) eqn:E; [|reflexivity].
  apply str_eqb_eq in E. contradiction.
Qed.



Example meta_abc123 lc net :
  V24.handler lc net (GET "/YQ/meta/movie/abc123.json") [] = (Returned bad_id, [])
  /\ V20.handler net (GET "/YQ/meta/movie/abc123.json") [] = (Returned bad_id, []).
Proof. split; reflexivity. Qed.

End Meta_route.

(* ===================================================================== *)
(** ** The upstream fetch                                                 *)
(* ===================================================================== *)

Module Upstream.

(** [pat] occurs in [s] up to the case of ASCII letters. *)
Definition contains_ci (pat s : jsstring) : Prop :=
  exists pre mid post,
    s = pre ++ mid ++ post /\ map ascii_lower mid = map ascii_lower pat.

Definition lower_case (pat : jsstring) : Prop := map ascii_lower pat = pat.

Lemma matches_here_spec pat s :
  matches_here pat s = true <->
  exists mid post, s = mid ++ post /\ map ascii_lower mid = pat.
Proof.
  revert s. induction pat as [|p pat IH]; intros s; cbn [matches_here].
  - split; [intros _; now exists [], s | reflexivity].
  - destruct s as [|c s].
    + split; [discriminate|]. intros (mid & post & E & Hm).
      destruct mid; discriminate.
    + rewrite andb_true_iff, Z.eqb_eq, IH. split.
      * intros (Hc & mid & post & -> & Hm). exists (c :: mid), post.
        cbn. now rewrite Hc, Hm.
      * intros (mid & post & E & Hm). destruct mid as [|c' mid]; [discriminate|].
        cbn in E, Hm. injection E as -> ->. injection Hm as Hc Hm.
        split; [assumption | now exists mid, post].
Qed.

Lemma match_i_spec pat s :
  lower_case pat -> (match_i pat s = true <-> contains_ci pat s).
Proof.
  intros Hp. unfold contains_ci. rewrite Hp.
  induction s as [|c s IH].
  - cbn [match_i]. rewrite orb_false_r, matches_here_spec. split.
    + intros (mid & post & E & Hm). now exists [], mid, post.
    + intros (pre & mid & post & E & Hm). destruct pre; [|discriminate].
      now exists mid, post.
  - cbn [match_i]. rewrite orb_true_iff, matches_here_spec, IH. split.
    + intros [(mid & post & E & Hm) | (pre & mid & post & E & Hm)].
      * now exists [], mid, post.
      * exists (c :: pre), mid, post. cbn. now rewrite E.
    + intros (pre & mid & post & E & Hm). destruct pre as [|c' pre].
      * left. now exists mid, post.
      * right. cbn in E. injection E as -> ->. now exists pre, mid, post.
Qed.

(** The two messages of [upstream_errors] are different strings. *)
Lemma generic_is_not_login msg : js "IMDb GraphQL error: " ++ msg <> login_required.
Proof. discriminate. Qed.

(** [errors.map(e => e.message).join(', ')] *)
Definition joined (errors : list Gql.Error) : jsstring :=
  join (js ", ") (map (fun e => or_empty (Gql.message e)) errors).

(** C2. When the answer of the endpoint has no edge list or an empty one
    and carries a non-empty [errors] array, [fetchImdbData] (and [scrape]
    of revision 2.0.0) throws after its one call.  The message is "Login
    required or cookie expired." exactly when the messages joined with ", "
    contain "auth" or "login" in any case; otherwise it is "IMDb GraphQL
    error: " followed by the joined messages. *)
Theorem errors_without_edges net cookie t data errors :
  net cookie = Resolved data ->
  edges_of data = None \/ edges_of data = Some [] ->
  data ?. Gql.errors = Some errors ->
  errors <> [] ->
  exists m,
    V24.fetchImdbData net cookie t = (Thrown (Error m), t ++ [cookie])
    /\ V20.scrape net cookie t = (Thrown (Error m), t ++ [cookie])
    /\ (m = login_required <->
        contains_ci (js "auth") (joined errors)
        \/ contains_ci (js "login") (joined errors))
    /\ (m <> login_required -> m = js "IMDb GraphQL error: " ++ joined errors).
Proof.
  intros Hnet Hedges Herr _.
  assert (He : or_nil (edges_of data) = []) by (destruct Hedges as [-> | ->]; reflexivity).
  unfold V24.fetchImdbData, V20.scrape, axios_post. rewrite Hnet, He, Herr.
  unfold upstream_errors. fold (joined errors).
  pose proof (match_i_spec (js "auth") (joined errors) eq_refl) as Ha.
  pose proof (match_i_spec (js "login") (joined errors) eq_refl) as Hl.
  destruct (match_i (js "auth") (joined errors)) eqn:Ea;
    [|destruct (match_i (js "login") (joined errors)) eqn:El]; cbn [orb].
  - exists login_required. repeat split; try congruence.
    intros _. left. now apply Ha.
  - exists login_required. repeat split; try congruence.
    intros _. right. now apply Hl.
  - exists (js "IMDb GraphQL error: " ++ joined errors). repeat split; try congruence.
    + intros H. now apply generic_is_not_login in H.
    + intros [H | H]; [apply Ha in H | apply Hl in H]; discriminate.
Qed.

Definition authentication_required : Gql.Payload :=
  {| Gql.data := None;
     Gql.errors := Some [ {| Gql.message := Some (js "Authentication required") |} ] |}.

Definition one_error : list Gql.Error :=
  [ {| Gql.message := Some (js "Authentication required") |} ].

Lemma errors_without_edges_witness :
  ((fun _ : jsstring => Resolved (Some authentication_required)) (js "a=b")
   = Resolved (Some authentication_required)
   /\ (edges_of (Some authentication_required) = None
       \/ edges_of (Some authentication_required) = Some [])
   /\ Some authentication_required ?. Gql.errors = Some one_error
   /\ one_error <> [])
  /\ exists m,
       V24.fetchImdbData (fun _ => Resolved (Some authentication_required)) (js "a=b") []
       = (Thrown (Error m), [js "a=b"])
       /\ m = login_required.
Proof.
  assert (H1 : (fun _ : jsstring => Resolved (Some authentication_required)) (js "a=b")
               = Resolved (Some authentication_required)) by reflexivity.
  assert (H2 : edges_of (Some authentication_required) = None
               \/ edges_of (Some authentication_required) = Some [])
    by (left; reflexivity).
  assert (H3 : Some authentication_required ?. Gql.errors = Some one_error)
    by reflexivity.
  assert (H4 : one_error <> []) by discriminate.
  split; [repeat split; assumption|].
  destruct (errors_without_edges _ (js "a=b") [] _ _ H1 H2 H3 H4)
    as (m & H24 & _ & Hm & _).
  exists m. split; [exact H24|].
  vm_compute in H24. injection H24 as <-. reflexivity.
Defined.

Example rate_limited net cookie :
  net cookie = Resolved (Some {| Gql.data := None;
                                 Gql.errors := Some [ {| Gql.message := Some (js "Rate limited") |};
                                                      {| Gql.message := Some (js "Try later") |} ] |}) ->
  V24.fetchImdbData net cookie []
  = (Thrown (Error (js "IMDb GraphQL error: Rate limited, Try later")), [cookie]).
Proof. intros H. unfold V24.fetchImdbData, axios_post. rewrite H. reflexivity. Qed.

End Upstream.

(* ===================================================================== *)
(** ** The catalog id                                                     *)
(* ===================================================================== *)

(** Every response that [m] returns satisfies [P]. *)
Definition answers (P : response -> Prop) (m : M response) : Prop :=
  forall t r t', m t = (Returned r, t') -> P r.

Lemma answers_ret (P : response -> Prop) r : P r -> answers P (ret r).
Proof. intros H t r' t' E. injection E as <- _. exact H. Qed.

Lemma answers_bind {A} (P : response -> Prop) (m : M A) k :
  (forall a, answers P (k a)) -> answers P (a <- m ;; k a).
Proof.
  intros H t r t'. unfold bind. destruct (m t) as [[a|e] t1]; [apply H | discriminate].
Qed.

Lemma answers_try_catch (P : response -> Prop) m h :
  answers P m -> (forall e, answers P (h e)) -> answers P (try_catch m h).
Proof.
  intros Hm Hh t r t'. unfold try_catch. destruct (m t) as [[a|e] t1] eqn:E.
  - intros E'. injection E' as <- <-. now apply (Hm t a t1).
  - apply Hh.
Qed.

Module Catalog_id.
Import Meta_route.

(** The rule of the catalog id, read on a handler: among the catalog
    requests that name a catalog id, those answered 404 "Unknown catalog"
    are the ones whose id does not start with [imdb-top-picks]. *)
Definition unknown_iff_no_prefix (handler : request -> M response) : Prop :=
  forall req t id,
    method req <> js "OPTIONS" ->
    startsWith (js "/catalog/") (tail_of (pathname req)) = true ->
    nth_error (split ch_slash (tail_of (pathname req))) 3 = Some id ->
    (fst (handler req t) = Returned unknown_catalog
     <-> startsWith (js "imdb-top-picks") id = false).

(** Revision 2.0.0 turns down an id that starts with the prefix. *)
Lemma prefix_not_enough_in_V20 :
  ~ (forall net, unknown_iff_no_prefix (V20.handler net)).
Proof.
  intros H.
  specialize (H (fun _ => Rejected None None)
                (GET "/YQ/catalog/movie/imdb-top-picks-2.json") []
                (js "imdb-top-picks-2.json")
                ltac:(vm_compute; discriminate) eq_refl eq_refl).
  destruct H as [H _]. specialize (H eq_refl). discriminate.
Qed.

Lemma after_validation_not_404 (m : M response) :
  answers (fun r => statusCode r <> 404) m ->
  forall t, fst (m t) <> Returned unknown_catalog.
Proof.
  intros H t E. destruct (m t) as [[r|e] t'] eqn:Em; [|discriminate].
  cbn in E. injection E as ->. now apply (H t _ t' Em).
Qed.

(** C7, as the code has it.  For a catalog request that names a catalog
    id: revision 2.4.0 answers 404 "Unknown catalog" exactly when the id does
    not start with [imdb-top-picks], and revision 2.0.0 exactly when the id
    is not the file name [imdb-top-picks.json]. *)
Theorem unknown_catalog_answer lc net req t id :
  method req <> js "OPTIONS" ->
  startsWith (js "/catalog/") (tail_of (pathname req)) = true ->
  nth_error (split ch_slash (tail_of (pathname req))) 3 = Some id ->
  (fst (V24.handler lc net req t) = Returned unknown_catalog
   <-> startsWith (js "imdb-top-picks") id = false)
  /\ (fst (V20.handler net req t) = Returned unknown_catalog
      <-> id <> js "imdb-top-picks.json").
Proof.
  intros Hm Ht Hid.
  destruct (catalog_tail_routes _ Ht) as (H1 & H2).
  split.
  - unfold V24.handler. rewrite (not_options _ Hm), H1, H2, Ht, Hid.
    destruct (startsWith (js "imdb-top-picks") id); cbn [negb].
    + split; [|discriminate]. intros H. exfalso. revert H.
      apply after_validation_not_404.
      destruct (negb _); [apply answers_ret; discriminate|].
      apply answers_try_catch.
      * repeat (apply answers_bind; intros ?).
        apply answers_ret. discriminate.
      * intros e. apply answers_ret. discriminate.
    + split; reflexivity.
  - unfold V20.handler. rewrite (not_options _ Hm), H1, H2, Ht, Hid.
    destruct (str_eqb id (js "imdb-top-picks.json")) eqn:E; cbn [negb].
    + apply str_eqb_eq in E. split; [|congruence]. intros H. exfalso. revert H.
      apply after_validation_not_404.
      destruct (negb _); [apply answers_ret; discriminate|].
      apply answers_try_catch.
      * repeat (apply answers_bind; intros ?).
        apply answers_ret. discriminate.
      * intros e. apply answers_ret. discriminate.
    + split; [|reflexivity]. intros _ H. apply str_eqb_eq in H. congruence.
Qed.

Definition extras_request : request :=
  GET "/YQ/catalog/movie/imdb-top-picks-2/genre=Action.json".

Lemma unknown_catalog_answer_witness :
  (method extras_request <> js "OPTIONS"
   /\ startsWith (js "/catalog/") (tail_of (pathname extras_request)) = true
   /\ nth_error (split ch_slash (tail_of (pathname extras_request))) 3
      = Some (js "imdb-top-picks-2"))
  /\ fst (V24.handler ascii_toLowerCase (fun _ => Rejected None None)
            extras_request []) <> Returned unknown_catalog
  /\ fst (V20.handler (fun _ => Rejected None None) extras_request [])
     = Returned unknown_catalog.
Proof.
  assert (H1 : method extras_request <> js "OPTIONS") by (vm_compute; discriminate).
  assert (H2 : startsWith (js "/catalog/") (tail_of (pathname extras_request)) = true)
    by reflexivity.
  assert (H3 : nth_error (split ch_slash (tail_of (pathname extras_request))) 3
               = Some (js "imdb-top-picks-2")) by reflexivity.
  split; [repeat split; assumption|].
  destruct (unknown_catalog_answer ascii_toLowerCase (fun _ => Rejected None None)
              extras_request [] _ H1 H2 H3) as [H24 H20].
  split.
  - intros H. apply H24 in H. vm_compute in H. discriminate.
  - apply H20. vm_compute. discriminate.
Defined.

End Catalog_id.

(* ===================================================================== *)
(** ** The title mapper                                                   *)
(* ===================================================================== *)

(** The genre display strings of a list of genre entries, in order and with
    repetitions: the texts that are present and not empty. *)
Definition display_strings (gs : list Gql.GenreEntry) : list jsstring :=
  filter truthy (map (fun g => or_empty (Gql.genre g ?. Gql.text)) gs).

Definition title_genres (t : Gql.Title) : list Gql.GenreEntry :=
  or_nil (Gql.titleGenres t ?. Gql.genres).

Module Mapper.

(** The rule of the genres, read on a mapper: an edge with a title and a
    title id gives an item whose [genres] are the display strings of the
    title. *)
Definition maps_genres (mapper : Gql.Edge -> outcome (option Meta.t)) : Prop :=
  forall edge t,
    Gql.node edge ?. Gql.title = Some t ->
    truthy (or_empty (Gql.id t)) = true ->
    exists m, mapper edge = Returned (Some m)
              /\ Meta.genres m = Some (display_strings (title_genres t)).

Definition entry (text : string) : Gql.GenreEntry :=
  {| Gql.genre := Some {| Gql.text := Some (js text) |} |}.

Definition title_with (id : string) (gs : list Gql.GenreEntry) : Gql.Title :=
  {| Gql.id := Some (js id);
     Gql.titleType := None;
     Gql.titleText := None;
     Gql.originalTitleText := None;
     Gql.primaryImage := None;
     Gql.releaseYear := None;
     Gql.titleGenres := Some {| Gql.genres := Some gs |};
     Gql.ratingsSummary := None |}.

Definition edge_with (t : Gql.Title) : Gql.Edge :=
  {| Gql.node := Some {| Gql.title := Some t |} |}.

(** The mapper of revision 2.0.0 gives items without [genres]; the one of
    revision 2.4.0 throws on a genre entry without a [genre] object. *)
Lemma genres_not_always_mapped :
  ~ maps_genres (fun edge => Returned (V20.to_meta edge))
  /\ ~ maps_genres V24.buildMeta.
Proof.
  split; intros H.
  - destruct (H (edge_with (title_with "tt0111161" [entry "Drama"])) _
                eq_refl eq_refl) as (m & E & Hg).
    injection E as <-. discriminate.
  - destruct (H (edge_with (title_with "tt0111161" [ {| Gql.genre := None |} ])) _
                eq_refl eq_refl) as (m & E & Hg).
    discriminate.
Qed.

Lemma genre_texts_present gs :
  Forall (fun g => Gql.genre g <> None) gs ->
  exists texts,
    map_outcome V24.genre_text gs = Returned texts
    /\ map or_empty texts = map (fun g => or_empty (Gql.genre g ?. Gql.text)) gs.
Proof.
  induction 1 as [|g gs Hg _ (texts & E & Hm)]; [now exists []|].
  cbn [map_outcome map]. unfold V24.genre_text at 1.
  destruct (Gql.genre g) as [tx|]; [|congruence].
  rewrite E. exists (Gql.text tx :: texts). cbn [map chain]. now rewrite Hm.
Qed.

(** C5, as the code has it.  For an edge with a title node and a title
    id: [buildMeta] of revision 2.4.0, when every genre entry of the title
    carries a [genre] object, gives an item with that id whose [genres] are
    the display strings of the title in the order of the payload and with
    repetitions kept, the empty list when there are none; the mapper of
    revision 2.0.0 gives an item with that id and no [genres] property. *)
Theorem genres_of_item edge t :
  Gql.node edge ?. Gql.title = Some t ->
  truthy (or_empty (Gql.id t)) = true ->
  (Forall (fun g => Gql.genre g <> None) (title_genres t) ->
   exists m,
     V24.buildMeta edge = Returned (Some m)
     /\ Meta.id m = or_empty (Gql.id t)
     /\ Meta.genres m = Some (display_strings (title_genres t))
     /\ (title_genres t = [] -> Meta.genres m = Some []))
  /\ exists m,
       V20.to_meta edge = Some m
       /\ Meta.id m = or_empty (Gql.id t)
       /\ Meta.genres m = None.
Proof.
  intros Ht Hid. split.
  - intros Hg. destruct (genre_texts_present _ Hg) as (texts & E & Hm).
    unfold V24.buildMeta. rewrite Ht, Hid. cbn [negb].
    fold (title_genres t). rewrite E.
    eexists. split; [reflexivity|]. cbn [Meta.id Meta.genres].
    unfold display_strings. rewrite Hm. repeat split.
    intros ->. reflexivity.
  - unfold V20.to_meta. rewrite Ht, Hid. cbn [negb].
    eexists. repeat split.
Qed.

Definition shawshank : Gql.Edge :=
  edge_with (title_with "tt0111161" [entry "Drama"; entry "Crime"; entry "Drama"]).

Lemma genres_of_item_witness :
  (Gql.node shawshank ?. Gql.title
   = Some (title_with "tt0111161" [entry "Drama"; entry "Crime"; entry "Drama"])
   /\ truthy (or_empty (Gql.id (title_with "tt0111161"
                                  [entry "Drama"; entry "Crime"; entry "Drama"]))) = true)
  /\ exists m,
       V24.buildMeta shawshank = Returned (Some m)
       /\ Meta.genres m = Some [js "Drama"; js "Crime"; js "Drama"].
Proof.
  split; [split; reflexivity|].
  destruct (genres_of_item shawshank _ eq_refl eq_refl) as [H _].
  destruct H as (m & E & _ & Hg & _).
  { repeat constructor; discriminate. }
  exists m. split; [exact E | exact Hg].
Defined.

End Mapper.

(* ===================================================================== *)
(** ** The genre options of the manifest                                  *)
(* ===================================================================== *)

(** Before in the order of code units. *)
Definition str_lt (a b : jsstring) : Prop := str_ltb a b = true.

(** Every genre display string of the payload, edge after edge. *)
Definition all_display_strings (data : option Gql.Payload) : list jsstring :=
  flat_map
    (fun edge =>
       display_strings
         (or_nil (Gql.node edge ?. Gql.title ?. Gql.titleGenres ?. Gql.genres)))
    (or_nil (edges_of data)).

Module Order.

Lemma irrefl a : str_ltb a a = false.
Proof.
  induction a as [|x a IH]; cbn; [reflexivity|].
  rewrite Z.ltb_irrefl, Z.eqb_refl, IH. reflexivity.
Qed.

Lemma trans a b c : str_lt a b -> str_lt b c -> str_lt a c.
Proof.
  unfold str_lt. revert b c.
  induction a as [|x a IH]; intros [|y b] [|z c]; cbn; try congruence.
  intros H1 H2.
  apply orb_true_iff in H1. apply orb_true_iff in H2. apply orb_true_iff.
  destruct H1 as [H1 | H1]; destruct H2 as [H2 | H2];
    repeat match goal with
      | H : _ && _ = true |- _ => apply andb_true_iff in H; destruct H
      | H : (_ <? _) = true |- _ => apply Z.ltb_lt in H
      | H : (_ =? _) = true |- _ => apply Z.eqb_eq in H
      end.
  - left. apply Z.ltb_lt. lia.
  - left. apply Z.ltb_lt. lia.
  - left. apply Z.ltb_lt. lia.
  - right. apply andb_true_iff. split; [apply Z.eqb_eq; lia | eauto].
Qed.

(** Of two different strings, one is before the other. *)
Lemma total a b : str_ltb a b = false -> a <> b -> str_lt b a.
Proof.
  unfold str_lt. revert b.
  induction a as [|x a IH]; intros [|y b]; cbn; try congruence.
  intros H Hne. apply orb_false_iff in H. destruct H as [H1 H2].
  apply Z.ltb_ge in H1. apply orb_true_iff.
  destruct (Z.eq_dec x y) as [->|Hxy].
  - right. rewrite Z.eqb_refl in *. cbn [andb] in *.
    apply IH; [assumption | congruence].
  - left. apply Z.ltb_lt. lia.
Qed.

Lemma In_insert x y l : In x (insert y l) <-> x = y \/ In x l.
Proof.
  induction l as [|z l IH]; cbn [insert].
  - cbn. intuition congruence.
  - destruct (str_ltb z y); cbn [In]; [rewrite IH|]; intuition congruence.
Qed.

Lemma In_sort x l : In x (sort l) <-> In x l.
Proof.
  induction l as [|y l IH]; cbn [sort fold_right]; [reflexivity|].
  fold (sort l). rewrite In_insert, IH. cbn. intuition congruence.
Qed.

Lemma insert_sorted x l :
  StronglySorted str_lt l -> ~ In x l -> StronglySorted str_lt (insert x l).
Proof.
  induction 1 as [|y l Hs IH Hy]; intros Hx; cbn [insert].
  - repeat constructor.
  - destruct (str_ltb y x) eqn:E.
    + constructor; [apply IH; cbn in Hx; tauto|].
      apply Forall_forall. intros z Hz. apply In_insert in Hz.
      destruct Hz as [->|Hz]; [exact E|].
      now apply (proj1 (Forall_forall _ _) Hy).
    + assert (Hxy : str_lt x y) by (apply total; [assumption | cbn in Hx; intuition]).
      constructor; [now constructor|].
      constructor; [assumption|].
      apply Forall_forall. intros z Hz. apply trans with y; [assumption|].
      now apply (proj1 (Forall_forall _ _) Hy).
Qed.

(** Sorting a list without repetition gives a strictly increasing one. *)
Lemma sort_sorted l : NoDup l -> StronglySorted str_lt (sort l).
Proof.
  induction 1 as [|x l Hx _ IH]; cbn [sort fold_right]; [constructor|].
  fold (sort l). apply insert_sorted; [assumption|]. now rewrite In_sort.
Qed.

Lemma sorted_NoDup l : StronglySorted str_lt l -> NoDup l.
Proof.
  induction 1 as [|x l _ IH Hx]; constructor; [|assumption].
  intros Hin. apply (proj1 (Forall_forall _ _) Hx) in Hin.
  unfold str_lt in Hin. now rewrite irrefl in Hin.
Qed.

End Order.

Module Genres.

Lemma str_eqb_false a b : str_eqb a b = false <-> a <> b.
Proof. unfold str_eqb. destruct (list_eq_dec Z.eq_dec a b); split; congruence. Qed.

Lemma existsb_str_eqb x s : existsb (str_eqb x) s = true <-> In x s.
Proof.
  rewrite existsb_exists. split.
  - intros (y & Hy & E). apply str_eqb_eq in E. now subst.
  - intros H. exists x. split; [assumption | apply str_eqb_refl].
Qed.

Lemma In_Set_add x y s : In x (Set_add y s) <-> x = y \/ In x s.
Proof.
  unfold Set_add. destruct (existsb (str_eqb y) s) eqn:E.
  - apply existsb_str_eqb in E. intuition congruence.
  - rewrite in_app_iff. cbn. intuition congruence.
Qed.

Lemma NoDup_Set_add y s : NoDup s -> NoDup (Set_add y s).
Proof.
  intros H. unfold Set_add. destruct (existsb (str_eqb y) s) eqn:E; [assumption|].
  assert (Hy : ~ In y s).
  { intros Hin. apply existsb_str_eqb in Hin. congruence. }
  clear E. induction H as [|z s Hz _ IH]; cbn.
  - repeat constructor. intros [].
  - constructor.
    + rewrite in_app_iff. cbn. cbn in Hy. intuition congruence.
    + apply IH. cbn in Hy. tauto.
Qed.

(** The inner loop of [extractGenresFromData]. *)
Definition add_genres (set : list jsstring) (gs : list Gql.GenreEntry) : list jsstring :=
  fold_left
    (fun set g =>
       let text := or_empty (Gql.genre g ?. Gql.text) in
       if truthy text then Set_add text set else set)
    gs set.

Lemma add_genres_spec gs set :
  (NoDup set -> NoDup (add_genres set gs))
  /\ forall x, In x (add_genres set gs) <-> In x set \/ In x (display_strings gs).
Proof.
  unfold add_genres, display_strings. revert set.
  induction gs as [|g gs IH]; intros set; cbn [fold_left map filter].
  - split; [auto|]. cbn. tauto.
  - destruct (truthy (or_empty (Gql.genre g ?. Gql.text))) eqn:E;
      destruct (IH (if truthy (or_empty (Gql.genre g ?. Gql.text))
                    then Set_add (or_empty (Gql.genre g ?. Gql.text)) set
                    else set)) as [IH1 IH2]; rewrite E in IH1, IH2.
    + split.
      * intros H. apply IH1. now apply NoDup_Set_add.
      * intros x. rewrite IH2, In_Set_add. cbn [In]. intuition congruence.
    + split; [exact IH1 | exact IH2].
Qed.

Lemma genresSet_spec edges set :
  let genresSet :=
    fold_left
      (fun set edge =>
         add_genres set
           (or_nil (Gql.node edge ?. Gql.title ?. Gql.titleGenres ?. Gql.genres)))
      edges set in
  (NoDup set -> NoDup genresSet)
  /\ forall x,
       In x genresSet <->
       In x set
       \/ In x (flat_map
                  (fun edge =>
                     display_strings
                       (or_nil (Gql.node edge ?. Gql.title ?. Gql.titleGenres
                                ?. Gql.genres)))
                  edges).
Proof.
  revert set. induction edges as [|e edges IH]; intros set; cbn [fold_left flat_map].
  - split; [auto|]. cbn. tauto.
  - destruct (IH (add_genres set
                    (or_nil (Gql.node e ?. Gql.title ?. Gql.titleGenres ?. Gql.genres))))
      as [IH1 IH2].
    destruct (add_genres_spec
                (or_nil (Gql.node e ?. Gql.title ?. Gql.titleGenres ?. Gql.genres)) set)
      as [A1 A2].
    split.
    + intros H. apply IH1, A1, H.
    + intros x. rewrite IH2, A2, in_app_iff. tauto.
Qed.

(** [extractGenresFromData] gives the display strings of the payload,
    each once, in increasing order. *)
Lemma extractGenresFromData_spec data :
  StronglySorted str_lt (V24.extractGenresFromData data)
  /\ NoDup (V24.extractGenresFromData data)
  /\ forall g, In g (V24.extractGenresFromData data) <-> In g (all_display_strings data).
Proof.
  unfold V24.extractGenresFromData, all_display_strings.
  destruct (genresSet_spec (or_nil (edges_of data)) []) as [H1 H2].
  cbv zeta in H1, H2. unfold add_genres in H1, H2.
  specialize (H1 (NoDup_nil _)).
  assert (Hs := Order.sort_sorted _ H1).
  split; [exact Hs|]. split; [now apply Order.sorted_NoDup|].
  intros g. rewrite Order.In_sort, H2. cbn. tauto.
Qed.

End Genres.

Module Manifest_route.
Import Meta_route.

(** The manifest of revision 2.4.0 with an id and genre options put in. *)
Definition manifest_with (id : jsstring) (opts : list jsstring) : Manifest.t :=
  {| Manifest.id := id;
     Manifest.version := js "2.4.0";
     Manifest.name := js "IMDb Top Picks";
     Manifest.description := Manifest.description V24.BASE_MANIFEST;
     Manifest.types := [js "movie"; js "series"];
     Manifest.catalogs :=
       [ {| Manifest.catalog_id := js "imdb-top-picks";
            Manifest.catalog_type := js "movie";
            Manifest.catalog_name := js "IMDB Top Picks " ++ en_dash ++ js " Movies";
            Manifest.extra := Some [V24.genre_extra opts] |};
         {| Manifest.catalog_id := js "imdb-top-picks";
            Manifest.catalog_type := js "series";
            Manifest.catalog_name := js "IMDB Top Picks " ++ en_dash ++ js " Series";
            Manifest.extra := Some [V24.genre_extra opts] |} ];
     Manifest.resources := [js "catalog"; js "meta"];
     Manifest.configurable := false |}.

(** C4. A manifest request with a credential segment whose cookie is not
    empty and whose fetch succeeds is answered 200 with a manifest whose id
    is the base id, a dot and the credential segment as it stands in the
    path, and whose catalogs each offer for [genre] the options
    [extractGenresFromData] computes: the genre display strings of all the
    edges, each once (strings that differ in case are different), in
    increasing order of code units. *)
Theorem manifest_with_credential lc net req t data t' :
  method req <> js "OPTIONS" ->
  tail_of (pathname req) = js "/manifest.json" ->
  truthy (cookie_of (hash_of (pathname req))) = true ->
  V24.fetchImdbData net (cookie_of (hash_of (pathname req))) t = (Returned data, t') ->
  exists manifest opts,
    V24.handler lc net req t
    = (Returned (send (Obj (ManifestObject manifest)) application_json 200), t')
    /\ Manifest.id manifest
       = js "community.imdb-top-picks" ++ js "." ++ hash_of (pathname req)
    /\ Forall (fun cat => Manifest.extra cat = Some [V24.genre_extra opts])
         (Manifest.catalogs manifest)
    /\ length (Manifest.catalogs manifest) = 2%nat
    /\ StronglySorted str_lt opts
    /\ NoDup opts
    /\ forall g, In g opts <-> In g (all_display_strings data).
Proof.
  intros Hm Htail Hcookie Hfetch.
  exists (manifest_with (js "community.imdb-top-picks" ++ js "."
                         ++ hash_of (pathname req))
            (V24.extractGenresFromData data)),
         (V24.extractGenresFromData data).
  split.
  - unfold V24.handler. rewrite (not_options _ Hm), Htail.
    change (str_eqb (js "/") (js "/")) with true.
    change (str_eqb (js "/manifest.json") (js "/")
            || str_eqb (js "/manifest.json") (js "/index.html")) with false.
    change (str_eqb (js "/manifest.json") (js "/manifest.json")) with true.
    cbv iota. rewrite Hcookie.
    unfold bind, try_catch, lift, ret. rewrite Hfetch.
    reflexivity.
  - split; [reflexivity|]. split; [repeat constructor|]. split; [reflexivity|].
    apply Genres.extractGenresFromData_spec.
Qed.

Definition genres_payload (texts : list string) : Gql.Payload :=
  {| Gql.data :=
       Some {| Gql.titleRecommendations :=
                 Some {| Gql.edges :=
                           Some (map (fun text =>
                                        Mapper.edge_with
                                          (Mapper.title_with "tt0000001"
                                             [Mapper.entry text]))
                                   texts) |} |};
     Gql.errors := None |}.

Definition three_genres : list string := ["Action"; "Drama"; "Action"]%string.

Definition action_drama_action : endpoint :=
  fun _ => Resolved (Some (genres_payload three_genres)).

Lemma manifest_with_credential_witness :
  (method (GET "/YT1i/manifest.json") <> js "OPTIONS"
   /\ tail_of (pathname (GET "/YT1i/manifest.json")) = js "/manifest.json"
   /\ truthy (cookie_of (hash_of (pathname (GET "/YT1i/manifest.json")))) = true
   /\ V24.fetchImdbData action_drama_action
        (cookie_of (hash_of (pathname (GET "/YT1i/manifest.json")))) []
      = (Returned (Some (genres_payload three_genres)), [js "a=b"]))
  /\ V24.handler ascii_toLowerCase action_drama_action (GET "/YT1i/manifest.json") []
     = (Returned
          (send (Obj (ManifestObject
                        (manifest_with (js "community.imdb-top-picks.YT1i")
                           [js "Action"; js "Drama"])))
             application_json 200),
        [js "a=b"]).
Proof.
  assert (H1 : method (GET "/YT1i/manifest.json") <> js "OPTIONS")
    by (vm_compute; discriminate).
  assert (H2 : tail_of (pathname (GET "/YT1i/manifest.json")) = js "/manifest.json")
    by reflexivity.
  assert (H3 : truthy (cookie_of (hash_of (pathname (GET "/YT1i/manifest.json")))) = true)
    by reflexivity.
  assert (H4 : V24.fetchImdbData action_drama_action
                 (cookie_of (hash_of (pathname (GET "/YT1i/manifest.json")))) []
               = (Returned (Some (genres_payload three_genres)),
                  [js "a=b"]))
    by reflexivity.
  split; [repeat split; assumption|].
  destruct (manifest_with_credential ascii_toLowerCase action_drama_action
              (GET "/YT1i/manifest.json") [] _ _ H1 H2 H3 H4)
    as (manifest & opts & E & _).
  rewrite E. vm_compute in E. injection E as <-. reflexivity.
Defined.

(** Genres that differ in case are kept apart, and upper case comes first. *)
Example case_sensitive :
  V24.extractGenresFromData (Some (genres_payload ["drama"; "Drama"; "Action"; "drama"]%string))
  = [js "Action"; js "Drama"; js "drama"].
Proof. reflexivity. Qed.

End Manifest_route.

(* ===================================================================== *)
(** ** The genre filter of the catalog route                              *)
(* ===================================================================== *)

Module Catalog_route.
Import Meta_route.

Section Extras.






End Extras.

(** A genre that can stand in a path segment as it is. *)
Definition plain (s : jsstring) : Prop :=
  includes_char ch_slash s = false
  /\ includes_char ch_comma s = false
  /\ includes_char ch_eq s = false.

Lemma includes_char_app c s t :
  includes_char c (s ++ t) = includes_char c s || includes_char c t.
Proof. unfold includes_char. apply existsb_app. Qed.

(** The path [/catalog/<type>/<id>/genre=<g>.json] encodes the extra
    [genre] with value [g]. *)
Lemma genre_segment type id g :
  includes_char ch_slash type = false ->
  includes_char ch_slash id = false ->
  plain g -> truthy g = true ->
  get_property (js "genre")
    (V24.parseExtrasFromPath
       (js "/catalog/" ++ type ++ js "/" ++ id ++ js "/genre=" ++ g ++ js ".json"))
  = Some g.
Proof.
  intros Ht Hi (Hg1 & Hg2 & Hg3) Hg.
  unfold V24.parseExtrasFromPath. cbv zeta.
  change (js "/catalog/" ++ type ++ js "/" ++ id ++ js "/genre=" ++ g ++ js ".json")
    with ([] ++ ch_slash :: js "catalog" ++ ch_slash :: type ++ ch_slash :: id
          ++ ch_slash :: js "genre=" ++ g ++ js ".json").
  rewrite split_word by reflexivity.
  rewrite split_word by reflexivity.
  rewrite split_word by assumption.
  rewrite split_word by assumption.
  rewrite split_last.
  2:{ rewrite !includes_char_app, Hg1. reflexivity. }
  cbn [nth_error or_empty].
  rewrite app_assoc, strip_json_app.
  replace (truthy (js "genre=" ++ g) && includes_char ch_eq (js "genre=" ++ g))
    with true by reflexivity.
  rewrite split_last.
  2:{ rewrite includes_char_app, Hg2. reflexivity. }
  cbn [fold_left].
  change (js "genre=" ++ g) with (js "genre" ++ ch_eq :: g).
  rewrite split_word by reflexivity.
  rewrite split_last by assumption.
  rewrite Hg. reflexivity.
Qed.

Section Filter.

Variable toLowerCase : jsstring -> jsstring.



End Filter.

Definition action_and_drama : Gql.Payload :=
  {| Gql.data :=
       Some {| Gql.titleRecommendations :=
                 Some {| Gql.edges :=
                           Some [ Mapper.edge_with
                                    (Mapper.title_with "tt0000001"
                                       [Mapper.entry "Action"; Mapper.entry "Comedy"]);
                                  Mapper.edge_with
                                    (Mapper.title_with "tt0000002"
                                       [Mapper.entry "Drama"]) ] |} |};
     Gql.errors := None |}.

Definition item (id : string) (genres : list jsstring) : Meta.t :=
  {| Meta.id := js id;
     Meta.type := js "movie";
     Meta.name := js "IMDb title";
     Meta.poster := [];
     Meta.year := None;
     Meta.genres := Some genres;
     Meta.posterShape := js "poster";
     Meta.imdbRating := None |}.



End Catalog_route.

(* ===================================================================== *)
(** * Further properties of the handlers                                  *)
(* ===================================================================== *)

(** ** What every response carries, and how many calls go out             *)

Definition cors_header : jsstring * jsstring :=
  (js "Access-Control-Allow-Origin", js "*").

Lemma send_cors b type code : In cors_header (headers (send b type code)).
Proof. right. left. reflexivity. Qed.

Lemma fetchImdbData_calls net cookie t :
  snd (V24.fetchImdbData net cookie t) = t ++ [cookie].
Proof.
  unfold V24.fetchImdbData, axios_post. destruct (net cookie) as [data|st msg];
    [|reflexivity].
  destruct (or_nil (edges_of data)); [destruct (data ?. Gql.errors)|]; reflexivity.
Qed.

Lemma scrape_calls net cookie t :
  snd (V20.scrape net cookie t) = t ++ [cookie].
Proof.
  unfold V20.scrape, axios_post. destruct (net cookie) as [data|st msg];
    [|reflexivity].
  destruct (or_nil (edges_of data)); [destruct (data ?. Gql.errors)|]; reflexivity.
Qed.

Module Calls.

(** Each request makes at most one call to the endpoint, and the [Cookie]
    it sends is the decoded credential segment.  Revision 2.4.0 calls on
    the manifest and catalog routes only, revision 2.0.0 on the catalog
    route only, and neither calls when the decoded cookie is empty. *)
Theorem at_most_one_call lc net req t :
  let cookie := cookie_of (hash_of (pathname req)) in
  let tail := tail_of (pathname req) in
  (snd (V24.handler lc net req t) = t
   \/ snd (V24.handler lc net req t) = t ++ [cookie]
      /\ truthy cookie = true
      /\ (tail = js "/manifest.json" \/ startsWith (js "/catalog/") tail = true))
  /\ (snd (V20.handler net req t) = t
      \/ snd (V20.handler net req t) = t ++ [cookie]
         /\ truthy cookie = true
         /\ startsWith (js "/catalog/") tail = true).
Proof.
  intros cookie tail. split.
  - unfold V24.handler. fold cookie tail.
    destruct (str_eqb (method req) (js "OPTIONS")); [now left|].
    destruct (str_eqb tail (js "/") || str_eqb tail (js "/index.html")); [now left|].
    destruct (str_eqb tail (js "/manifest.json")) eqn:Em.
    { apply str_eqb_eq in Em.
      destruct (truthy cookie) eqn:Ec.
      - right. split; [|split; [reflexivity | now left]].
        pose proof (fetchImdbData_calls net cookie t) as Hc.
        unfold bind, try_catch, lift, ret.
        destruct (V24.fetchImdbData net cookie t) as [[d|e] t1];
          cbn [snd] in Hc; subst t1; reflexivity.
      - left. reflexivity. }
    destruct (startsWith (js "/catalog/") tail) eqn:Ecat.
    { destruct (nth_error (split ch_slash tail) 3) as [id|]; [|now left].
      destruct (negb (startsWith (js "imdb-top-picks") id)); [now left|].
      destruct (truthy cookie) eqn:Ec; cbn [negb]; [|now left].
      right. split; [|split; [reflexivity | now right]].
      unfold try_catch, bind, lift, ret.
      pose proof (fetchImdbData_calls net cookie t) as Hc.
      destruct (V24.fetchImdbData net cookie t) as [[d|e] t1];
        cbn [snd] in Hc; subst t1; [|reflexivity].
      destruct (V24.edges_or_throw d) as [edges|e]; [|reflexivity].
      destruct (map_outcome V24.buildMeta edges) as [built|e]; reflexivity. }
    destruct (startsWith (js "/meta/") tail); now left.
  - unfold V20.handler. fold cookie tail.
    destruct (str_eqb (method req) (js "OPTIONS")); [now left|].
    destruct (str_eqb tail (js "/") || str_eqb tail (js "/index.html")); [now left|].
    destruct (str_eqb tail (js "/manifest.json")); [now left|].
    destruct (startsWith (js "/catalog/") tail) eqn:Ecat.
    { destruct (negb _); [now left|].
      destruct (truthy cookie) eqn:Ec; cbn [negb]; [|now left].
      right. split; [|split; reflexivity].
      unfold try_catch, bind, ret.
      pose proof (scrape_calls net cookie t) as Hc.
      destruct (V20.scrape net cookie t) as [[d|e] t1];
        cbn [snd] in Hc; subst t1; reflexivity. }
    destruct (startsWith (js "/meta/") tail); now left.
Qed.

End Calls.

Module Cors.

Definition well_headed (r : response) : Prop :=
  In cors_header (headers r) /\ In (statusCode r) [200; 204; 400; 404; 503].

Lemma send_well_headed b type code :
  In code [200; 204; 400; 404; 503] -> well_headed (send b type code).
Proof. intros H. split; [apply send_cors | exact H]. Qed.

Ltac sent := apply answers_ret, send_well_headed; cbn; tauto.

Lemma meta_route_well_headed tail : well_headed (meta_route tail).
Proof.
  unfold meta_route. cbv zeta.
  destruct (negb _); apply send_well_headed; cbn; tauto.
Qed.

Lemma V24_well_headed lc net req : answers well_headed (V24.handler lc net req).
Proof.
  unfold V24.handler.
  destruct (str_eqb (method req) (js "OPTIONS")).
  { apply answers_ret. split; [left; reflexivity | cbn; tauto]. }
  destruct (_ || _); [sent|].
  destruct (str_eqb _ (js "/manifest.json")).
  { do 2 (apply answers_bind; intros ?). sent. }
  destruct (startsWith (js "/catalog/") (tail_of (pathname req))).
  { destruct (nth_error _ 3) as [id|]; [|intros t r t' E; discriminate].
    destruct (negb (startsWith _ id)); [sent|].
    destruct (negb (truthy _)); [sent|].
    apply answers_try_catch.
    - do 3 (apply answers_bind; intros ?). sent.
    - intros e. sent. }
  destruct (startsWith (js "/meta/") _); [|sent].
  apply answers_ret, meta_route_well_headed.
Qed.

Lemma V20_well_headed net req : answers well_headed (V20.handler net req).
Proof.
  unfold V20.handler.
  destruct (str_eqb (method req) (js "OPTIONS")).
  { apply answers_ret. split; [left; reflexivity | cbn; tauto]. }
  destruct (_ || _); [sent|].
  destruct (str_eqb _ (js "/manifest.json")); [sent|].
  destruct (startsWith (js "/catalog/") (tail_of (pathname req))).
  { destruct (negb _); [sent|].
    destruct (negb (truthy _)); [sent|].
    apply answers_try_catch.
    - apply answers_bind; intro. sent.
    - intros e. sent. }
  destruct (startsWith (js "/meta/") _); [|sent].
  apply answers_ret, meta_route_well_headed.
Qed.

(** Every response of either handler carries the header
    [Access-Control-Allow-Origin: *], and its status is one of 200, 204,
    400, 404 and 503. *)
Theorem responses_well_headed lc net req t r t' :
  V24.handler lc net req t = (Returned r, t')
  \/ V20.handler net req t = (Returned r, t') ->
  In cors_header (headers r) /\ In (statusCode r) [200; 204; 400; 404; 503].
Proof.
  intros [H | H].
  - exact (V24_well_headed lc net req t r t' H).
  - exact (V20_well_headed net req t r t' H).
Qed.

Lemma responses_well_headed_witness :
  (V24.handler ascii_toLowerCase (fun _ => Rejected (Some 502) None)
     (GET "/YQ/catalog/movie/imdb-top-picks.json") []
   = (Returned
        (send (Obj (ErrorObject
                      (Said (js "Request to IMDb GraphQL failed: 502 "))))
           application_json 503), [js "a"])
   \/ V20.handler (fun _ => Rejected (Some 502) None)
        (GET "/YQ/catalog/movie/imdb-top-picks.json") []
      = (Returned
           (send (Obj (ErrorObject
                         (Said (js "Request to IMDb GraphQL failed: 502 "))))
              application_json 503), [js "a"]))
  /\ In cors_header
       (headers (send (Obj (ErrorObject
                              (Said (js "Request to IMDb GraphQL failed: 502 "))))
                   application_json 503)).
Proof.
  assert (H : V24.handler ascii_toLowerCase (fun _ => Rejected (Some 502) None)
                (GET "/YQ/catalog/movie/imdb-top-picks.json") []
              = (Returned
                   (send (Obj (ErrorObject
                                 (Said (js "Request to IMDb GraphQL failed: 502 "))))
                      application_json 503), [js "a"])) by reflexivity.
  split; [left; exact H|].
  exact (proj1 (responses_well_headed ascii_toLowerCase _ _ _ _ _ (or_introl H))).
Defined.

End Cors.

(** ** The manifest and catalog routes, case by case                      *)

(** What the catalog route of revision 2.4.0 computes under [try]: the
    fetch, the edges and their items. *)
Definition built_items (net : endpoint) (cookie : jsstring)
  : M (list (option Meta.t)) :=
  imdbData <- V24.fetchImdbData net cookie ;;
  edges <- lift (V24.edges_or_throw imdbData) ;;
  lift (map_outcome V24.buildMeta edges).

(** The genre filter as the catalog route applies it. *)
Definition by_genre (lc : jsstring -> jsstring) (extras : object)
  (metas : list Meta.t) : list Meta.t :=
  match get_property (js "genre") extras with
  | Some genre =>
      if truthy genre then filter (V24.has_genre lc (lc genre)) metas else metas
  | None => metas
  end.

Definition metas_answer (metas : list Meta.t) : response :=
  send (Obj (MetasObject metas)) application_json 200.

Definition failure_answer (e : exn) : response :=
  send (Obj (ErrorObject (message_of e))) application_json 503.

Definition manifest_answer (m : Manifest.t) : response :=
  send (Obj (ManifestObject m)) application_json 200.

Section Catalog_cases.

Variable lc : jsstring -> jsstring.
Variable net : endpoint.
Variable req : request.
Variable id : jsstring.

Let tail := tail_of (pathname req).
Let cookie := cookie_of (hash_of (pathname req)).
Let type := nth_error (split ch_slash tail) 2.

Hypothesis Hmethod : method req <> js "OPTIONS".
Hypothesis Htail : startsWith (js "/catalog/") tail = true.
Hypothesis Hid : nth_error (split ch_slash tail) 3 = Some id.
Hypothesis Hcookie : truthy cookie = true.

(** The answer of revision 2.4.0 to a catalog request with a known id and
    a cookie. *)
Lemma V24_catalog_route t :
  startsWith (js "imdb-top-picks") id = true ->
  V24.handler lc net req t
  = match built_items net cookie t with
    | (Returned built, t') =>
        (Returned
           (metas_answer
              (by_genre lc (V24.parseExtrasFromPath tail)
                 (filter (has_type type) (compact built)))), t')
    | (Thrown e, t') => (Returned (failure_answer e), t')
    end.
Proof.
  intros Hpre. destruct (catalog_tail_routes _ Htail) as (H1 & H2).
  unfold V24.handler. fold tail cookie.
  rewrite (Meta_route.not_options _ Hmethod), H1, H2, Htail, Hid, Hpre, Hcookie.
  cbn [negb]. unfold built_items, try_catch, bind, lift, ret, by_genre.
  destruct (V24.fetchImdbData net cookie t) as [[d|e] t1]; [|reflexivity].
  destruct (V24.edges_or_throw d) as [edges|e]; [|reflexivity].
  destruct (map_outcome V24.buildMeta edges) as [built|e]; reflexivity.
Qed.

(** The answer of revision 2.0.0 to a catalog request for its one file. *)
Lemma V20_catalog_route t :
  id = js "imdb-top-picks.json" ->
  V20.handler net req t
  = match V20.scrape net cookie t with
    | (Returned all, t') => (Returned (metas_answer (filter (has_type type) all)), t')
    | (Thrown e, t') => (Returned (failure_answer e), t')
    end.
Proof.
  intros ->. destruct (catalog_tail_routes _ Htail) as (H1 & H2).
  unfold V20.handler. fold tail cookie.
  rewrite (Meta_route.not_options _ Hmethod), H1, H2, Htail, Hid, Hcookie.
  cbn [negb str_eqb]. rewrite str_eqb_refl. cbn [negb].
  unfold try_catch, bind, ret.
  destruct (V20.scrape net cookie t) as [[all|e] t1]; reflexivity.
Qed.

End Catalog_cases.

(** ** The items of the mappers                                           *)

(** The title id of an edge, empty when the edge has none. *)
Definition edge_id (edge : Gql.Edge) : jsstring :=
  or_empty (Gql.node edge ?. Gql.title ?. Gql.id).

(** [m] without its [genres] property. *)
Definition without_genres (m : Meta.t) : Meta.t :=
  {| Meta.id := Meta.id m;
     Meta.type := Meta.type m;
     Meta.name := Meta.name m;
     Meta.poster := Meta.poster m;
     Meta.year := Meta.year m;
     Meta.genres := None;
     Meta.posterShape := Meta.posterShape m;
     Meta.imdbRating := Meta.imdbRating m |}.

Module Items.

Lemma edge_id_title edge t :
  Gql.node edge ?. Gql.title = Some t -> edge_id edge = or_empty (Gql.id t).
Proof. unfold edge_id. intros H. unfold chain at 1. now rewrite H. Qed.

Lemma edge_id_no_title edge :
  Gql.node edge ?. Gql.title = None -> edge_id edge = [].
Proof. unfold edge_id. intros H. unfold chain at 1. now rewrite H. Qed.

Lemma title_name_truthy t : truthy (title_name t) = true.
Proof.
  unfold title_name. cbv zeta.
  destruct (truthy (or_empty (Gql.titleText t ?. Gql.text))) eqn:Ea; [exact Ea|].
  destruct (truthy (or_empty (Gql.originalTitleText t ?. Gql.text))) eqn:Eb;
    [exact Eb | reflexivity].
Qed.

Lemma series_or_movie_cases t :
  (series_or_movie t = js "series"
   /\ (Gql.titleType t ?. Gql.titleType_id = Some (js "tvSeries")
       \/ Gql.titleType t ?. Gql.titleType_id = Some (js "tvMiniSeries")))
  \/ (series_or_movie t = js "movie"
      /\ Gql.titleType t ?. Gql.titleType_id <> Some (js "tvSeries")
      /\ Gql.titleType t ?. Gql.titleType_id <> Some (js "tvMiniSeries")).
Proof.
  unfold series_or_movie. cbv zeta.
  destruct (Gql.titleType t ?. Gql.titleType_id) as [i|].
  - destruct (str_eqb i (js "tvSeries")) eqn:E1.
    + apply str_eqb_eq in E1. subst. left. split; [reflexivity | now left].
    + destruct (str_eqb i (js "tvMiniSeries")) eqn:E2.
      * apply str_eqb_eq in E2. subst. left. split; [reflexivity | now right].
      * right. cbn [orb]. repeat split; intros H; injection H as ->;
          rewrite str_eqb_refl in *; discriminate.
  - right. repeat split; discriminate.
Qed.

(** What [to_meta] gives, field by field. *)
Lemma to_meta_cases edge :
  (V20.to_meta edge = None /\ edge_id edge = [])
  \/ exists t m,
       Gql.node edge ?. Gql.title = Some t
       /\ V20.to_meta edge = Some m
       /\ Meta.id m = edge_id edge /\ truthy (Meta.id m) = true
       /\ Meta.type m = series_or_movie t
       /\ Meta.name m = title_name t
       /\ Meta.posterShape m = js "poster"
       /\ Meta.genres m = None.
Proof.
  unfold V20.to_meta.
  destruct (Gql.node edge ?. Gql.title) as [t|] eqn:Et.
  - rewrite (edge_id_title _ _ Et).
    destruct (truthy (or_empty (Gql.id t))) eqn:Ei; cbn [negb].
    + right. exists t. eexists. repeat split. exact Ei.
    + left. split; [reflexivity|]. destruct (or_empty (Gql.id t)); [reflexivity | discriminate].
  - left. split; [reflexivity | now apply edge_id_no_title].
Qed.

(** When [buildMeta] does not throw, it gives what [to_meta] gives, with
    [genres] in addition. *)
Lemma buildMeta_to_meta edge o :
  V24.buildMeta edge = Returned o ->
  V20.to_meta edge = option_map without_genres o.
Proof.
  unfold V24.buildMeta, V20.to_meta.
  destruct (Gql.node edge ?. Gql.title) as [t|].
  - destruct (negb (truthy (or_empty (Gql.id t)))).
    + intros H. injection H as <-. reflexivity.
    + destruct (map_outcome V24.genre_text _) as [texts|e]; [|discriminate].
      intros H. injection H as <-. reflexivity.
  - intros H. injection H as <-. reflexivity.
Qed.

Lemma built_to_meta edges built :
  map_outcome V24.buildMeta edges = Returned built ->
  map V20.to_meta edges = map (option_map without_genres) built.
Proof.
  revert built. induction edges as [|e edges IH]; intros built; cbn [map_outcome map].
  - intros H. injection H as <-. reflexivity.
  - destruct (V24.buildMeta e) as [o|x] eqn:E; [|discriminate].
    destruct (map_outcome V24.buildMeta edges) as [bs|x]; [|discriminate].
    intros H. injection H as <-. cbn [map].
    now rewrite (buildMeta_to_meta _ _ E), (IH bs eq_refl).
Qed.

Lemma compact_map_option {A B} (f : A -> B) (l : list (option A)) :
  compact (map (option_map f) l) = map f (compact l).
Proof.
  unfold compact. induction l as [|[a|] l IH]; cbn; [reflexivity| |assumption].
  now rewrite <- IH.
Qed.

Lemma to_meta_ids edges :
  map Meta.id (compact (map V20.to_meta edges)) = filter truthy (map edge_id edges).
Proof.
  induction edges as [|e edges IH]; [reflexivity|].
  cbn [map filter]. unfold compact in *. cbn [flat_map].
  destruct (to_meta_cases e) as [[E Hid] | (t & m & _ & E & Hid & Ht & _)]; rewrite E.
  - rewrite Hid. cbn [truthy app]. exact IH.
  - rewrite <- Hid, Ht. cbn [app map]. now rewrite IH.
Qed.

End Items.

Module Item_facts.
Import Items.

(** What either mapper gives for an edge is a complete item: its id is
    the title id of the edge and is not empty, its name is not empty, its
    type is "movie" or "series" and its poster shape is "poster". *)
Theorem item_complete edge m :
  V20.to_meta edge = Some m \/ V24.buildMeta edge = Returned (Some m) ->
  Meta.id m = edge_id edge
  /\ truthy (Meta.id m) = true
  /\ truthy (Meta.name m) = true
  /\ (Meta.type m = js "movie" \/ Meta.type m = js "series")
  /\ Meta.posterShape m = js "poster".
Proof.
  intros H.
  assert (H20 : V20.to_meta edge = Some (without_genres m) \/ V20.to_meta edge = Some m).
  { destruct H as [H | H]; [now right|]. left.
    now rewrite (buildMeta_to_meta _ _ H). }
  assert (exists m', V20.to_meta edge = Some m'
                     /\ Meta.id m' = Meta.id m /\ Meta.name m' = Meta.name m
                     /\ Meta.type m' = Meta.type m
                     /\ Meta.posterShape m' = Meta.posterShape m)
    as (m' & E & <- & <- & <- & <-).
  { destruct H20 as [E | E]; eexists; (split; [exact E|]); repeat split. }
  destruct (to_meta_cases edge) as [[E' _] | (t & m2 & _ & E' & Hid & Hi & Ht & Hn & Hp & _)];
    rewrite E in E'; [discriminate|]. injection E' as <-.
  repeat split; try assumption.
  - rewrite Hn. apply title_name_truthy.
  - rewrite Ht. destruct (series_or_movie_cases t) as [[-> _] | [-> _]]; auto.
Qed.

Lemma item_complete_witness :
  (V20.to_meta Mapper.shawshank
   = Some (without_genres (Catalog_route.item "tt0111161" []))
   \/ V24.buildMeta Mapper.shawshank
      = Returned (Some (without_genres (Catalog_route.item "tt0111161" []))))
  /\ Meta.id (without_genres (Catalog_route.item "tt0111161" []))
     = edge_id Mapper.shawshank.
Proof.
  assert (H : V20.to_meta Mapper.shawshank
              = Some (without_genres (Catalog_route.item "tt0111161" [])))
    by reflexivity.
  split; [left; exact H|].
  exact (proj1 (item_complete _ _ (or_introl H))).
Defined.

(** The type of an item is "series" exactly when the title type of its
    edge is [tvSeries] or [tvMiniSeries]; any other title type, or none,
    gives "movie". *)
Theorem series_iff_tv edge t m :
  Gql.node edge ?. Gql.title = Some t ->
  V20.to_meta edge = Some m \/ V24.buildMeta edge = Returned (Some m) ->
  (Meta.type m = js "series" <->
   Gql.titleType t ?. Gql.titleType_id = Some (js "tvSeries")
   \/ Gql.titleType t ?. Gql.titleType_id = Some (js "tvMiniSeries"))
  /\ (Meta.type m <> js "series" -> Meta.type m = js "movie").
Proof.
  intros Ht H.
  assert (Hty : Meta.type m = series_or_movie t).
  { destruct (to_meta_cases edge) as [[E _] | (t' & m' & Ht' & E & _ & _ & Hty & _)].
    - destruct H as [H | H]; [congruence|].
      rewrite (buildMeta_to_meta _ _ H) in E. discriminate.
    - rewrite Ht in Ht'. injection Ht' as <-.
      destruct H as [H | H]; [congruence|].
      rewrite (buildMeta_to_meta _ _ H) in E. injection E as <-. exact Hty. }
  rewrite Hty.
  destruct (series_or_movie_cases t) as [[-> Hs] | [-> [H1 H2]]]; split.
  - tauto.
  - congruence.
  - split; [discriminate | tauto].
  - reflexivity.
Qed.

Definition mini_series : Gql.Title :=
  {| Gql.id := Some (js "tt0185906");
     Gql.titleType := Some {| Gql.titleType_id := Some (js "tvMiniSeries") |};
     Gql.titleText := Some {| Gql.text := Some (js "Band of Brothers") |};
     Gql.originalTitleText := None;
     Gql.primaryImage := None;
     Gql.releaseYear := None;
     Gql.titleGenres := None;
     Gql.ratingsSummary := None |}.

Lemma series_iff_tv_witness :
  (Gql.node (Mapper.edge_with mini_series) ?. Gql.title = Some mini_series)
  /\ exists m,
       V24.buildMeta (Mapper.edge_with mini_series) = Returned (Some m)
       /\ Meta.type m = js "series".
Proof.
  split; [reflexivity|]. eexists. split; [reflexivity|].
  apply (proj1 (series_iff_tv (Mapper.edge_with mini_series) mini_series _
                  eq_refl (or_intror eq_refl))).
  right. reflexivity.
Defined.

(** When [buildMeta] throws on no edge of a list, the items of revision
    2.0.0 for that list are those of revision 2.4.0 without their genres,
    in the same order. *)
Theorem mappers_agree edges built :
  map_outcome V24.buildMeta edges = Returned built ->
  compact (map V20.to_meta edges) = map without_genres (compact built).
Proof.
  intros H. rewrite (built_to_meta _ _ H). apply compact_map_option.
Qed.

Definition no_title : Gql.Edge := {| Gql.node := Some {| Gql.title := None |} |}.

Lemma mappers_agree_witness :
  map_outcome V24.buildMeta [Mapper.shawshank; no_title]
  = Returned [Some (Catalog_route.item "tt0111161" [js "Drama"; js "Crime"; js "Drama"]);
              None]
  /\ compact (map V20.to_meta [Mapper.shawshank; no_title])
     = [without_genres (Catalog_route.item "tt0111161" [])].
Proof.
  assert (H : map_outcome V24.buildMeta [Mapper.shawshank; no_title]
              = Returned [Some (Catalog_route.item "tt0111161"
                                  [js "Drama"; js "Crime"; js "Drama"]); None])
    by reflexivity.
  split; [exact H|]. exact (mappers_agree _ _ H).
Defined.

(** The items keep the order of the edges, and the edges left out are
    those without a title id: the ids of the items are the non-empty title
    ids of the edges, in order. *)
Theorem items_in_order edges :
  map Meta.id (compact (map V20.to_meta edges)) = filter truthy (map edge_id edges)
  /\ forall built,
       map_outcome V24.buildMeta edges = Returned built ->
       map Meta.id (compact built) = filter truthy (map edge_id edges).
Proof.
  split; [apply to_meta_ids|].
  intros built H. rewrite <- to_meta_ids, (built_to_meta _ _ H), compact_map_option.
  rewrite map_map. reflexivity.
Qed.

Lemma items_in_order_witness :
  map_outcome V24.buildMeta [no_title; Mapper.shawshank; Mapper.edge_with mini_series]
  = Returned [None;
              Some (Catalog_route.item "tt0111161" [js "Drama"; js "Crime"; js "Drama"]);
              Some {| Meta.id := js "tt0185906";
                      Meta.type := js "series";
                      Meta.name := js "Band of Brothers";
                      Meta.poster := [];
                      Meta.year := None;
                      Meta.genres := Some [];
                      Meta.posterShape := js "poster";
                      Meta.imdbRating := None |}]
  /\ map Meta.id
       (compact (map V20.to_meta
                   [no_title; Mapper.shawshank; Mapper.edge_with mini_series]))
     = [js "tt0111161"; js "tt0185906"].
Proof.
  split; [reflexivity|].
  exact (proj1 (items_in_order
                  [no_title; Mapper.shawshank; Mapper.edge_with mini_series])).
Defined.

End Item_facts.

Module Catalog_cases.

Lemma by_genre_incl lc extras metas m :
  In m (by_genre lc extras metas) -> In m metas.
Proof.
  unfold by_genre. destruct (get_property _ extras) as [g|]; [|auto].
  destruct (truthy g); [|auto]. intros H. now apply filter_In in H.
Qed.

Lemma has_type_eq type m : has_type type m = true <-> type = Some (Meta.type m).
Proof.
  unfold has_type. destruct type as [ty|]; [|split; discriminate].
  rewrite str_eqb_eq. split; congruence.
Qed.

Lemma built_types edges built m :
  map_outcome V24.buildMeta edges = Returned built ->
  In m (compact built) ->
  Meta.type m = js "movie" \/ Meta.type m = js "series".
Proof.
  revert built. induction edges as [|e edges IH]; intros built; cbn [map_outcome].
  - intros H. injection H as <-. intros [].
  - destruct (V24.buildMeta e) as [o|x] eqn:E; [|discriminate].
    destruct (map_outcome V24.buildMeta edges) as [bs|x]; [|discriminate].
    intros H. injection H as <-. unfold compact. cbn [flat_map].
    rewrite in_app_iff. intros [Hm | Hm]; [|now apply (IH bs)].
    destruct o as [m'|]; [|destruct Hm]. destruct Hm as [->|[]].
    pose proof (Items.buildMeta_to_meta _ _ E) as E20. cbn in E20.
    destruct (Items.to_meta_cases e) as [[E' _] | (t & m2 & _ & E' & _ & _ & Ht & _)];
      rewrite E20 in E'; [discriminate|]. injection E' as <-. cbn in Ht.
    rewrite Ht. destruct (Items.series_or_movie_cases t) as [[-> _] | [-> _]]; auto.
Qed.

Lemma filter_none {A} (f : A -> bool) l :
  (forall x, In x l -> f x = false) -> filter f l = [].
Proof.
  induction l as [|a l IH]; intros H; [reflexivity|]. cbn.
  rewrite (H a (or_introl eq_refl)). apply IH. intros x Hx. apply H. now right.
Qed.

(** A catalog request of revision 2.4.0 that fails, in the fetch, in
    reading the edges of the answer or in mapping one of them, is answered
    503 with the message of the exception and with no item at all; so is a
    request of revision 2.0.0 whose [scrape] fails. *)
Theorem catalog_failure lc net req id t e t' :
  method req <> js "OPTIONS" ->
  startsWith (js "/catalog/") (tail_of (pathname req)) = true ->
  nth_error (split ch_slash (tail_of (pathname req))) 3 = Some id ->
  truthy (cookie_of (hash_of (pathname req))) = true ->
  (startsWith (js "imdb-top-picks") id = true ->
   built_items net (cookie_of (hash_of (pathname req))) t = (Thrown e, t') ->
   V24.handler lc net req t = (Returned (failure_answer e), t'))
  /\ (id = js "imdb-top-picks.json" ->
      V20.scrape net (cookie_of (hash_of (pathname req))) t = (Thrown e, t') ->
      V20.handler net req t = (Returned (failure_answer e), t')).
Proof.
  intros Hm Ht Hid Hc. split.
  - intros Hpre Hb. rewrite (V24_catalog_route lc net req id Hm Ht Hid Hc t Hpre).
    now rewrite Hb.
  - intros Hfile Hs. rewrite (V20_catalog_route net req id Hm Ht Hid Hc t Hfile).
    now rewrite Hs.
Qed.

(** The second edge has a genre entry without a [genre] object. *)
Definition half_broken : Gql.Payload :=
  {| Gql.data :=
       Some {| Gql.titleRecommendations :=
                 Some {| Gql.edges :=
                           Some [ Mapper.shawshank;
                                  Mapper.edge_with
                                    (Mapper.title_with "tt0000002"
                                       [ {| Gql.genre := None |} ]) ] |} |};
     Gql.errors := None |}.

Definition movies : request := GET "/YT1i/catalog/movie/imdb-top-picks.json".

Lemma catalog_failure_witness :
  (method movies <> js "OPTIONS"
   /\ startsWith (js "/catalog/") (tail_of (pathname movies)) = true
   /\ nth_error (split ch_slash (tail_of (pathname movies))) 3
      = Some (js "imdb-top-picks.json")
   /\ truthy (cookie_of (hash_of (pathname movies))) = true
   /\ built_items (fun _ => Resolved (Some half_broken))
        (cookie_of (hash_of (pathname movies))) []
      = (Thrown (TypeError (js "text")), [js "a=b"]))
  /\ V24.handler ascii_toLowerCase (fun _ => Resolved (Some half_broken)) movies []
     = (Returned (send (Obj (ErrorObject (ByEngine (js "text")))) application_json 503),
        [js "a=b"]).
Proof.
  assert (H1 : method movies <> js "OPTIONS") by (vm_compute; discriminate).
  assert (H2 : startsWith (js "/catalog/") (tail_of (pathname movies)) = true)
    by reflexivity.
  assert (H3 : nth_error (split ch_slash (tail_of (pathname movies))) 3
               = Some (js "imdb-top-picks.json")) by reflexivity.
  assert (H4 : truthy (cookie_of (hash_of (pathname movies))) = true) by reflexivity.
  assert (H5 : built_items (fun _ => Resolved (Some half_broken))
                 (cookie_of (hash_of (pathname movies))) []
               = (Thrown (TypeError (js "text")), [js "a=b"])) by reflexivity.
  split; [repeat split; assumption|].
  exact (proj1 (catalog_failure ascii_toLowerCase _ movies _ [] _ _ H1 H2 H3 H4)
           eq_refl H5).
Defined.

(** A catalog request that succeeds is answered 200 with items of the
    requested type only, whatever the extras; since every item is a movie
    or a series, a request for any other type gets the empty list.  Without
    a [genre] extra revision 2.4.0 gives all the items of the type. *)
Theorem catalog_success lc net req id ty t built t' :
  method req <> js "OPTIONS" ->
  startsWith (js "/catalog/") (tail_of (pathname req)) = true ->
  nth_error (split ch_slash (tail_of (pathname req))) 2 = Some ty ->
  nth_error (split ch_slash (tail_of (pathname req))) 3 = Some id ->
  startsWith (js "imdb-top-picks") id = true ->
  truthy (cookie_of (hash_of (pathname req))) = true ->
  built_items net (cookie_of (hash_of (pathname req))) t = (Returned built, t') ->
  exists metas,
    V24.handler lc net req t = (Returned (metas_answer metas), t')
    /\ (forall m, In m metas -> In m (compact built) /\ Meta.type m = ty)
    /\ (ty <> js "movie" -> ty <> js "series" -> metas = [])
    /\ (get_property (js "genre")
          (V24.parseExtrasFromPath (tail_of (pathname req))) = None ->
        metas = filter (fun m => str_eqb (Meta.type m) ty) (compact built)).
Proof.
  intros Hm Ht Hty Hid Hpre Hc Hb.
  rewrite (V24_catalog_route lc net req id Hm Ht Hid Hc t Hpre), Hb, Hty.
  eexists. split; [reflexivity|].
  assert (Hin : forall m,
             In m (by_genre lc (V24.parseExtrasFromPath (tail_of (pathname req)))
                     (filter (has_type (Some ty)) (compact built))) ->
             In m (compact built) /\ Meta.type m = ty).
  { intros m H. apply by_genre_incl, filter_In in H. destruct H as [H1 H2].
    apply has_type_eq in H2. split; congruence. }
  split; [exact Hin|]. split.
  - intros N1 N2.
    destruct (by_genre _ _ _) as [|m l] eqn:E; [reflexivity|]. exfalso.
    destruct (Hin m (or_introl eq_refl)) as [H1 H2].
    unfold built_items, bind, lift in Hb.
    destruct (V24.fetchImdbData _ _ _) as [[d|x] t1]; [|discriminate].
    destruct (V24.edges_or_throw d) as [edges|x]; [|discriminate].
    destruct (map_outcome V24.buildMeta edges) as [b|x] eqn:Eb; [|discriminate].
    injection Hb as <- <-.
    destruct (built_types _ _ _ Eb H1); congruence.
  - intros Hg. unfold by_genre. rewrite Hg. reflexivity.
Qed.

Definition shorts : request := GET "/YT1i/catalog/short/imdb-top-picks.json".

Lemma catalog_success_witness :
  (method shorts <> js "OPTIONS"
   /\ startsWith (js "/catalog/") (tail_of (pathname shorts)) = true
   /\ nth_error (split ch_slash (tail_of (pathname shorts))) 2 = Some (js "short")
   /\ nth_error (split ch_slash (tail_of (pathname shorts))) 3
      = Some (js "imdb-top-picks.json")
   /\ truthy (cookie_of (hash_of (pathname shorts))) = true)
  /\ V24.handler ascii_toLowerCase
       (fun _ => Resolved (Some Catalog_route.action_and_drama)) shorts []
     = (Returned (metas_answer []), [js "a=b"]).
Proof.
  assert (H1 : method shorts <> js "OPTIONS") by (vm_compute; discriminate).
  assert (H2 : startsWith (js "/catalog/") (tail_of (pathname shorts)) = true)
    by reflexivity.
  assert (H3 : nth_error (split ch_slash (tail_of (pathname shorts))) 2
               = Some (js "short")) by reflexivity.
  assert (H4 : nth_error (split ch_slash (tail_of (pathname shorts))) 3
               = Some (js "imdb-top-picks.json")) by reflexivity.
  assert (H5 : truthy (cookie_of (hash_of (pathname shorts))) = true) by reflexivity.
  split; [repeat split; assumption|].
  destruct (catalog_success ascii_toLowerCase
              (fun _ => Resolved (Some Catalog_route.action_and_drama))
              shorts _ _ [] _ _ H1 H2 H3 H4 eq_refl H5 eq_refl)
    as (metas & E & _ & Hnone & _).
  rewrite E. rewrite (Hnone ltac:(vm_compute; discriminate) ltac:(vm_compute; discriminate)).
  reflexivity.
Defined.

End Catalog_cases.

Module Edge_cases.

Lemma by_genre_nil lc extras : by_genre lc extras [] = [].
Proof.
  unfold by_genre. destruct (get_property _ extras) as [g|]; [|reflexivity].
  destruct (truthy g); reflexivity.
Qed.

(** An answer of the endpoint with no edge and no error list: revision
    2.0.0 answers the catalog request 503 "No Top Picks found for this
    account.", revision 2.4.0 answers it 200 with an empty list provided the
    answer has its [titleRecommendations] object. *)
Theorem nothing_recommended lc net req id t data :
  method req <> js "OPTIONS" ->
  startsWith (js "/catalog/") (tail_of (pathname req)) = true ->
  nth_error (split ch_slash (tail_of (pathname req))) 3 = Some id ->
  truthy (cookie_of (hash_of (pathname req))) = true ->
  net (cookie_of (hash_of (pathname req))) = Resolved data ->
  or_nil (edges_of data) = [] ->
  data ?. Gql.errors = None ->
  (id = js "imdb-top-picks.json" ->
   V20.handler net req t
   = (Returned (failure_answer (Error (js "No Top Picks found for this account."))),
      t ++ [cookie_of (hash_of (pathname req))]))
  /\ (startsWith (js "imdb-top-picks") id = true ->
      data ?. Gql.data ?. Gql.titleRecommendations <> None ->
      V24.handler lc net req t
      = (Returned (metas_answer []), t ++ [cookie_of (hash_of (pathname req))])).
Proof.
  intros Hm Ht Hid Hc Hnet He Herr. split.
  - intros Hfile. rewrite (V20_catalog_route net req id Hm Ht Hid Hc t Hfile).
    unfold V20.scrape, axios_post. rewrite Hnet, He, Herr. reflexivity.
  - intros Hpre Hrec. rewrite (V24_catalog_route lc net req id Hm Ht Hid Hc t Hpre).
    unfold built_items, bind, lift, V24.fetchImdbData, axios_post.
    rewrite Hnet, He, Herr.
    assert (E : V24.edges_or_throw data = Returned []).
    { unfold edges_of in He. unfold V24.edges_or_throw.
      destruct data as [p|]; [|now elim Hrec]. cbn [chain] in *.
      destruct (Gql.data p) as [d|]; [|now elim Hrec]. cbn [chain] in *.
      destruct (Gql.titleRecommendations d) as [r|]; [|now elim Hrec].
      cbn [chain] in He. now rewrite He. }
    rewrite E. cbn [map_outcome compact flat_map filter].
    now rewrite by_genre_nil.
Qed.

Definition no_edges : Gql.Payload :=
  {| Gql.data := Some {| Gql.titleRecommendations := Some {| Gql.edges := Some [] |} |};
     Gql.errors := None |}.

Lemma nothing_recommended_witness :
  (method Catalog_cases.movies <> js "OPTIONS"
   /\ startsWith (js "/catalog/") (tail_of (pathname Catalog_cases.movies)) = true
   /\ nth_error (split ch_slash (tail_of (pathname Catalog_cases.movies))) 3
      = Some (js "imdb-top-picks.json")
   /\ truthy (cookie_of (hash_of (pathname Catalog_cases.movies))) = true
   /\ or_nil (edges_of (Some no_edges)) = []
   /\ Some no_edges ?. Gql.errors = None)
  /\ V20.handler (fun _ => Resolved (Some no_edges)) Catalog_cases.movies []
     = (Returned (failure_answer (Error (js "No Top Picks found for this account."))),
        [js "a=b"])
  /\ V24.handler ascii_toLowerCase (fun _ => Resolved (Some no_edges))
       Catalog_cases.movies []
     = (Returned (metas_answer []), [js "a=b"]).
Proof.
  assert (H1 : method Catalog_cases.movies <> js "OPTIONS")
    by (vm_compute; discriminate).
  assert (H2 : startsWith (js "/catalog/")
                 (tail_of (pathname Catalog_cases.movies)) = true) by reflexivity.
  assert (H3 : nth_error (split ch_slash (tail_of (pathname Catalog_cases.movies))) 3
               = Some (js "imdb-top-picks.json")) by reflexivity.
  assert (H4 : truthy (cookie_of (hash_of (pathname Catalog_cases.movies))) = true)
    by reflexivity.
  assert (H5 : or_nil (edges_of (Some no_edges)) = []) by reflexivity.
  assert (H6 : Some no_edges ?. Gql.errors = None) by reflexivity.
  split; [repeat split; assumption|].
  destruct (nothing_recommended ascii_toLowerCase (fun _ => Resolved (Some no_edges))
              Catalog_cases.movies _ [] _ H1 H2 H3 H4 eq_refl H5 H6) as [H20 H24].
  split; [exact (H20 eq_refl) | apply (H24 eq_refl); discriminate].
Defined.

(** An answer that has edges is not turned down for the errors it also
    carries: [fetchImdbData] returns it as it is.  Revision 2.0.0 answers
    the catalog request 200 with the items of the edges.  Revision 2.4.0
    answers 200 with the items of the edges, unless [buildMeta] throws on
    one of them: then it answers 503 with the message of that exception,
    not with the errors of the endpoint. *)
Theorem errors_beside_edges lc net req id t data e es :
  method req <> js "OPTIONS" ->
  startsWith (js "/catalog/") (tail_of (pathname req)) = true ->
  nth_error (split ch_slash (tail_of (pathname req))) 3 = Some id ->
  truthy (cookie_of (hash_of (pathname req))) = true ->
  net (cookie_of (hash_of (pathname req))) = Resolved data ->
  edges_of data = Some (e :: es) ->
  V24.fetchImdbData net (cookie_of (hash_of (pathname req))) t
  = (Returned data, t ++ [cookie_of (hash_of (pathname req))])
  /\ (id = js "imdb-top-picks.json" ->
      V20.handler net req t
      = (Returned
           (metas_answer
              (filter (has_type (nth_error (split ch_slash (tail_of (pathname req))) 2))
                 (compact (map V20.to_meta (e :: es))))),
         t ++ [cookie_of (hash_of (pathname req))]))
  /\ (startsWith (js "imdb-top-picks") id = true ->
      V24.handler lc net req t
      = (Returned
           match map_outcome V24.buildMeta (e :: es) with
           | Returned built =>
               metas_answer
                 (by_genre lc (V24.parseExtrasFromPath (tail_of (pathname req)))
                    (filter
                       (has_type (nth_error (split ch_slash (tail_of (pathname req))) 2))
                       (compact built)))
           | Thrown x => failure_answer x
           end,
         t ++ [cookie_of (hash_of (pathname req))])).
Proof.
  intros Hm Ht Hid Hc Hnet He.
  assert (Hf : V24.fetchImdbData net (cookie_of (hash_of (pathname req))) t
               = (Returned data, t ++ [cookie_of (hash_of (pathname req))])).
  { unfold V24.fetchImdbData, axios_post. rewrite Hnet, He. reflexivity. }
  split; [exact Hf|]. split.
  - intros Hfile. rewrite (V20_catalog_route net req id Hm Ht Hid Hc t Hfile).
    unfold V20.scrape, axios_post. rewrite Hnet, He. reflexivity.
  - intros Hpre. rewrite (V24_catalog_route lc net req id Hm Ht Hid Hc t Hpre).
    unfold built_items, bind, lift. rewrite Hf.
    assert (E : V24.edges_or_throw data = Returned (e :: es)).
    { unfold edges_of in He. unfold V24.edges_or_throw.
      destruct data as [p|]; [|discriminate]. cbn [chain] in He.
      destruct (Gql.data p) as [d|]; [|discriminate]. cbn [chain] in He.
      destruct (Gql.titleRecommendations d) as [r|]; [|discriminate].
      cbn [chain] in He. now rewrite He. }
    rewrite E. destruct (map_outcome V24.buildMeta (e :: es)); reflexivity.
Qed.

Definition edges_and_errors : Gql.Payload :=
  {| Gql.data :=
       Some {| Gql.titleRecommendations :=
                 Some {| Gql.edges := Some [Mapper.shawshank] |} |};
     Gql.errors := Some [ {| Gql.message := Some (js "Authentication required") |} ] |}.

(** Errors beside two edges, the second of which has a genre entry
    without a [genre] object. *)
Definition broken_edge_and_errors : Gql.Payload :=
  {| Gql.data := Gql.data Catalog_cases.half_broken;
     Gql.errors := Some [ {| Gql.message := Some (js "Authentication required") |} ] |}.

Lemma errors_beside_edges_witness :
  (method Catalog_cases.movies <> js "OPTIONS"
   /\ startsWith (js "/catalog/") (tail_of (pathname Catalog_cases.movies)) = true
   /\ nth_error (split ch_slash (tail_of (pathname Catalog_cases.movies))) 3
      = Some (js "imdb-top-picks.json")
   /\ truthy (cookie_of (hash_of (pathname Catalog_cases.movies))) = true
   /\ edges_of (Some edges_and_errors) = Some [Mapper.shawshank])
  /\ V20.handler (fun _ => Resolved (Some edges_and_errors)) Catalog_cases.movies []
     = (Returned (metas_answer [without_genres (Catalog_route.item "tt0111161" [])]),
        [js "a=b"])
  /\ V24.handler ascii_toLowerCase (fun _ => Resolved (Some edges_and_errors))
       Catalog_cases.movies []
     = (Returned
          (metas_answer
             [Catalog_route.item "tt0111161" [js "Drama"; js "Crime"; js "Drama"]]),
        [js "a=b"])
  /\ V24.handler ascii_toLowerCase (fun _ => Resolved (Some broken_edge_and_errors))
       Catalog_cases.movies []
     = (Returned (failure_answer (TypeError (js "text"))), [js "a=b"]).
Proof.
  assert (H1 : method Catalog_cases.movies <> js "OPTIONS")
    by (vm_compute; discriminate).
  assert (H2 : startsWith (js "/catalog/")
                 (tail_of (pathname Catalog_cases.movies)) = true) by reflexivity.
  assert (H3 : nth_error (split ch_slash (tail_of (pathname Catalog_cases.movies))) 3
               = Some (js "imdb-top-picks.json")) by reflexivity.
  assert (H4 : truthy (cookie_of (hash_of (pathname Catalog_cases.movies))) = true)
    by reflexivity.
  assert (H5 : edges_of (Some edges_and_errors) = Some [Mapper.shawshank])
    by reflexivity.
  split; [repeat split; assumption|].
  destruct (errors_beside_edges ascii_toLowerCase
              (fun _ => Resolved (Some edges_and_errors))
              Catalog_cases.movies _ [] _ _ _ H1 H2 H3 H4 eq_refl H5)
    as (_ & H20 & H24).
  split; [exact (H20 eq_refl)|]. split; [exact (H24 eq_refl)|].
  exact (proj2 (proj2 (errors_beside_edges ascii_toLowerCase
                         (fun _ => Resolved (Some broken_edge_and_errors))
                         Catalog_cases.movies _ [] _ _ _ H1 H2 H3 H4 eq_refl eq_refl))
           eq_refl).
Defined.

End Edge_cases.

Module Manifest_cases.

(** A manifest request whose credential is missing or decodes to the
    empty string gets the manifest as it is written in the source, with the
    base id and, in revision 2.4.0, empty genre options; no call goes out. *)
Theorem manifest_without_cookie lc net req t :
  method req <> js "OPTIONS" ->
  tail_of (pathname req) = js "/manifest.json" ->
  cookie_of (hash_of (pathname req)) = [] ->
  V24.handler lc net req t = (Returned (manifest_answer V24.BASE_MANIFEST), t)
  /\ V20.handler net req t = (Returned (manifest_answer V20.MANIFEST), t).
Proof.
  intros Hm Ht Hc. split.
  - unfold V24.handler. rewrite (Meta_route.not_options _ Hm), Ht, Hc. reflexivity.
  - unfold V20.handler. rewrite (Meta_route.not_options _ Hm), Ht, Hc. reflexivity.
Qed.

Lemma manifest_without_cookie_witness :
  (method (GET "/manifest.json") <> js "OPTIONS"
   /\ tail_of (pathname (GET "/manifest.json")) = js "/manifest.json"
   /\ cookie_of (hash_of (pathname (GET "/manifest.json"))) = [])
  /\ V24.handler ascii_toLowerCase (fun _ => Rejected None None)
       (GET "/manifest.json") []
     = (Returned (manifest_answer V24.BASE_MANIFEST), []).
Proof.
  assert (H1 : method (GET "/manifest.json") <> js "OPTIONS")
    by (vm_compute; discriminate).
  assert (H2 : tail_of (pathname (GET "/manifest.json")) = js "/manifest.json")
    by reflexivity.
  assert (H3 : cookie_of (hash_of (pathname (GET "/manifest.json"))) = [])
    by reflexivity.
  split; [repeat split; assumption|].
  exact (proj1 (manifest_without_cookie ascii_toLowerCase _ _ [] H1 H2 H3)).
Defined.

(** A manifest request of revision 2.4.0 whose fetch fails is still
    answered 200: the manifest has the id with the credential segment and
    empty genre options.  Revision 2.0.0 answers with the suffixed id
    without any call. *)
Theorem manifest_despite_failure lc net req t e t' :
  method req <> js "OPTIONS" ->
  tail_of (pathname req) = js "/manifest.json" ->
  truthy (cookie_of (hash_of (pathname req))) = true ->
  V24.fetchImdbData net (cookie_of (hash_of (pathname req))) t = (Thrown e, t') ->
  V24.handler lc net req t
  = (Returned
       (manifest_answer
          (Manifest_route.manifest_with
             (js "community.imdb-top-picks." ++ hash_of (pathname req)) [])),
     t')
  /\ exists m,
       V20.handler net req t = (Returned (manifest_answer m), t)
       /\ Manifest.id m = js "community.imdb-top-picks." ++ hash_of (pathname req)
       /\ Manifest.catalogs m = Manifest.catalogs V20.MANIFEST.
Proof.
  intros Hm Ht Hc Hf. split.
  - unfold V24.handler. rewrite (Meta_route.not_options _ Hm), Ht.
    change (str_eqb (js "/manifest.json") (js "/")
            || str_eqb (js "/manifest.json") (js "/index.html")) with false.
    change (str_eqb (js "/manifest.json") (js "/manifest.json")) with true.
    cbv iota. rewrite Hc. unfold bind, try_catch, lift, ret. rewrite Hf.
    reflexivity.
  - unfold V20.handler. rewrite (Meta_route.not_options _ Hm), Ht, Hc.
    eexists. split; [reflexivity|]. split; reflexivity.
Qed.

Lemma manifest_despite_failure_witness :
  (method (GET "/YT1i/manifest.json") <> js "OPTIONS"
   /\ tail_of (pathname (GET "/YT1i/manifest.json")) = js "/manifest.json"
   /\ truthy (cookie_of (hash_of (pathname (GET "/YT1i/manifest.json")))) = true
   /\ V24.fetchImdbData (fun _ => Rejected None (Some (js "timeout of 12000ms exceeded")))
        (cookie_of (hash_of (pathname (GET "/YT1i/manifest.json")))) []
      = (Thrown (Error (js "Request to IMDb GraphQL failed:  timeout of 12000ms exceeded")),
         [js "a=b"]))
  /\ V24.handler ascii_toLowerCase
       (fun _ => Rejected None (Some (js "timeout of 12000ms exceeded")))
       (GET "/YT1i/manifest.json") []
     = (Returned
          (manifest_answer
             (Manifest_route.manifest_with (js "community.imdb-top-picks.YT1i") [])),
        [js "a=b"]).
Proof.
  assert (H1 : method (GET "/YT1i/manifest.json") <> js "OPTIONS")
    by (vm_compute; discriminate).
  assert (H2 : tail_of (pathname (GET "/YT1i/manifest.json")) = js "/manifest.json")
    by reflexivity.
  assert (H3 : truthy (cookie_of (hash_of (pathname (GET "/YT1i/manifest.json")))) = true)
    by reflexivity.
  assert (H4 : V24.fetchImdbData
                 (fun _ => Rejected None (Some (js "timeout of 12000ms exceeded")))
                 (cookie_of (hash_of (pathname (GET "/YT1i/manifest.json")))) []
               = (Thrown (Error (js "Request to IMDb GraphQL failed:  timeout of 12000ms exceeded")),
                  [js "a=b"])) by reflexivity.
  split; [repeat split; assumption|].
  exact (proj1 (manifest_despite_failure ascii_toLowerCase _ _ [] _ _ H1 H2 H3 H4)).
Defined.

End Manifest_cases.

(** ** Paths                                                              *)

(** A path segment: not empty and without '/'. *)
Definition segment (w : jsstring) : Prop :=
  truthy w = true /\ includes_char ch_slash w = false.

Lemma split_join sep ws :
  ws <> [] ->
  Forall (fun w => includes_char sep w = false) ws ->
  split sep (join [sep] ws) = ws.
Proof.
  intros Hne H. induction H as [|w ws Hw Hws IH]; [congruence|].
  destruct ws as [|w' r].
  - cbn [join]. now apply split_last.
  - change (join [sep] (w :: w' :: r)) with (w ++ sep :: join [sep] (w' :: r)).
    rewrite split_word by assumption. rewrite IH by discriminate. reflexivity.
Qed.

Lemma filter_truthy_segments ws : Forall segment ws -> filter truthy ws = ws.
Proof.
  induction 1 as [|w ws [Hw _] _ IH]; [reflexivity|]. cbn. now rewrite Hw, IH.
Qed.

Lemma segments_no_slash ws :
  Forall segment ws -> Forall (fun w => includes_char ch_slash w = false) ws.
Proof. apply Forall_impl. now intros w [_ H]. Qed.

(** The segments of the path made of the segments [ws]. *)
Lemma segments_join ws :
  ws <> [] -> Forall segment ws -> segments (js "/" ++ join (js "/") ws) = ws.
Proof.
  intros Hne H. unfold segments.
  change (js "/" ++ join (js "/") ws) with ([] ++ ch_slash :: join [ch_slash] ws).
  rewrite split_word by reflexivity.
  rewrite split_join by (auto using segments_no_slash).
  cbn [filter truthy]. now apply filter_truthy_segments.
Qed.

Module Paths.

Lemma read_path h ws :
  segment h -> includes_char ch_dot h = false -> Forall segment ws ->
  hash_of (js "/" ++ join (js "/") (h :: ws)) = h
  /\ tail_of (js "/" ++ join (js "/") (h :: ws)) = js "/" ++ join (js "/") ws
  /\ (ws <> [] ->
      split ch_slash (tail_of (js "/" ++ join (js "/") (h :: ws))) = [] :: ws).
Proof.
  intros Hh Hdot Hws.
  assert (Hs : segments (js "/" ++ join (js "/") (h :: ws)) = h :: ws)
    by (apply segments_join; [discriminate | now constructor]).
  assert (E1 : hash_of (js "/" ++ join (js "/") (h :: ws)) = h).
  { unfold hash_of. rewrite Hs. destruct Hh as [Hh _]. now rewrite Hh, Hdot. }
  assert (E2 : tail_of (js "/" ++ join (js "/") (h :: ws)) = js "/" ++ join (js "/") ws).
  { unfold tail_of. rewrite E1, Hs. destruct Hh as [Hh _]. now rewrite Hh. }
  split; [exact E1|]. split; [exact E2|].
  intros Hne. rewrite E2.
  change (js "/" ++ join (js "/") ws) with ([] ++ ch_slash :: join [ch_slash] ws).
  rewrite split_word by reflexivity.
  now rewrite split_join by (auto using segments_no_slash).
Qed.

(** A path whose first segment has no dot is read as credential and
    route: the first segment is the credential, the route is made of the
    other segments, empty segments apart, and the pieces of the route that
    the handlers index are those segments. *)
Theorem credential_and_route h ws :
  segment h -> includes_char ch_dot h = false -> Forall segment ws ->
  hash_of (js "/" ++ join (js "/") (h :: ws)) = h
  /\ tail_of (js "/" ++ join (js "/") (h :: ws)) = js "/" ++ join (js "/") ws
  /\ (ws <> [] ->
      split ch_slash (tail_of (js "/" ++ join (js "/") (h :: ws))) = [] :: ws)
  /\ tail_of (js "//" ++ join (js "//") (h :: ws)) = js "/" ++ join (js "/") ws.
Proof.
  intros Hh Hdot Hws.
  destruct (read_path h ws Hh Hdot Hws) as (E1 & E2 & E3).
  repeat split; try assumption.
  assert (Hs : segments (js "//" ++ join (js "//") (h :: ws)) = h :: ws).
  { unfold segments.
    assert (G : forall l, Forall segment l -> l <> [] ->
                  filter truthy (split ch_slash (join (js "//") l)) = l).
    { induction 1 as [|w l [Hw Hn] Hl IH]; [congruence|]. intros _.
      destruct l as [|w' r].
      - cbn [join]. rewrite split_last by assumption. cbn. now rewrite Hw.
      - change (join (js "//") (w :: w' :: r))
          with (w ++ ch_slash :: [] ++ ch_slash :: join (js "//") (w' :: r)).
        rewrite split_word by assumption. rewrite split_word by reflexivity.
        cbn [filter truthy]. rewrite Hw. f_equal. apply IH. discriminate. }
    change (js "//" ++ join (js "//") (h :: ws))
      with ([] ++ ch_slash :: [] ++ ch_slash :: join (js "//") (h :: ws)).
    rewrite split_word by reflexivity. rewrite split_word by reflexivity.
    cbn [filter truthy]. apply G; [now constructor | discriminate]. }
  unfold tail_of, hash_of. rewrite Hs. destruct Hh as [Hh _]. rewrite Hh, Hdot.
  cbn [andb negb truthy tl]. now rewrite Hh.
Qed.

Lemma credential_and_route_witness :
  (segment (js "YT1i") /\ includes_char ch_dot (js "YT1i") = false
   /\ Forall segment [js "catalog"; js "movie"; js "imdb-top-picks.json"])
  /\ tail_of (js "/YT1i/catalog/movie/imdb-top-picks.json")
     = js "/catalog/movie/imdb-top-picks.json".
Proof.
  assert (H1 : segment (js "YT1i")) by (split; reflexivity).
  assert (H2 : includes_char ch_dot (js "YT1i") = false) by reflexivity.
  assert (H3 : Forall segment [js "catalog"; js "movie"; js "imdb-top-picks.json"])
    by (repeat constructor).
  split; [repeat split; assumption|].
  exact (proj1 (proj2 (credential_and_route _ _ H1 H2 H3))).
Defined.

Lemma meta_taken_for_hash p :
  startsWith (js "/meta/") p = true -> hash_of p = js "meta".
Proof.
  intros H. apply startsWith_app in H. destruct H as [r ->].
  unfold hash_of, segments.
  change (js "/meta/" ++ r) with ([] ++ ch_slash :: js "meta" ++ ch_slash :: r).
  rewrite split_word by reflexivity.
  rewrite split_word by reflexivity.
  reflexivity.
Qed.

Definition page_answer : response := send PAGE (js "text/html") 200.

(** A path without a credential segment reaches the page, the manifest
    or "Not found" only, and no call goes out: a path that opens with
    [/catalog/] or [/meta/] has that word taken for the credential, so the
    catalog and meta branches are never entered without one. *)
Theorem routes_without_credential lc net req t :
  method req <> js "OPTIONS" ->
  hash_of (pathname req) = [] ->
  (V24.handler lc net req t = (Returned page_answer, t)
   \/ V24.handler lc net req t = (Returned (manifest_answer V24.BASE_MANIFEST), t)
   \/ V24.handler lc net req t = (Returned not_found, t))
  /\ (V20.handler net req t = (Returned page_answer, t)
      \/ V20.handler net req t = (Returned (manifest_answer V20.MANIFEST), t)
      \/ V20.handler net req t = (Returned not_found, t)).
Proof.
  intros Hm Hh.
  assert (Ht : tail_of (pathname req) = pathname req)
    by (unfold tail_of; now rewrite Hh).
  assert (Hc : startsWith (js "/catalog/") (pathname req) = false).
  { destruct (startsWith (js "/catalog/") (pathname req)) eqn:E; [|reflexivity].
    apply catalog_taken_for_hash in E. rewrite E in Hh. discriminate. }
  assert (Hmeta : startsWith (js "/meta/") (pathname req) = false).
  { destruct (startsWith (js "/meta/") (pathname req)) eqn:E; [|reflexivity].
    apply meta_taken_for_hash in E. rewrite E in Hh. discriminate. }
  unfold V24.handler, V20.handler.
  rewrite (Meta_route.not_options _ Hm), Ht, Hh, Hc, Hmeta.
  destruct (str_eqb (pathname req) (js "/")
            || str_eqb (pathname req) (js "/index.html"));
    [split; left; reflexivity|].
  destruct (str_eqb (pathname req) (js "/manifest.json")); split; auto.
Qed.

Lemma routes_without_credential_witness :
  (method (GET "/a.b/meta/movie/tt0111161.json") <> js "OPTIONS"
   /\ hash_of (pathname (GET "/a.b/meta/movie/tt0111161.json")) = [])
  /\ V24.handler ascii_toLowerCase (fun _ => Rejected None None)
       (GET "/a.b/meta/movie/tt0111161.json") []
     = (Returned not_found, []).
Proof.
  assert (H1 : method (GET "/a.b/meta/movie/tt0111161.json") <> js "OPTIONS")
    by (vm_compute; discriminate).
  assert (H2 : hash_of (pathname (GET "/a.b/meta/movie/tt0111161.json")) = [])
    by reflexivity.
  split; [split; [exact H1 | exact H2]|].
  destruct (proj1 (routes_without_credential ascii_toLowerCase
                     (fun _ => Rejected None None) _ [] H1 H2)) as [H | [H | H]];
    [vm_compute in H; discriminate | vm_compute in H; discriminate | exact H].
Defined.

End Paths.

(** ** The credential in the path                                         *)

Module Credential_path.
Import b64url_facts.

Lemma url_safe_segment h : h <> [] -> Forall url_safe h ->
  segment h /\ includes_char ch_dot h = false.
Proof.
  intros Hne H. split; [split|].
  - destruct h; [congruence | reflexivity].
  - unfold includes_char. clear Hne. induction H as [|c h Hc _ IH]; [reflexivity|].
    cbn [existsb]. rewrite IH, orb_false_r. apply Z.eqb_neq.
    unfold url_safe, ch_slash, ch_minus, ch_underscore in *. lia.
  - unfold includes_char. clear Hne. induction H as [|c h Hc _ IH]; [reflexivity|].
    cbn [existsb]. rewrite IH, orb_false_r. apply Z.eqb_neq.
    unfold url_safe, ch_dot, ch_minus, ch_underscore in *. lia.
Qed.

Lemma encode_not_empty x :
  js_string x -> Utf16.well_formed x = true -> x <> [] -> b64url.encode x <> [].
Proof.
  intros Hs Hw Hne E. apply Hne.
  rewrite <- (decode_encode_well_formed x Hs Hw), E. reflexivity.
Qed.

Lemma encoded_path x ws :
  js_string x -> Utf16.well_formed x = true -> x <> [] ->
  Forall segment ws ->
  hash_of (js "/" ++ join (js "/") (b64url.encode x :: ws)) = b64url.encode x
  /\ tail_of (js "/" ++ join (js "/") (b64url.encode x :: ws))
     = js "/" ++ join (js "/") ws
  /\ cookie_of (hash_of (js "/" ++ join (js "/") (b64url.encode x :: ws))) = x.
Proof.
  intros Hs Hw Hne Hws.
  destruct (encode_url_safe x Hs) as [_ Hsafe].
  destruct (url_safe_segment _ (encode_not_empty x Hs Hw Hne) Hsafe) as [Hseg Hdot].
  assert (Hsegs : segments (js "/" ++ join (js "/") (b64url.encode x :: ws))
                  = b64url.encode x :: ws)
    by (apply segments_join; [discriminate | now constructor]).
  assert (E1 : hash_of (js "/" ++ join (js "/") (b64url.encode x :: ws))
               = b64url.encode x).
  { unfold hash_of. rewrite Hsegs. destruct Hseg as [Ht _]. now rewrite Ht, Hdot. }
  split; [exact E1|]. split.
  - unfold tail_of. rewrite E1, Hsegs. destruct Hseg as [Ht _]. now rewrite Ht.
  - rewrite E1. unfold cookie_of. destruct Hseg as [Ht _]. rewrite Ht.
    now apply decode_encode_well_formed.
Qed.

(** The add-on address made from a cookie leads back to that cookie.  For
    a well-formed, non-empty cookie [x] and any route, the path
    [/<b64url.encode x>/<route>] is read as the credential [b64url.encode x]
    and that route, the decoded cookie is [x], and the manifest request of
    revision 2.4.0 posts exactly [x] as its [Cookie] header. *)
Theorem cookie_through_path lc net x ws t :
  js_string x -> Utf16.well_formed x = true -> x <> [] ->
  Forall segment ws ->
  let path := js "/" ++ join (js "/") (b64url.encode x :: ws) in
  hash_of path = b64url.encode x
  /\ tail_of path = js "/" ++ join (js "/") ws
  /\ cookie_of (hash_of path) = x
  /\ (ws = [js "manifest.json"] ->
      snd (V24.handler lc net {| method := js "GET"; pathname := path |} t)
      = t ++ [x]).
Proof.
  intros Hs Hw Hne Hws path.
  destruct (encoded_path x ws Hs Hw Hne Hws) as (E1 & E2 & E3). fold path in E1, E2, E3.
  repeat split; try assumption.
  intros ->. unfold V24.handler. cbn [method pathname].
  change (str_eqb (js "GET") (js "OPTIONS")) with false. cbv iota.
  rewrite E2, E3.
  change (str_eqb (js "/" ++ join (js "/") [js "manifest.json"]) (js "/")
          || str_eqb (js "/" ++ join (js "/") [js "manifest.json"]) (js "/index.html"))
    with false.
  change (str_eqb (js "/" ++ join (js "/") [js "manifest.json"]) (js "/manifest.json"))
    with true.
  cbv iota.
  replace (truthy x) with true by (destruct x; [congruence | reflexivity]).
  pose proof (fetchImdbData_calls net x t) as Hc.
  unfold bind, try_catch, lift, ret.
  destruct (V24.fetchImdbData net x t) as [[d|e] t1]; cbn [snd] in Hc; subst t1;
    reflexivity.
Qed.

Lemma cookie_through_path_witness :
  (js_string (js "session-id=1; uu=z") /\ Utf16.well_formed (js "session-id=1; uu=z") = true
   /\ js "session-id=1; uu=z" <> []
   /\ Forall segment [js "manifest.json"])
  /\ cookie_of (hash_of (js "/" ++ join (js "/")
                           (b64url.encode (js "session-id=1; uu=z")
                            :: [js "manifest.json"])))
     = js "session-id=1; uu=z".
Proof.
  assert (H1 : js_string (js "session-id=1; uu=z"))
    by (unfold js_string, code_unit; cbn; repeat constructor; lia).
  assert (H2 : Utf16.well_formed (js "session-id=1; uu=z") = true) by reflexivity.
  assert (H3 : js "session-id=1; uu=z" <> []) by discriminate.
  assert (H4 : Forall segment [js "manifest.json"]) by (repeat constructor).
  split; [repeat split; assumption|].
  exact (proj1 (proj2 (proj2 (cookie_through_path ascii_toLowerCase
                                (fun _ => Rejected None None)
                                _ _ [] H1 H2 H3 H4)))).
Defined.

(** Two well-formed cookies with the same credential segment are the same
    cookie, so different cookies get different manifest ids. *)
Theorem encode_injective x y :
  js_string x -> Utf16.well_formed x = true ->
  js_string y -> Utf16.well_formed y = true ->
  b64url.encode x = b64url.encode y -> x = y.
Proof.
  intros Hx Wx Hy Wy E.
  rewrite <- (decode_encode_well_formed x Hx Wx),
          <- (decode_encode_well_formed y Hy Wy), E.
  reflexivity.
Qed.

Lemma encode_injective_witness :
  (js_string (js "a=b") /\ Utf16.well_formed (js "a=b") = true
   /\ b64url.encode (js "a=b") = b64url.encode (js "a=b"))
  /\ js "a=b" = js "a=b".
Proof.
  assert (H1 : js_string (js "a=b"))
    by (unfold js_string, code_unit; cbn; repeat constructor; lia).
  assert (H2 : Utf16.well_formed (js "a=b") = true) by reflexivity.
  assert (H3 : b64url.encode (js "a=b") = b64url.encode (js "a=b")) by reflexivity.
  split; [repeat split; assumption|].
  exact (encode_injective _ _ H1 H2 H1 H2 H3).
Defined.

(** The credential segment of a cookie is made of letters, digits, '-'
    and '_' only, and is not empty when the cookie is not: it has no '/',
    no '.', no '+' and no '=', so that it is one path segment which the
    handlers take for a credential. *)
Theorem segment_alphabet x :
  js_string x ->
  Forall url_safe (b64url.encode x)
  /\ (Utf16.well_formed x = true -> x <> [] ->
      segment (b64url.encode x) /\ includes_char ch_dot (b64url.encode x) = false).
Proof.
  intros Hx. destruct (encode_url_safe x Hx) as [_ Hsafe].
  split; [exact Hsafe|]. intros Hw Hne.
  exact (url_safe_segment _ (encode_not_empty x Hx Hw Hne) Hsafe).
Qed.

Lemma segment_alphabet_witness :
  js_string [233; 0x20AC; 63; 62; 126]
  /\ b64url.encode [233; 0x20AC; 63; 62; 126] = js "w6nigqw_Pn4"
  /\ Forall url_safe (js "w6nigqw_Pn4").
Proof.
  assert (H : js_string [233; 0x20AC; 63; 62; 126])
    by (unfold js_string, code_unit; repeat constructor; lia).
  split; [exact H|]. split; [reflexivity|].
  exact (proj1 (segment_alphabet _ H)).
Defined.

End Credential_path.

Module Surrogates.
Import Utf_facts.

Lemma scalars_are_scalar s : js_string s -> Forall scalar (Utf16.scalars s).
Proof.
  unfold js_string, code_unit, scalar.
  induction s as [| | a b s IH1 IH2] using list_ind2; intros Hs.
  - constructor.
  - inversion Hs; subst. cbn. unfold Utf16.replacement, Utf16.is_high, Utf16.is_low.
    split_ifs; bool_to_Z; repeat constructor; lia.
  - inversion Hs as [|? ? Ha Hs']; subst.
    inversion Hs' as [|? ? Hb Hs'']; subst.
    specialize (IH1 Hs''). specialize (IH2 Hs').
    rewrite scalars_cons2. unfold Utf16.replacement.
    destruct (Utf16.is_high a) eqn:Ea.
    + destruct (Utf16.is_low b) eqn:Eb.
      * constructor; [|assumption].
        unfold Utf16.is_high, Utf16.is_low in *. bool_to_Z. lia.
      * constructor; [lia | assumption].
    + destruct (Utf16.is_low a) eqn:Ea'; (constructor; [|assumption]).
      * lia.
      * unfold Utf16.is_high, Utf16.is_low in *. bool_to_Z. lia.
Qed.

(** What comes back from the codec: the string with every lone surrogate
    replaced by U+FFFD. *)
Lemma decode_encode_any x :
  js_string x -> b64url.decode (b64url.encode x) = Utf16.of_scalars (Utf16.scalars x).
Proof.
  intros Hx. unfold b64url.decode, b64url.encode.
  fold (b64url_facts.to_url (Base64.encode (Utf8.encode x))).
  fold (b64url_facts.to_std
          (strip_padding (b64url_facts.to_url (Base64.encode (Utf8.encode x))))).
  cbv zeta.
  rewrite b64url_facts.decode_bytes by now apply encode_bytes.
  unfold Utf8.decode, Utf8.encode. rewrite run_encode by now apply scalars_are_scalar.
  reflexivity.
Qed.

Lemma pair_units a b :
  0 <= a < 65536 -> 0 <= b < 65536 ->
  Utf16.is_high a = true -> Utf16.is_low b = true ->
  Utf16.units_of_scalar (0x10000 + (a - 0xD800) * 0x400 + (b - 0xDC00)) = [a; b].
Proof.
  intros Ha Hb Ea Eb. unfold Utf16.units_of_scalar, Utf16.is_high, Utf16.is_low in *.
  bool_to_Z.
  destruct (_ <? 0x10000) eqn:E; [bool_to_Z; lia|].
  f_equal; [arith | f_equal; arith].
Qed.

Lemma fixed_is_well_formed s :
  js_string s -> Utf16.of_scalars (Utf16.scalars s) = s -> Utf16.well_formed s = true.
Proof.
  unfold js_string, code_unit.
  induction s as [| | a b s IH1 IH2] using list_ind2; intros Hs E.
  - reflexivity.
  - inversion Hs; subst. cbn in *.
    unfold Utf16.units_of_scalar, Utf16.replacement in E.
    destruct (Utf16.is_high a) eqn:Ea.
    + cbn in E. injection E as E. unfold Utf16.is_high in Ea. bool_to_Z. lia.
    + destruct (Utf16.is_low a) eqn:Eb; [|reflexivity].
      cbn in E. injection E as E. unfold Utf16.is_low in Eb. bool_to_Z. lia.
  - inversion Hs as [|? ? Ha Hs']; subst.
    inversion Hs' as [|? ? Hb Hs'']; subst.
    rewrite scalars_cons2 in E. rewrite well_formed_cons2.
    unfold Utf16.of_scalars in *.
    destruct (Utf16.is_high a) eqn:Ea.
    + destruct (Utf16.is_low b) eqn:Eb.
      * cbn [flat_map] in E. rewrite pair_units in E by assumption.
        injection E as E. cbn [andb]. now apply IH1.
      * exfalso. cbn [flat_map] in E. unfold Utf16.replacement in E. cbn in E.
        injection E as E _. unfold Utf16.is_high in Ea. bool_to_Z. lia.
    + destruct (Utf16.is_low a) eqn:Ea'.
      * exfalso. cbn [flat_map] in E. unfold Utf16.replacement in E. cbn in E.
        injection E as E _. unfold Utf16.is_low in Ea'. bool_to_Z. lia.
      * cbn [flat_map] in E. unfold Utf16.units_of_scalar at 1 in E.
        replace (a <? 0x10000) with true in E by (symmetry; apply Z.ltb_lt; lia).
        cbn [app] in E. injection E as E. cbn [negb andb]. now apply IH2.
Qed.

(** The codec gives a string back unchanged exactly when the string has no
    lone surrogate; otherwise each lone surrogate comes back as U+FFFD. *)
Theorem roundtrip_iff_well_formed x :
  js_string x ->
  b64url.decode (b64url.encode x) = Utf16.of_scalars (Utf16.scalars x)
  /\ (b64url.decode (b64url.encode x) = x <-> Utf16.well_formed x = true).
Proof.
  intros Hx. split; [now apply decode_encode_any|]. split.
  - intros E. apply fixed_is_well_formed; [assumption|].
    now rewrite <- decode_encode_any.
  - now apply b64url_facts.decode_encode_well_formed.
Qed.

Lemma roundtrip_iff_well_formed_witness :
  js_string [97; 0xD83D; 98]
  /\ b64url.decode (b64url.encode [97; 0xD83D; 98]) = [97; 0xFFFD; 98].
Proof.
  assert (H : js_string [97; 0xD83D; 98])
    by (unfold js_string, code_unit; repeat constructor; lia).
  split; [exact H|].
  exact (proj1 (roundtrip_iff_well_formed _ H)).
Defined.

End Surrogates.

(** ** Extras                                                             *)

(** [k=v] and the extras segment of a list of pairs. *)
Definition render_pair (kv : jsstring * jsstring) : jsstring :=
  fst kv ++ ch_eq :: snd kv.

Definition render_extras (pairs : list (jsstring * jsstring)) : jsstring :=
  join [ch_comma] (map render_pair pairs).

(** A key or a value that can stand in the segment as it is. *)
Definition extra_word (w : jsstring) : Prop :=
  truthy w = true /\ Catalog_route.plain w.

Module Extras.
Import Catalog_route.

Lemma includes_cons c x s :
  includes_char c (x :: s) = (c =? x) || includes_char c s.
Proof. reflexivity. Qed.

Lemma includes_render_pair c kv :
  c <> ch_eq -> includes_char c (fst kv) = false -> includes_char c (snd kv) = false ->
  includes_char c (render_pair kv) = false.
Proof.
  intros Hc Hk Hv. unfold render_pair.
  rewrite includes_char_app, includes_cons, Hk, Hv.
  apply Z.eqb_neq in Hc. now rewrite Hc.
Qed.

Lemma includes_join c sep ws :
  c <> sep -> Forall (fun w => includes_char c w = false) ws ->
  includes_char c (join [sep] ws) = false.
Proof.
  intros Hc H. induction H as [|w ws Hw _ IH]; [reflexivity|].
  destruct ws as [|w' r]; [exact Hw|].
  change (join [sep] (w :: w' :: r)) with (w ++ sep :: join [sep] (w' :: r)).
  rewrite includes_char_app, includes_cons, Hw, IH.
  apply Z.eqb_neq in Hc. now rewrite Hc.
Qed.

Definition good_pair (kv : jsstring * jsstring) : Prop :=
  extra_word (fst kv) /\ extra_word (snd kv).

(** The pairs that the object keeps: all but those whose key is
    [__proto__]. *)
Definition recorded (kv : jsstring * jsstring) : bool :=
  negb (str_eqb (fst kv) (js "__proto__")).

Lemma add_pairs pairs acc :
  Forall good_pair pairs ->
  fold_left
    (fun extras pair =>
       match split ch_eq pair with
       | k :: v :: _ => if truthy k && truthy v then set_property k v extras else extras
       | _ => extras
       end)
    (map render_pair pairs) acc
  = rev (filter recorded pairs) ++ acc.
Proof.
  intros H. revert acc.
  induction H as [|[k v] pairs [(Hk & _ & _ & Hk3) (Hv & _ & _ & Hv3)] _ IH];
    intros acc; [reflexivity|].
  cbn [map fold_left filter]. rewrite IH. cbv beta.
  unfold render_pair, recorded. cbn [fst snd] in *.
  rewrite split_word by assumption. rewrite split_last by assumption.
  rewrite Hk, Hv. cbn [andb]. unfold set_property.
  destruct (str_eqb k (js "__proto__")); cbn [negb rev]; [reflexivity|].
  now rewrite <- app_assoc.
Qed.

(** Parsing the path of a catalog request gives back the extras written
    in it: for keys and values that are not empty and have no '/', ',' or
    '=', the path [/catalog/<type>/<id>/k1=v1,...,kn=vn.json] is parsed to
    the bindings [kn=vn, ..., k1=v1] without those whose key is [__proto__],
    which the object does not record; so a key written twice has its last
    value. *)
Theorem extras_roundtrip type id pairs :
  includes_char ch_slash type = false ->
  includes_char ch_slash id = false ->
  pairs <> [] ->
  Forall good_pair pairs ->
  V24.parseExtrasFromPath
    (js "/catalog/" ++ type ++ js "/" ++ id ++ js "/" ++ render_extras pairs
     ++ js ".json")
  = rev (filter recorded pairs)
  /\ forall k,
       k <> js "__proto__" ->
       get_property k
         (V24.parseExtrasFromPath
            (js "/catalog/" ++ type ++ js "/" ++ id ++ js "/" ++ render_extras pairs
             ++ js ".json"))
       = get_property k (rev pairs).
Proof.
  intros Ht Hi Hne Hp.
  assert (Hslash : includes_char ch_slash (render_extras pairs) = false).
  { apply includes_join; [discriminate|]. apply Forall_map.
    revert Hp. apply Forall_impl.
    intros kv [(_ & Hk & _) (_ & Hv & _)].
    now apply includes_render_pair; [discriminate | |]. }
  assert (Hcomma : Forall (fun w => includes_char ch_comma w = false)
                     (map render_pair pairs)).
  { apply Forall_map. revert Hp. apply Forall_impl.
    intros kv [(_ & _ & Hk & _) (_ & _ & Hv & _)].
    now apply includes_render_pair; [discriminate | |]. }
  assert (Hfirst : truthy (render_extras pairs) = true
                   /\ includes_char ch_eq (render_extras pairs) = true).
  { destruct pairs as [|[k v] r]; [congruence|].
    inversion Hp as [|? ? [(Hk & _) _] _]; subst. cbn [fst] in Hk.
    unfold render_extras. cbn [map].
    assert (E : exists rest, join [ch_comma] (render_pair (k, v) :: map render_pair r)
                             = k ++ ch_eq :: rest).
    { destruct (map render_pair r) as [|w ws].
      - now exists v.
      - exists (v ++ ch_comma :: join [ch_comma] (w :: ws)).
        change (join [ch_comma] (render_pair (k, v) :: w :: ws))
          with (render_pair (k, v) ++ ch_comma :: join [ch_comma] (w :: ws)).
        unfold render_pair. cbn [fst snd]. now rewrite <- app_assoc. }
    destruct E as [rest ->]. split.
    - destruct k; [discriminate | reflexivity].
    - rewrite includes_char_app, includes_cons, Z.eqb_refl.
      now rewrite orb_true_r. }
  destruct Hfirst as [Htruthy Heq].
  assert (E : V24.parseExtrasFromPath
                (js "/catalog/" ++ type ++ js "/" ++ id ++ js "/" ++ render_extras pairs
                 ++ js ".json")
              = rev (filter recorded pairs)).
  { unfold V24.parseExtrasFromPath. cbv zeta.
    change (js "/catalog/" ++ type ++ js "/" ++ id ++ js "/" ++ render_extras pairs
            ++ js ".json")
      with ([] ++ ch_slash :: js "catalog" ++ ch_slash :: type ++ ch_slash :: id
            ++ ch_slash :: render_extras pairs ++ js ".json").
    rewrite split_word by reflexivity.
    rewrite split_word by reflexivity.
    rewrite split_word by assumption.
    rewrite split_word by assumption.
    rewrite split_last by (rewrite includes_char_app, Hslash; reflexivity).
    cbn [nth_error or_empty].
    rewrite Meta_route.strip_json_app, Htruthy, Heq. cbn [andb].
    unfold render_extras.
    rewrite split_join; [|destruct pairs; [congruence | discriminate] | assumption].
    rewrite add_pairs by assumption. now rewrite app_nil_r. }
  split; [exact E|].
  intros k Hk. rewrite E. clear -Hk.
  assert (G : forall l, get_property k (filter recorded l) = get_property k l).
  { induction l as [|[k' v'] l IH]; [reflexivity|].
    cbn [filter]. unfold recorded at 1. cbn [fst].
    destruct (str_eqb k' (js "__proto__")) eqn:E'; cbn [negb get_property].
    - apply str_eqb_eq in E'. subst k'.
      destruct (str_eqb k (js "__proto__")) eqn:E''; [|exact IH].
      apply str_eqb_eq in E''. contradiction.
    - now rewrite IH. }
  rewrite <- (G (rev pairs)). f_equal.
  induction pairs as [|p pairs IH]; [reflexivity|].
  cbn [rev filter]. rewrite filter_app. cbn [filter].
  destruct (recorded p); cbn [rev]; [now rewrite IH | now rewrite IH, app_nil_r].
Qed.

Definition two_genres : list (jsstring * jsstring) :=
  [(js "genre", js "Action"); (js "__proto__", js "x"); (js "genre", js "Drama")].

Lemma extras_roundtrip_witness :
  (includes_char ch_slash (js "movie") = false
   /\ includes_char ch_slash (js "imdb-top-picks") = false
   /\ two_genres <> []
   /\ Forall good_pair two_genres)
  /\ V24.parseExtrasFromPath
       (js "/catalog/movie/imdb-top-picks/genre=Action,__proto__=x,genre=Drama.json")
     = [(js "genre", js "Drama"); (js "genre", js "Action")]
  /\ get_property (js "genre")
       (V24.parseExtrasFromPath
          (js "/catalog/movie/imdb-top-picks/genre=Action,__proto__=x,genre=Drama.json"))
     = Some (js "Drama").
Proof.
  assert (H1 : includes_char ch_slash (js "movie") = false) by reflexivity.
  assert (H2 : includes_char ch_slash (js "imdb-top-picks") = false) by reflexivity.
  assert (H3 : two_genres <> []) by discriminate.
  assert (H4 : Forall good_pair two_genres)
    by (repeat constructor).
  split; [repeat split; assumption|].
  change (js "/catalog/movie/imdb-top-picks/genre=Action,__proto__=x,genre=Drama.json")
    with (js "/catalog/" ++ js "movie" ++ js "/" ++ js "imdb-top-picks" ++ js "/"
          ++ render_extras two_genres ++ js ".json").
  rewrite (proj1 (extras_roundtrip _ _ _ H1 H2 H3 H4)). split; reflexivity.
Defined.

End Extras.

Module Extras_sound.

Lemma added_pairs_sound pairs acc :
  Forall (fun kv => truthy (fst kv) = true /\ truthy (snd kv) = true) acc ->
  Forall (fun kv => truthy (fst kv) = true /\ truthy (snd kv) = true)
    (fold_left
       (fun extras pair =>
          match split ch_eq pair with
          | k :: v :: _ => if truthy k && truthy v then set_property k v extras else extras
          | _ => extras
          end)
       pairs acc).
Proof.
  revert acc. induction pairs as [|p pairs IH]; intros acc H; [exact H|].
  cbn [fold_left]. apply IH.
  destruct (split ch_eq p) as [|k [|v r]]; try assumption.
  destruct (truthy k && truthy v) eqn:E; [|assumption].
  apply andb_true_iff in E. unfold set_property.
  destruct (str_eqb k (js "__proto__")); [assumption | now constructor].
Qed.

(** Every extra that [parseExtrasFromPath] records has a key and a value
    that are not empty, and comes from a fifth piece of the path that has
    an '=' once its [.json] is taken off; a path with fewer pieces, or whose
    fifth piece has no '=', has no extras. *)
Theorem extras_sound path k v :
  In (k, v) (V24.parseExtrasFromPath path) ->
  truthy k = true /\ truthy v = true
  /\ exists seg,
       nth_error (split ch_slash path) 4 = Some seg
       /\ includes_char ch_eq (strip_json seg) = true.
Proof.
  unfold V24.parseExtrasFromPath. cbv zeta.
  destruct (truthy _ && includes_char ch_eq _) eqn:E; [|intros []].
  apply andb_true_iff in E. destruct E as [E1 E2].
  intros H.
  pose proof (added_pairs_sound
                (split ch_comma (strip_json (or_empty (nth_error (split ch_slash path) 4))))
                [] (Forall_nil _)) as Hall.
  rewrite Forall_forall in Hall. destruct (Hall _ H) as [Hk Hv].
  split; [exact Hk|]. split; [exact Hv|].
  destruct (nth_error (split ch_slash path) 4) as [seg|]; [|discriminate].
  now exists seg.
Qed.

Lemma extras_sound_witness :
  In (js "genre", js "Action")
    (V24.parseExtrasFromPath (js "/catalog/movie/imdb-top-picks/year=,genre=Action.json"))
  /\ V24.parseExtrasFromPath (js "/catalog/movie/imdb-top-picks/year=,genre=Action.json")
     = [(js "genre", js "Action")]
  /\ truthy (js "Action") = true.
Proof.
  assert (H : In (js "genre", js "Action")
                (V24.parseExtrasFromPath
                   (js "/catalog/movie/imdb-top-picks/year=,genre=Action.json")))
    by (left; reflexivity).
  split; [exact H|]. split; [reflexivity|].
  exact (proj1 (proj2 (extras_sound _ _ _ H))).
Defined.

(** [strip_json] takes off one trailing [.json], and nothing else: a
    string that ends with [.json] loses exactly that suffix, any other
    string is left as it is. *)
Theorem strip_json_cases s :
  (exists r, s = r ++ js ".json" /\ strip_json s = r)
  \/ ((forall r, s <> r ++ js ".json") /\ strip_json s = s).
Proof.
  unfold strip_json. cbv zeta.
  destruct ((5 <=? length s)%nat && str_eqb (skipn (length s - 5) s) (js ".json")) eqn:E.
  - left. apply andb_true_iff in E. destruct E as [E1 E2].
    apply str_eqb_eq in E2. exists (firstn (length s - 5) s).
    split; [|reflexivity]. rewrite <- E2. symmetry. apply firstn_skipn.
  - right. split; [|reflexivity]. intros r ->.
    rewrite length_app in E. change (length (js ".json")) with 5%nat in E.
    replace (length r + 5 - 5)%nat with (length r) in E by lia.
    rewrite skipn_app, Nat.sub_diag, skipn_all in E. cbn [app skipn] in E.
    rewrite str_eqb_refl in E.
    replace (5 <=? length r + 5)%nat with true in E
      by (symmetry; apply Nat.leb_le; lia).
    discriminate.
Qed.

End Extras_sound.

(* ===================================================================== *)
(** * The script of the page                                              *)
(* ===================================================================== *)

(** [PAGE] carries the function that makes the credential segment in the
    browser: [enc = s => btoa(unescape(encodeURIComponent(s)))] followed by
    the three replacements of [b64url.encode].  The three functions of the
    browser are written out as ECMAScript and HTML define them. *)
Module Page.

(** The characters that [encodeURIComponent] leaves as they are: letters,
    digits and [- _ . ! ~ * ' ( )]. *)
Definition unreserved (c : Z) : bool :=
  ((65 <=? c) && (c <=? 90)) || ((97 <=? c) && (c <=? 122))
  || ((48 <=? c) && (c <=? 57))
  || existsb (Z.eqb c) [45; 95; 46; 33; 126; 42; 39; 40; 41].

Definition hex_digit (n : Z) : Z := if n <? 10 then 48 + n else 55 + n.

(** [%XX] for one byte. *)
Definition percent (b : Z) : jsstring :=
  [37; hex_digit (b / 16); hex_digit (b mod 16)].

Definition escape_scalar (p : Z) : jsstring :=
  if unreserved p then [p] else flat_map percent (Utf8.encode_scalar p).

(** [encodeURIComponent(s)]; [None] stands for the [URIError] thrown on a
    lone surrogate. *)
Definition encodeURIComponent (s : jsstring) : option jsstring :=
  if Utf16.well_formed s
  then Some (flat_map escape_scalar (Utf16.scalars s))
  else None.

Definition hex_value (c : Z) : option Z :=
  if (48 <=? c) && (c <=? 57) then Some (c - 48)
  else if (65 <=? c) && (c <=? 70) then Some (c - 55)
  else if (97 <=? c) && (c <=? 102) then Some (c - 87)
  else None.

(** The value of [uXXXX] at the head of [r], if it is there. *)
Definition four_hex_u (r : jsstring) : option Z :=
  match r with
  | u :: r' =>
      if u =? 117 then
        match r' with
        | a :: b :: c :: d :: _ =>
            match hex_value a, hex_value b, hex_value c, hex_value d with
            | Some a, Some b, Some c, Some d => Some (((a * 16 + b) * 16 + c) * 16 + d)
            | _, _, _, _ => None
            end
        | _ => None
        end
      else None
  | [] => None
  end.

(** The value of [XX] at the head of [r], if it is there. *)
Definition two_hex (r : jsstring) : option Z :=
  match r with
  | a :: b :: _ =>
      match hex_value a, hex_value b with
      | Some a, Some b => Some (a * 16 + b)
      | _, _ => None
      end
  | _ => None
  end.

(** [unescape(s)], with [skip] characters of an escape still to pass. *)
Fixpoint unescape_from (skip : nat) (s : jsstring) : jsstring :=
  match s with
  | [] => []
  | c :: r =>
      match skip with
      | S k => unescape_from k r
      | O =>
          if c =? 37 then
            match four_hex_u r with
            | Some v => v :: unescape_from 5 r
            | None =>
                match two_hex r with
                | Some v => v :: unescape_from 2 r
                | None => c :: unescape_from 0 r
                end
            end
          else c :: unescape_from 0 r
      end
  end.

Definition unescape (s : jsstring) : jsstring := unescape_from 0 s.

(** [btoa(s)]; [None] stands for the [InvalidCharacterError] thrown on a
    character above U+00FF. *)
Definition btoa (s : jsstring) : option jsstring :=
  if forallb (fun c => c <=? 255) s then Some (Base64.encode s) else None.

(** [enc] of the page. *)
Definition enc (s : jsstring) : option jsstring :=
  match encodeURIComponent s with
  | None => None
  | Some e =>
      match btoa (unescape e) with
      | None => None
      | Some b =>
          Some (strip_padding
                  (replace_all ch_slash ch_underscore
                     (replace_all ch_plus ch_minus b)))
      end
  end.

Lemma hex_value_digit n :
  0 <= n < 16 -> hex_value (hex_digit n) = Some n /\ (hex_digit n =? 117) = false.
Proof.
  intros Hn. unfold hex_value, hex_digit.
  split; [|apply Z.eqb_neq]; split_ifs; bool_to_Z; try lia; f_equal; lia.
Qed.

Lemma unescape_percent b rest :
  byte b -> unescape_from 0 (percent b ++ rest) = b :: unescape_from 0 rest.
Proof.
  intros Hb. unfold byte in Hb.
  destruct (hex_value_digit (b / 16) ltac:(Utf_facts.arith)) as [H1 N1].
  destruct (hex_value_digit (b mod 16) ltac:(Utf_facts.arith)) as [H2 _].
  unfold percent. cbn [app unescape_from]. rewrite Z.eqb_refl.
  cbn [four_hex_u]. rewrite N1. cbn [two_hex]. rewrite H1, H2.
  f_equal. Utf_facts.arith.
Qed.

Lemma unescape_percents bs rest :
  Forall byte bs ->
  unescape_from 0 (flat_map percent bs ++ rest) = bs ++ unescape_from 0 rest.
Proof.
  induction 1 as [|b bs Hb _ IH]; [reflexivity|].
  cbn [flat_map]. rewrite <- app_assoc, unescape_percent by assumption.
  now rewrite IH.
Qed.

Lemma unreserved_ascii p : unreserved p = true -> 0 <= p < 0x80 /\ p <> 37.
Proof.
  unfold unreserved. cbn [existsb]. intros H.
  repeat match goal with
    | H : _ || _ = true |- _ => apply orb_true_iff in H; destruct H as [H | H]
    end; bool_to_Z; try lia; discriminate.
Qed.

Lemma unescape_scalar p rest :
  0 <= p < 0x110000 ->
  unescape_from 0 (escape_scalar p ++ rest)
  = Utf8.encode_scalar p ++ unescape_from 0 rest.
Proof.
  intros Hp. unfold escape_scalar. destruct (unreserved p) eqn:E.
  - destruct (unreserved_ascii p E) as [Hr Hn].
    unfold Utf8.encode_scalar.
    replace (p <? 0x80) with true by (symmetry; apply Z.ltb_lt; lia).
    cbn [app unescape_from].
    apply Z.eqb_neq in Hn. now rewrite Hn.
  - apply unescape_percents. now apply Utf_facts.encode_scalar_bytes.
Qed.

Lemma unescape_scalars ps :
  Forall (fun p => 0 <= p < 0x110000) ps ->
  unescape (flat_map escape_scalar ps) = flat_map Utf8.encode_scalar ps.
Proof.
  unfold unescape. induction 1 as [|p ps Hp _ IH]; [reflexivity|].
  cbn [flat_map]. rewrite unescape_scalar by assumption. now rewrite IH.
Qed.

Lemma bytes_fit bs : Forall byte bs -> forallb (fun c => c <=? 255) bs = true.
Proof.
  induction 1 as [|b bs Hb _ IH]; [reflexivity|]. cbn. rewrite IH, andb_true_r.
  apply Z.leb_le. unfold byte in Hb. lia.
Qed.

(** The page and the server make the same credential segment: on a string
    without lone surrogate [enc] gives [b64url.encode], so the address
    [/<enc raw>/manifest.json] that the page shows for a non-empty cookie
    is decoded by the handlers to that cookie; on a string with a lone
    surrogate [enc] throws. *)
Theorem enc_is_encode x :
  js_string x ->
  (Utf16.well_formed x = true ->
   enc x = Some (b64url.encode x)
   /\ (x <> [] ->
       cookie_of (hash_of (js "/" ++ b64url.encode x ++ js "/manifest.json")) = x))
  /\ (Utf16.well_formed x = false -> enc x = None).
Proof.
  intros Hx. split.
  - intros Hw. split.
    + unfold enc, encodeURIComponent. rewrite Hw.
      rewrite unescape_scalars by now apply Utf_facts.scalars_range.
      fold (Utf8.encode x). unfold btoa.
      rewrite bytes_fit by now apply Utf_facts.encode_bytes.
      reflexivity.
    + intros Hne.
      exact (proj2 (proj2 (Credential_path.encoded_path x [js "manifest.json"]
                             Hx Hw Hne ltac:(repeat constructor)))).
  - intros Hw. unfold enc, encodeURIComponent. now rewrite Hw.
Qed.

Lemma enc_is_encode_witness :
  js_string (js "uu=a b; x=%7E") /\ Utf16.well_formed (js "uu=a b; x=%7E") = true
  /\ enc (js "uu=a b; x=%7E") = Some (js "dXU9YSBiOyB4PSU3RQ")
  /\ b64url.decode (js "dXU9YSBiOyB4PSU3RQ") = js "uu=a b; x=%7E".
Proof.
  assert (H1 : js_string (js "uu=a b; x=%7E"))
    by (unfold js_string, code_unit; cbn; repeat constructor; lia).
  assert (H2 : Utf16.well_formed (js "uu=a b; x=%7E") = true) by reflexivity.
  split; [exact H1|]. split; [exact H2|].
  split; [|reflexivity].
  exact (proj1 (proj1 (enc_is_encode _ H1) H2)).
Defined.

End Page.

(* ===================================================================== *)
(** * Requests by their path                                              *)
(* ===================================================================== *)

Module By_path.

Lemma digits_segment ds :
  Forall (fun c => 48 <= c <= 57) ds ->
  segment (js "tt" ++ ds ++ js ".json").
Proof.
  intros H. split; [reflexivity|].
  rewrite !Catalog_route.includes_char_app. cbn [orb].
  replace (includes_char ch_slash ds) with false; [reflexivity|].
  symmetry. unfold includes_char. induction H as [|c ds Hc _ IH]; [reflexivity|].
  cbn [existsb]. rewrite IH, orb_false_r. apply Z.eqb_neq. unfold ch_slash. lia.
Qed.

(** A meta request with a credential: for any credential segment, any
    type segment and any id made of "tt" and digits, the path
    [/<credential>/meta/<type>/<id>.json] is answered 200 with the
    placeholder of that id and type, by both handlers, without decoding the
    credential and without a call. *)
Theorem meta_by_path lc net h ty ds t :
  segment h -> includes_char ch_dot h = false -> segment ty ->
  ds <> [] -> Forall (fun c => 48 <= c <= 57) ds ->
  let req := {| method := js "GET";
                pathname := js "/" ++ h ++ js "/meta/" ++ ty ++ js "/tt" ++ ds
                            ++ js ".json" |} in
  let answer :=
    send (Obj (MetaObject (Meta_route.placeholder (Some ty) (js "tt" ++ ds))))
      application_json 200 in
  V24.handler lc net req t = (Returned answer, t)
  /\ V20.handler net req t = (Returned answer, t).
Proof.
  intros Hh Hdot Hty Hne Hds req answer.
  assert (Hws : Forall segment [js "meta"; ty; js "tt" ++ ds ++ js ".json"]).
  { constructor; [split; reflexivity|]. constructor; [assumption|].
    constructor; [now apply digits_segment | constructor]. }
  destruct (Paths.read_path h _ Hh Hdot Hws) as (E1 & E2 & E3).
  specialize (E3 ltac:(discriminate)).
  assert (Ep : pathname req
               = js "/" ++ join (js "/") [h; js "meta"; ty; js "tt" ++ ds ++ js ".json"]).
  { reflexivity. }
  assert (Et : tail_of (pathname req) = js "/meta/" ++ ty ++ js "/tt" ++ ds ++ js ".json").
  { rewrite Ep, E2. reflexivity. }
  assert (Em : meta_route (tail_of (pathname req)) = answer).
  { unfold meta_route. cbv zeta. rewrite Ep, E3. cbn [nth_error or_empty].
    rewrite app_assoc, Meta_route.strip_json_app.
    replace (is_tt_id (js "tt" ++ ds)) with true; [reflexivity|].
    symmetry. apply Meta_route.is_tt_id_spec. now exists ds. }
  unfold V24.handler, V20.handler.
  change (str_eqb (method req) (js "OPTIONS")) with false. cbv iota.
  rewrite Em, Et. split; reflexivity.
Qed.

Lemma meta_by_path_witness :
  (segment (js "YT1i") /\ includes_char ch_dot (js "YT1i") = false
   /\ segment (js "series") /\ js "0185906" <> []
   /\ Forall (fun c => 48 <= c <= 57) (js "0185906"))
  /\ V20.handler (fun _ => Rejected None None)
       (GET "/YT1i/meta/series/tt0185906.json") []
     = (Returned
          (send (Obj (MetaObject
                        (Meta_route.placeholder (Some (js "series")) (js "tt0185906"))))
             application_json 200), []).
Proof.
  assert (H1 : segment (js "YT1i")) by (split; reflexivity).
  assert (H2 : includes_char ch_dot (js "YT1i") = false) by reflexivity.
  assert (H3 : segment (js "series")) by (split; reflexivity).
  assert (H4 : js "0185906" <> []) by discriminate.
  assert (H5 : Forall (fun c => 48 <= c <= 57) (js "0185906"))
    by (cbn; repeat constructor; lia).
  split; [repeat split; assumption|].
  exact (proj2 (meta_by_path ascii_toLowerCase (fun _ => Rejected None None)
                  _ _ _ [] H1 H2 H3 H4 H5)).
Defined.

(** A catalog request whose fetch meets an answer without edges and with
    errors is answered 503 by both handlers, after one call: with "Login
    required or cookie expired." when the joined messages match [/auth/i] or
    [/login/i], and with "IMDb GraphQL error: " and the joined messages
    otherwise. *)
Theorem upstream_errors_answer lc net req id t data errors :
  method req <> js "OPTIONS" ->
  startsWith (js "/catalog/") (tail_of (pathname req)) = true ->
  nth_error (split ch_slash (tail_of (pathname req))) 3 = Some id ->
  truthy (cookie_of (hash_of (pathname req))) = true ->
  net (cookie_of (hash_of (pathname req))) = Resolved data ->
  or_nil (edges_of data) = [] ->
  data ?. Gql.errors = Some errors ->
  let text :=
    if match_i (js "auth") (Upstream.joined errors)
       || match_i (js "login") (Upstream.joined errors)
    then login_required
    else js "IMDb GraphQL error: " ++ Upstream.joined errors in
  let answer := send (Obj (ErrorObject (Said text))) application_json 503 in
  (startsWith (js "imdb-top-picks") id = true ->
   V24.handler lc net req t
   = (Returned answer, t ++ [cookie_of (hash_of (pathname req))]))
  /\ (id = js "imdb-top-picks.json" ->
      V20.handler net req t
      = (Returned answer, t ++ [cookie_of (hash_of (pathname req))])).
Proof.
  intros Hm Ht Hid Hc Hnet He Herr text answer.
  assert (Hmsg : message_of (upstream_errors errors) = Said text).
  { unfold upstream_errors, text. fold (Upstream.joined errors).
    destruct (_ || _); reflexivity. }
  split.
  - intros Hpre. rewrite (V24_catalog_route lc net req id Hm Ht Hid Hc t Hpre).
    unfold built_items, bind, lift, V24.fetchImdbData, axios_post.
    rewrite Hnet, He, Herr. unfold failure_answer. now rewrite Hmsg.
  - intros Hfile. rewrite (V20_catalog_route net req id Hm Ht Hid Hc t Hfile).
    unfold V20.scrape, axios_post. rewrite Hnet, He, Herr.
    unfold failure_answer. now rewrite Hmsg.
Qed.

Lemma upstream_errors_answer_witness :
  (method Catalog_cases.movies <> js "OPTIONS"
   /\ startsWith (js "/catalog/") (tail_of (pathname Catalog_cases.movies)) = true
   /\ nth_error (split ch_slash (tail_of (pathname Catalog_cases.movies))) 3
      = Some (js "imdb-top-picks.json")
   /\ truthy (cookie_of (hash_of (pathname Catalog_cases.movies))) = true
   /\ or_nil (edges_of (Some Upstream.authentication_required)) = []
   /\ Some Upstream.authentication_required ?. Gql.errors = Some Upstream.one_error)
  /\ V24.handler ascii_toLowerCase
       (fun _ => Resolved (Some Upstream.authentication_required))
       Catalog_cases.movies []
     = (Returned (send (Obj (ErrorObject (Said login_required))) application_json 503),
        [js "a=b"]).
Proof.
  assert (H1 : method Catalog_cases.movies <> js "OPTIONS")
    by (vm_compute; discriminate).
  assert (H2 : startsWith (js "/catalog/")
                 (tail_of (pathname Catalog_cases.movies)) = true) by reflexivity.
  assert (H3 : nth_error (split ch_slash (tail_of (pathname Catalog_cases.movies))) 3
               = Some (js "imdb-top-picks.json")) by reflexivity.
  assert (H4 : truthy (cookie_of (hash_of (pathname Catalog_cases.movies))) = true)
    by reflexivity.
  assert (H5 : or_nil (edges_of (Some Upstream.authentication_required)) = [])
    by reflexivity.
  assert (H6 : Some Upstream.authentication_required ?. Gql.errors
               = Some Upstream.one_error) by reflexivity.
  split; [repeat split; assumption|].
  exact (proj1 (upstream_errors_answer ascii_toLowerCase
                  (fun _ => Resolved (Some Upstream.authentication_required))
                  Catalog_cases.movies _ [] _ _ H1 H2 H3 H4 eq_refl H5 H6) eq_refl).
Defined.

End By_path.
